(** * mt5-optimize-report: the analysis core of [report.py]

    A shallow embedding of the analysis pipeline of [src/report.py]
    (z-scores, default composite score, Pareto flags, suggestion cards,
    parameter ranges) and of the report's client-side [recomputeScores].

    Numbers are IEEE binary64 values, the type behind Python's [float],
    numpy's [float64] and JavaScript's [Number]: Rocq's primitive [float].
    Integer cells are represented by their binary64 value. *)

From Stdlib Require Import String.
From Stdlib Require Import Bool Arith ZArith Lia Floats Uint63.
From Stdlib Require Import List Permutation Sorted.
Import ListNotations.

Set Warnings "-inexact-float".
Local Open Scope string_scope.
Local Open Scope list_scope.
Local Open Scope nat_scope.

(** ** Binary64 comparisons

    Python's [<=], [<], [>=], [>] and [==] on floats are the IEEE
    comparisons [PrimFloat.leb], [PrimFloat.ltb] and [PrimFloat.eqb]. *)

Module F.

Definition geb (x y : float) : bool := PrimFloat.leb y x.
Definition gtb (x y : float) : bool := PrimFloat.ltb y x.

(** Every non-NaN value has a place in a lexicographically ordered triple
    (class, exponent, mantissa); [SFcompare] is the comparison of places. *)
Definition place (x : spec_float) : option (Z * Z * Z) :=
  match x with
  | S754_nan => None
  | S754_infinity true => Some (-2, 0, 0)%Z
  | S754_infinity false => Some (2, 0, 0)%Z
  | S754_zero _ => Some (0, 0, 0)%Z
  | S754_finite true m e => Some (-1, - e, Z.neg m)%Z
  | S754_finite false m e => Some (1, e, Z.pos m)%Z
  end.

Definition lex_lt (a b : Z * Z * Z) : Prop :=
  let '(a1, a2, a3) := a in
  let '(b1, b2, b3) := b in
  (a1 < b1 \/ (a1 = b1 /\ (a2 < b2 \/ (a2 = b2 /\ a3 < b3))))%Z.

Definition lex_le (a b : Z * Z * Z) : Prop :=
  let '(a1, a2, a3) := a in
  let '(b1, b2, b3) := b in
  (a1 < b1 \/ (a1 = b1 /\ (a2 < b2 \/ (a2 = b2 /\ a3 <= b3))))%Z.

Definition fplace (x : float) : option (Z * Z * Z) := place (Prim2SF x).

End F.


(** ** Scalars, columns and tables

    A cell is what the ingestion step ([parser.try_number]) leaves in a
    record: a number, a text that is not a number, or nothing.  Booleans
    only appear in the derived [Is_Pareto] column. *)

Inductive cell : Type :=
  | CNum (x : float)
  | CStr (s : string)
  | CBool (b : bool)
  | CNone.

(** A pandas [Series] of cells, by position: the row labels are unique
    ([RangeIndex], then filtered), so positions and labels correspond. *)
Definition Series := list cell.

(** A [DataFrame]: the number of index entries and the columns in order. *)
Record DataFrame : Type := mkDataFrame {
  df_len : nat;
  df_cols : list (string * Series)
}.

(** A record of [df.to_dict(orient="records")] and of the report's
    [rawData]: the row's cells keyed by column name. *)
Definition Row := list (string * cell).

Inductive error : Type :=
  | AttributeError   (* a method looked up on a value that has none *)
  | KeyError         (* a column or key that does not exist *)
  | TypeError        (* arithmetic on a cell that is not a number *)
  | ValueError       (* the best of an empty selection *)
  | ZeroDivisor      (* marks a division whose divisor is zero *)
  | InvalidRef.      (* a reference to no object: never built by the code *)

Inductive result (A : Type) : Type :=
  | Ok (a : A)
  | Raise (e : error).

Arguments Ok {A} a.
Arguments Raise {A} e.

Definition rbind {A B : Type} (r : result A) (k : A -> result B) : result B :=
  match r with
  | Ok a => k a
  | Raise e => Raise e
  end.

Declare Scope result_scope.
Delimit Scope result_scope with result.
Notation "x <- r ;; k" := (rbind r (fun x => k))
  (at level 61, r at next level, right associativity) : result_scope.

Fixpoint rmap {A B : Type} (f : A -> result B) (xs : list A) : result (list B) :=
  match xs with
  | [] => Ok []
  | x :: xs' =>
      (y <- f x ;; ys <- rmap f xs' ;; Ok (y :: ys))%result
  end.

(** *** pandas operations on frames *)

Fixpoint lookup {A : Type} (k : string) (kvs : list (string * A)) : option A :=
  match kvs with
  | [] => None
  | (k', v) :: rest => if String.eqb k k' then Some v else lookup k rest
  end.

(** [df.columns] *)
Definition columns (df : DataFrame) : list string := map fst (df_cols df).

(** [c in df.columns] *)
Definition has_col (c : string) (df : DataFrame) : bool :=
  existsb (String.eqb c) (columns df).

(** [df[c]] *)
Definition df_col (df : DataFrame) (c : string) : result Series :=
  match lookup c (df_cols df) with
  | Some s => Ok s
  | None => Raise KeyError
  end.

(** [df.get(c, default)]: the column, or the default itself. *)
Inductive column_or_scalar : Type :=
  | Column (s : Series)
  | Scalar (x : float).

Definition df_get (df : DataFrame) (c : string) (default : float) : column_or_scalar :=
  match lookup c (df_cols df) with
  | Some s => Column s
  | None => Scalar default
  end.

Fixpoint set_col (c : string) (s : Series) (cols : list (string * Series))
  : list (string * Series) :=
  match cols with
  | [] => [(c, s)]
  | (c', s') :: rest =>
      if String.eqb c c' then (c', s) :: rest else (c', s') :: set_col c s rest
  end.

(** [df[c] = s]: replaces the column in place or appends a new one. *)
Definition df_set (df : DataFrame) (c : string) (s : Series) : DataFrame :=
  mkDataFrame (df_len df) (set_col c s (df_cols df)).

Fixpoint mask_list {A : Type} (xs : list A) (mask : list bool) : list A :=
  match xs, mask with
  | x :: xs', b :: mask' => if b then x :: mask_list xs' mask' else mask_list xs' mask'
  | _, _ => []
  end.

Definition count_true (mask : list bool) : nat :=
  length (filter (fun b => b) mask).

(** [df[mask]] with a boolean Series: the rows whose flag is true. *)
Definition df_mask (df : DataFrame) (mask : list bool) : DataFrame :=
  mkDataFrame (length (mask_list (seq 0 (df_len df)) mask))
    (map (fun cs => (fst cs, mask_list (snd cs) mask)) (df_cols df)).

(** Rows taken by position ([iloc] with a list of positions). *)
Definition df_take (df : DataFrame) (positions : list nat) : DataFrame :=
  mkDataFrame (length positions)
    (map (fun cs => (fst cs, map (fun i => nth i (snd cs) CNone) positions)) (df_cols df)).

(** [df.iloc[i]] as a record. *)
Definition df_row (df : DataFrame) (i : nat) : Row :=
  map (fun cs => (fst cs, nth i (snd cs) CNone)) (df_cols df).

(** [df.to_dict(orient="records")] *)
Definition to_records (df : DataFrame) : list Row :=
  map (df_row df) (seq 0 (df_len df)).

(** Every column has one cell per index entry and no name occurs twice:
    what pandas guarantees of a frame built from records. *)
Definition wf_frame (df : DataFrame) : bool :=
  forallb (fun cs => Nat.eqb (length (snd cs)) (df_len df)) (df_cols df)
  && forallb (fun c => Nat.eqb (length (filter (String.eqb c) (columns df))) 1) (columns df).

(** *** Coercion to numbers *)

Definition isnan (x : float) : bool := PrimFloat.is_nan x.

(** [pd.to_numeric(_, errors="coerce")] on one cell: a text cell is one
    that [try_number] could not read as a number, and coerces to NaN. *)
Definition to_numeric_cell (c : cell) : float :=
  match c with
  | CNum x => x
  | CBool b => if b then 1%float else 0%float
  | CStr _ => nan
  | CNone => nan
  end.

(** What [pd.to_numeric] returns: a numeric Series for a Series, and the
    number itself for a number. *)
Inductive numeric : Type :=
  | NumSeries (xs : list float)
  | NumScalar (x : float).

Definition to_numeric_series (s : Series) : list float := map to_numeric_cell s.

Definition to_numeric (v : column_or_scalar) : numeric :=
  match v with
  | Column s => NumSeries (to_numeric_series s)
  | Scalar x => NumScalar x
  end.

Definition fill (value x : float) : float := if isnan x then value else x.

(** [.fillna(value)]: a method of Series; a plain number has none. *)
Definition fillna (v : numeric) (value : float) : result (list float) :=
  match v with
  | NumSeries xs => Ok (map (fill value) xs)
  | NumScalar _ => Raise AttributeError
  end.

(** [.dropna()] *)
Definition dropna (xs : list float) : list float :=
  filter (fun x => negb (isnan x)) xs.

Definition float_of_nat (n : nat) : float :=
  PrimFloat.of_uint63 (Uint63.of_Z (Z.of_nat n)).

(** ** Configuration tables of [report.py] *)

(** [DEFAULT_WEIGHTS], in the order the dict is written and iterated. *)
Definition DEFAULT_WEIGHTS : list (string * float) :=
  [ ("profit", 0.30%float);
    ("drawdown", (-0.25)%float);
    ("sharpe_ratio", 0.20%float);
    ("profit_factor", 0.10%float);
    ("recovery_factor", 0.10%float);
    ("expected_payoff", 0.05%float) ].

(** [METRIC_DEF]: key -> (source column, z column); the display label, the
    third component, plays no part in the analysis. *)
Definition METRIC_DEF : list (string * (string * string)) :=
  [ ("profit", ("Profit", "z_profit"));
    ("drawdown", ("Equity DD %", "z_drawdown"));
    ("sharpe_ratio", ("Sharpe Ratio", "z_sharpe_ratio"));
    ("profit_factor", ("Profit Factor", "z_profit_factor"));
    ("recovery_factor", ("Recovery Factor", "z_recovery_factor"));
    ("expected_payoff", ("Expected Payoff", "z_expected_payoff")) ].

(** ** [format_step]

    [round(value, digits)] dispatches on the type of [value]: the builtin
    [float.__round__] for a Python float, [numpy.float64.__round__] for the
    numpy scalars that [generate_report] passes in. Both are given below;
    [format_step] takes the one in force as [round]. *)

Fixpoint format_step_loop (round : float -> nat -> float) (value : float)
    (candidates : list nat) : option float :=
  match candidates with
  | [] => None
  | digits :: rest =>
      let v := round value digits in
      if (PrimFloat.abs (v - value) <? 1e-10)%float then Some v
      else format_step_loop round value rest
  end.

Definition format_step (round : float -> nat -> float) (value : option float)
  : option float :=
  match value with
  | None => None
  | Some value =>
      match format_step_loop round value (seq 0 9) with
      | Some v => Some v
      | None => Some (round value 6)
      end
  end.

(** C's [rint] in the default rounding mode: the nearest integer, ties to
    even. Below 2^52 adding and subtracting 2^52 rounds to an integer. *)
Definition two52 : float := 4503599627370496%float.

Definition rint (x : float) : float :=
  if isnan x then x
  else if (two52 <=? PrimFloat.abs x)%float then x
  else if get_sign x then (- ((- x + two52) - two52))%float
  else ((x + two52) - two52)%float.

(** numpy's table of powers of ten, exact in binary64 up to 10^22. *)
Definition power_of_ten (n : nat) : float :=
  PrimFloat.of_uint63 (Uint63.of_Z (10 ^ Z.of_nat n)).

(** [numpy.float64.__round__(ndigits)], that is [ndarray.round]:
    [rint(x)] for no decimals, else [rint(x * 10^n) / 10^n]. *)
Definition numpy_round (x : float) (ndigits : nat) : float :=
  match ndigits with
  | O => rint x
  | _ => (rint (x * power_of_ten ndigits) / power_of_ten ndigits)%float
  end.

(** The quotient [num / den] ([den > 0]) to the nearest integer, ties to even. *)
Definition round_half_even (num den : Z) : Z :=
  let q := (num / den)%Z in
  let r := (num mod den)%Z in
  match (2 * r ?= den)%Z with
  | Lt => q
  | Gt => (q + 1)%Z
  | Eq => if Z.even q then q else (q + 1)%Z
  end.

(** CPython's [float.__round__(ndigits)] for [ndigits >= 0]: the exact value
    is rounded to [ndigits] decimals, ties to even ([_Py_dg_dtoa], mode 3),
    and the decimal is read back as the nearest binary64 ([_Py_dg_strtod]).
    Non-finite values and zeros are returned as they are. *)
Definition float_round (x : float) (ndigits : nat) : float :=
  match Prim2SF x with
  | S754_finite s m e =>
      let p := (10 ^ Z.of_nat ndigits)%Z in
      let num := if (0 <=? e)%Z then (Z.pos m * 2 ^ e * p)%Z else (Z.pos m * p)%Z in
      let den := if (0 <=? e)%Z then 1%Z else (2 ^ (- e))%Z in
      match round_half_even num den, p with
      | Zpos r, Zpos p' =>
          SF2Prim (SFdiv prec emax (S754_finite s r 0) (S754_finite false p' 0))
      | _, _ => SF2Prim (S754_zero s)
      end
  | _ => x
  end.

(** ** The object store

    Python variables hold references to frames; [df.copy()] and [df[mask]]
    build new objects and [df[c] = s] changes the object it is applied to.
    The store lists the frames that exist; a reference is a position. *)

Definition heap := list DataFrame.
Definition ref := nat.

(** A computation returns a value or raises, and leaves a store. *)
Definition M (A : Type) : Type := heap -> result A * heap.

Definition ret {A : Type} (a : A) : M A := fun h => (Ok a, h).

Definition bind {A B : Type} (m : M A) (k : A -> M B) : M B :=
  fun h =>
    match m h with
    | (Ok a, h') => k a h'
    | (Raise e, h') => (Raise e, h')
    end.

Definition lift {A : Type} (r : result A) : M A := fun h => (r, h).

Declare Scope store_scope.
Delimit Scope store_scope with store.
Notation "x <- m ;; k" := (bind m (fun x => k))
  (at level 61, m at next level, right associativity) : store_scope.
Notation "m ;; k" := (bind m (fun _ => k))
  (at level 61, right associativity) : store_scope.

(** The frame a reference denotes. *)
Definition load (l : ref) : M DataFrame :=
  fun h =>
    match nth_error h l with
    | Some df => (Ok df, h)
    | None => (Raise InvalidRef, h)
    end.

(** A new object. *)
Definition new (df : DataFrame) : M ref :=
  fun h => (Ok (length h), h ++ [df]).

Fixpoint update {A : Type} (xs : list A) (i : nat) (x : A) : list A :=
  match xs, i with
  | [], _ => []
  | _ :: xs', O => x :: xs'
  | y :: xs', S i' => y :: update xs' i' x
  end.

(** The object at [l] becomes [df]. *)
Definition store (l : ref) (df : DataFrame) : M unit :=
  fun h =>
    match nth_error h l with
    | Some _ => (Ok tt, update h l df)
    | None => (Raise InvalidRef, h)
    end.

(** [df.copy()]: a deep copy, a new object with the same content. *)
Definition copy (l : ref) : M ref :=
  (df <- load l ;; new df)%store.

(** [df[c] = s] on the object [l]. *)
Definition assign (l : ref) (c : string) (s : Series) : M unit :=
  (df <- load l ;; store l (df_set df c s))%store.

(** A [for] loop over a Python list. *)
Fixpoint for_each {A : Type} (xs : list A) (body : A -> M unit) : M unit :=
  match xs with
  | [] => ret tt
  | x :: xs' => (body x ;; for_each xs' body)%store
  end.

(** A [for] loop that updates a local value. *)
Fixpoint for_fold {A S : Type} (xs : list A) (body : S -> A -> M S) (s : S) : M S :=
  match xs with
  | [] => ret s
  | x :: xs' => (s' <- body s x ;; for_fold xs' body s')%store
  end.

(** The frame that a computation returning a reference builds from [df]
    alone, and the value that a computation returns on [df] alone. *)
Definition frame_of (prog : ref -> M ref) (df : DataFrame) : result DataFrame :=
  match prog 0 [df] with
  | (Ok l, h) => match nth_error h l with Some d => Ok d | None => Raise InvalidRef end
  | (Raise e, _) => Raise e
  end.

Definition value_of {A : Type} (prog : ref -> M A) (df : DataFrame) : result A :=
  fst (prog 0 [df]).

(** ** The Normalizer: [zscore] and [add_z_scores] *)

(** A division that marks a zero divisor instead of returning an infinity
    or a NaN, so that its absence can be stated. *)
Definition series_div (xs : list float) (d : float) : result (list float) :=
  if (d =? 0)%float then Raise ZeroDivisor
  else Ok (map (fun x => (x / d)%float) xs).

Section Normalizer.

(** numpy's sum of a float array; its order of additions is numpy's own. *)
Variable fsum : list float -> float.

(** [Series.mean()], skipping NaN ([nanops.nanmean]). *)
Definition series_mean (s : list float) : float :=
  let xs := dropna s in
  (fsum xs / float_of_nat (length xs))%float.

(** [Series.var()] with [ddof = 1], skipping NaN ([nanops.nanvar]): NaN
    when there are not more values than [ddof]. *)
Definition series_var (s : list float) : float :=
  let xs := dropna s in
  let count := length xs in
  if count <=? 1 then nan
  else
    let avg := (fsum xs / float_of_nat count)%float in
    (fsum (map (fun x => ((avg - x) * (avg - x))%float) xs)
       / float_of_nat (count - 1))%float.

(** [Series.std()] *)
Definition series_std (s : list float) : float := PrimFloat.sqrt (series_var s).

(** [zscore(series)], lines 52-58. *)
Definition zscore (series : Series) : result (list float) :=
  let s := to_numeric_series series in
  let std := series_std s in
  if (std =? 0)%float || isnan std then Ok (map (fun _ => 0%float) s)
  else series_div (map (fun x => (x - series_mean s)%float) s) std.

(** [add_z_scores(df)], lines 74-80. *)
Definition add_z_scores (df : ref) : M ref :=
  (df <- copy df ;;
   for_each METRIC_DEF (fun '(key, (col, zcol)) =>
     d <- load df ;;
     if has_col col d then
       series <- lift (df_col d col) ;;
       z <- lift (zscore series) ;;
       assign df zcol (map CNum z)
     else ret tt) ;;
   ret df)%store.

End Normalizer.

(** ** The Scorer: [compute_default_score] *)

(** [weight * value] on a cell that is a Python object. *)
Definition scale_cell (weight : float) (c : cell) : result float :=
  match c with
  | CNum x => Ok (weight * x)%float
  | CBool b => Ok (weight * (if b then 1 else 0))%float
  | CStr _ => Raise TypeError
  | CNone => Raise TypeError
  end.

(** A column that pandas holds as [float64]: numbers and empty cells, with
    at least one number. Its empty cells are NaN; the cells of any other
    column are Python objects. *)
Definition float_column (s : Series) : bool :=
  forallb (fun c => match c with CNum _ | CNone => true | _ => false end) s
  && existsb (fun c => match c with CNum _ => true | _ => false end) s.

(** [weight * series] *)
Definition scale (weight : float) (s : Series) : result (list float) :=
  if float_column s then Ok (map (fun c => (weight * to_numeric_cell c)%float) s)
  else rmap (scale_cell weight) s.

(** [score += term], position by position (both carry the frame's index). *)
Fixpoint add_series (score term : list float) : list float :=
  match score, term with
  | x :: score', y :: term' => (x + y)%float :: add_series score' term'
  | _, _ => []
  end.

(** [compute_default_score(df)], lines 83-94. *)
Definition compute_default_score (df : ref) : M ref :=
  (df <- copy df ;;
   d0 <- load df ;;
   score <- for_fold DEFAULT_WEIGHTS (fun score '(key, weight) =>
     m <- lift (match lookup key METRIC_DEF with
                | Some m => Ok m
                | None => Raise KeyError
                end) ;;
     let '(col, zcol) := m in
     d <- load df ;;
     if has_col zcol d then
       z <- lift (df_col d zcol) ;;
       term <- lift (scale weight z) ;;
       ret (add_series score term)
     else ret score) (repeat 0%float (df_len d0)) ;;
   assign df "Score_Weighted" (map CNum score) ;;
   ret df)%store.

(** ** The Pareto classifier: [compute_pareto] *)

(** [series.iloc[i]] on a numeric Series. *)
Definition iloc (xs : list float) (i : nat) : float := nth i xs 0%float.

(** The test of lines 121-126, "j dominates i". *)
Definition dominates (p_j s_j d_j p_i s_i d_i : float) : bool :=
  F.geb p_j p_i && F.geb s_j s_i && (d_j <=? d_i)%float
  && (F.gtb p_j p_i || F.gtb s_j s_i || (d_j <? d_i)%float).

(** The inner loop over [j]: the first dominating [j] clears the flag of
    [i] and ends the scan ([break]). *)
Fixpoint pareto_scan (profit sharpe dd : list float) (i : nat) (js : list nat)
    (is_pareto : list bool) : list bool :=
  match js with
  | [] => is_pareto
  | j :: js' =>
      if i =? j then pareto_scan profit sharpe dd i js' is_pareto
      else if dominates (iloc profit j) (iloc sharpe j) (iloc dd j)
                        (iloc profit i) (iloc sharpe i) (iloc dd i)
      then update is_pareto i false
      else pareto_scan profit sharpe dd i js' is_pareto
  end.

(** The outer loop over [i]. *)
Fixpoint pareto_loop (profit sharpe dd : list float) (n : nat) (rows : list nat)
    (is_pareto : list bool) : list bool :=
  match rows with
  | [] => is_pareto
  | i :: rows' =>
      if negb (nth i is_pareto false) then pareto_loop profit sharpe dd n rows' is_pareto
      else pareto_loop profit sharpe dd n rows'
             (pareto_scan profit sharpe dd i (seq 0 n) is_pareto)
  end.

(** [compute_pareto(df)], lines 97-130. *)
Definition compute_pareto (df : DataFrame) : result (list bool) :=
  let n := df_len df in
  if n =? 0 then Ok []
  else
    (profit <- fillna (to_numeric (df_get df "Profit" 0)) 0 ;;
     sharpe <- fillna (to_numeric (df_get df "Sharpe Ratio" 0)) 0 ;;
     dd <- fillna (to_numeric (df_get df "Equity DD %" 0)) 0 ;;
     Ok (pareto_loop profit sharpe dd n (seq 0 n) (repeat true n)))%result.

(** ** Sorting by score: [df.sort_values(col, ascending=False)] *)

(** [a] may stand before [b] in descending order; NaN goes last. *)
Definition comes_before (a b : float) : bool :=
  if isnan b then true
  else if isnan a then false
  else F.geb a b.

Fixpoint insert_desc (keys : list float) (i : nat) (sorted : list nat) : list nat :=
  match sorted with
  | [] => [i]
  | j :: rest =>
      if comes_before (iloc keys i) (iloc keys j) then i :: j :: rest
      else j :: insert_desc keys i rest
  end.

(** The row positions in descending order of their keys. pandas leaves the
    order of rows with equal keys to its sorting routine; here they keep
    their order in the frame. *)
Definition argsort_desc (keys : list float) : list nat :=
  fold_right (insert_desc keys) [] (seq 0 (length keys)).

Definition sort_values_desc (df : DataFrame) (col : string) : result DataFrame :=
  (s <- df_col df col ;;
   Ok (df_take df (argsort_desc (to_numeric_series s))))%result.

(** [df.head(n)] *)
Definition df_head (df : DataFrame) (n : nat) : DataFrame :=
  mkDataFrame (Nat.min n (df_len df))
    (map (fun cs => (fst cs, firstn n (snd cs))) (df_cols df)).

(** ** The Recommendation Engine: [build_suggestion_cards] *)

(** [p[3:] if p.startswith("inp") else p] *)
Definition strip_inp (p : string) : string :=
  if String.prefix "inp" p then String.substring 3 (String.length p - 3) p else p.

(** [pretty_param_str(row, param_cols)], lines 133-140, as its items. *)
Definition pretty_param_str (row : Row) (param_cols : list string)
  : result (list (string * cell)) :=
  rmap (fun col =>
          match lookup col row with
          | Some val => Ok (strip_inp col, val)
          | None => Raise KeyError
          end) param_cols.

Inductive card_title : Type :=
  | NoDataTitle | AggressiveTitle | BalancedTitle | ConservativeTitle | StableRangeTitle.

(** The content of a card's body; the HTML around it is presentation. *)
Inductive card_body : Type :=
  | NoDataBody
  | StrategyBody (params : list (string * cell)) (profit sharpe dd : option cell)
  | RangeBody (lines : list (string * float * float))
  | NoRangeBody.

Record card : Type := mkCard { title : card_title; body : card_body }.

(** The position of the first best value among the candidates
    ([idxmax], [idxmin]). *)
Fixpoint argbest (better : float -> float -> bool) (vals : list float)
    (best : nat) (candidates : list nat) : nat :=
  match candidates with
  | [] => best
  | i :: rest =>
      if better (iloc vals i) (iloc vals best) then argbest better vals i rest
      else argbest better vals best rest
  end.

Definition idxbest (better : float -> float -> bool) (vals : list float)
    (candidates : list nat) : result nat :=
  match candidates with
  | [] => Raise ValueError
  | i :: rest => Ok (argbest better vals i rest)
  end.

(** The positions kept by [df[mask] if mask.any() else df]. *)
Definition restrict (n : nat) (mask : list bool) : list nat :=
  if existsb (fun b => b) mask then mask_list (seq 0 n) mask else seq 0 n.

Definition strategy_card (t : card_title) (row : Row) (param_cols : list string)
  : result card :=
  (params <- pretty_param_str row param_cols ;;
   Ok (mkCard t (StrategyBody params (lookup "Profit" row)
                   (lookup "Sharpe Ratio" row) (lookup "Equity DD %" row))))%result.

Section Recommendation.

(** [Series.quantile(q)] of a numeric Series without NaN (linear
    interpolation between order statistics, computed by numpy). *)
Variable quantile : list float -> float -> float.

(** The loop of lines 201-208 over the parameter columns. *)
Fixpoint range_lines (top_df : DataFrame) (param_cols : list string)
  : result (list (string * float * float)) :=
  match param_cols with
  | [] => Ok []
  | p :: rest =>
      (s <- df_col top_df p ;;
       let vals := dropna (to_numeric_series s) in
       if length vals =? 0 then range_lines top_df rest
       else
         let q1 := quantile vals 0.25%float in
         let q3 := quantile vals 0.75%float in
         lines <- range_lines top_df rest ;;
         Ok ((strip_inp p, q1, q3) :: lines))%result
  end.

(** Card 4, lines 197-218. *)
Definition stable_range_card (df : DataFrame) (param_cols : list string) : result card :=
  let top_n := Nat.max 10 (df_len df / 5) in
  (sorted <- sort_values_desc df "Score_Weighted" ;;
   let top_df := df_head sorted top_n in
   lines <- range_lines top_df param_cols ;;
   Ok (mkCard StableRangeTitle
         (match lines with [] => NoRangeBody | _ => RangeBody lines end)))%result.

(** [build_suggestion_cards(df, param_cols)], lines 143-220. *)
Definition build_suggestion_cards (df : DataFrame) (param_cols : list string)
  : result (list card) :=
  if df_len df =? 0 then Ok [mkCard NoDataTitle NoDataBody]
  else
    (profit <- fillna (to_numeric (df_get df "Profit" 0)) 0 ;;
     sharpe <- fillna (to_numeric (df_get df "Sharpe Ratio" 0)) 0 ;;
     dd <- fillna (to_numeric (df_get df "Equity DD %" 0)) 0 ;;
     trades <- fillna (to_numeric (df_get df "Trades" 0)) 0 ;;
     (* 1 *)
     let mask_aggr := map (fun t => F.geb t 10) trades in
     let df_aggr := restrict (df_len df) mask_aggr in
     i_aggr <- idxbest F.gtb profit df_aggr ;;
     card1 <- strategy_card AggressiveTitle (df_row df i_aggr) param_cols ;;
     (* 2 *)
     sorted <- sort_values_desc df "Score_Weighted" ;;
     card2 <- strategy_card BalancedTitle (df_row sorted 0) param_cols ;;
     (* 3 *)
     let mask_cons := map (fun ps => F.gtb (fst ps) 0 && F.gtb (snd ps) 0)
                          (combine profit sharpe) in
     let df_cons := restrict (df_len df) mask_cons in
     i_cons <- idxbest PrimFloat.ltb dd df_cons ;;
     card3 <- strategy_card ConservativeTitle (df_row df i_cons) param_cols ;;
     (* 4 *)
     card4 <- stable_range_card df param_cols ;;
     Ok [card1; card2; card3; card4])%result.

End Recommendation.

(** ** The Parameter Range Summarizer (lines 256-272) *)

(** [Series.unique()]: the distinct values, first occurrences first. *)
Fixpoint unique (xs : list float) : list float :=
  match xs with
  | [] => []
  | x :: rest => x :: filter (fun y => negb (y =? x)%float) (unique rest)
  end.

Fixpoint insert_asc (x : float) (sorted : list float) : list float :=
  match sorted with
  | [] => [x]
  | y :: rest => if (y <? x)%float then y :: insert_asc x rest else x :: y :: rest
  end.

(** [sorted(values)] *)
Definition sorted (xs : list float) : list float := fold_right insert_asc [] xs.

(** One entry of [param_ranges]: the bounds are cells of the column's
    kind, numbers or booleans. *)
Record ParamRange : Type := mkParamRange {
  pr_name : string;
  pr_min : option cell;
  pr_max : option cell;
  pr_step : option float
}.

Definition is_bool (c : cell) : bool :=
  match c with
  | CBool _ => true
  | _ => false
  end.

(** A column of booleans only: [pd.to_numeric] returns it as it is. *)
Definition boolean_column (s : Series) : bool := forallb is_bool s.

(** The column has the boolean [b]. *)
Definition has_bool (b : bool) (s : Series) : bool :=
  existsb (fun c => match c with CBool b' => Bool.eqb b b' | _ => false end) s.

(** [sorted(col.unique())] of a boolean column: [False] before [True]. *)
Definition sorted_bools (s : Series) : list bool :=
  (if has_bool false s then [false] else [])
  ++ (if has_bool true s then [true] else []).

(** The body of the loop of lines 258-272 for the column [p]. The numbers
    of a column are binary64 values, as everywhere here: for a column that
    pandas holds as [int64] the step is the same as long as the difference
    of its two smallest values is exact in both arithmetics. In a boolean
    column the values stay booleans, and numpy refuses to subtract two
    booleans. *)
Definition param_range (df : DataFrame) (p : string) : result ParamRange :=
  (s <- df_col df p ;;
   if boolean_column s then
     let vals := sorted_bools s in
     match vals with
     | v0 :: v1 :: _ => Raise TypeError
     | _ =>
         Ok (mkParamRange (strip_inp p) (option_map CBool (hd_error vals))
               (option_map CBool (hd_error (rev vals))) (Some 0%float))
     end
   else
     let col := to_numeric_series s in
     let vals := sorted (unique (dropna col)) in
     let step :=
       match vals with
       | v0 :: v1 :: _ => format_step numpy_round (Some (v1 - v0)%float)
       | _ => Some 0%float
       end in
     Ok (mkParamRange (strip_inp p) (option_map CNum (hd_error vals))
           (option_map CNum (hd_error (rev vals))) step))%result.

(** Whether a column holds no boolean. *)
Definition no_bool_cell (s : Series) : bool := forallb (fun c => negb (is_bool c)) s.

(** ** [generate_report] *)

(** What [generate_report] hands to the HTML template. *)
Record Report : Type := mkReport {
  raw_records : list Row;
  metrics_config : list (string * (string * string));
  table_cols : list string;
  param_count : nat;
  total_runs : nat;
  valid_count : nat;
  pareto_count : nat;
  param_ranges : list ParamRange;
  suggestion_cards : list card
}.

(** The Row Filter, lines 235-237: [df[trades > 0]] when there is a
    [Trades] column. *)
Definition trades_mask (s : Series) : list bool :=
  map (fun t => F.gtb (fill 0 t) 0) (to_numeric_series s).

Definition row_filter (df : ref) : M ref :=
  (d <- load df ;;
   if has_col "Trades" d then
     s <- lift (df_col d "Trades") ;;
     new (df_mask d (trades_mask s))
   else ret df)%store.

(** [metrics_config], lines 295-302: the metrics whose source column and z
    column are both in the frame. *)
Definition metrics_config_of (d : DataFrame) : list (string * (string * string)) :=
  filter (fun m => has_col (fst (snd m)) d && has_col (snd (snd m)) d) METRIC_DEF.

Section Report.

Variable fsum : list float -> float.
Variable quantile : list float -> float -> float.

(** [generate_report(df, param_cols, ...)], lines 223-322; rendering the
    template and writing the file are not part of the analysis. *)
Definition generate_report (df : ref) (param_cols : list string) : M Report :=
  (df <- copy df ;;
   df <- row_filter df ;;
   df <- add_z_scores fsum df ;;
   df <- compute_default_score df ;;
   d <- load df ;;
   pareto_flag <- lift (compute_pareto d) ;;
   assign df "Is_Pareto" (map CBool pareto_flag) ;;
   d <- load df ;;
   let param_count := length param_cols in
   let total_runs := df_len d in
   profit <- lift (fillna (to_numeric (df_get d "Profit" 0)) 0) ;;
   let valid_count := count_true (map (fun p => F.gtb p 0) profit) in
   let pareto_count := count_true pareto_flag in
   param_ranges <- lift (rmap (param_range d) param_cols) ;;
   suggestion_cards <- lift (build_suggestion_cards quantile d param_cols) ;;
   let raw_records := to_records d in
   let metrics_config := metrics_config_of d in
   let table_cols :=
     fold_left (fun acc c =>
                  if has_col c d && negb (existsb (String.eqb c) acc)
                  then acc ++ [c] else acc)
       ["Profit"; "Equity DD %"; "Sharpe Ratio"; "Profit Factor";
        "Recovery Factor"; "Expected Payoff"; "Trades"] param_cols
     ++ ["Score_Weighted"] in
   ret (mkReport raw_records metrics_config table_cols param_count total_runs
          valid_count pareto_count param_ranges suggestion_cards))%store.

End Report.

(** ** The report's script: [recomputeScores]

    [rawData] is [raw_records] written by [json.dumps] into the page's
    script: numbers (NaN and the infinities as the identifiers [NaN],
    [Infinity]), strings, booleans and [null]. *)

Inductive jsval : Type :=
  | JNum (x : float)
  | JStr (s : string)
  | JBool (b : bool)
  | JNull
  | JUndefined.

Definition js_of_cell (c : cell) : jsval :=
  match c with
  | CNum x => JNum x
  | CStr s => JStr s
  | CBool b => JBool b
  | CNone => JNull
  end.

(** [row[name]] *)
Definition js_member (row : Row) (name : string) : jsval :=
  match lookup name row with
  | Some c => js_of_cell c
  | None => JUndefined
  end.

(** [weights[key] || 0]: an absent, zero or NaN weight counts as 0. *)
Definition weight_or_zero (weights : list (string * float)) (key : string) : float :=
  match lookup key weights with
  | Some w => if isnan w || (w =? 0)%float then 0%float else w
  | None => 0%float
  end.

(** [initWeightInputs]: the weight shown in the input of each key, 0 for a
    metric that is not configured. An input holds the number's shortest
    decimal form, which [parseFloat] reads back as the same number. *)
Definition initWeightInputs (weights : list (string * float))
    (metricsConfig : list (string * (string * string))) : list (string * float) :=
  map (fun kw => match lookup (fst kw) metricsConfig with
                 | Some _ => kw
                 | None => (fst kw, 0%float)
                 end) weights.

Section Script.

(** JavaScript's conversion of a string to a number. *)
Variable StringToNumber : string -> float.

(** [Number(v)] *)
Definition Number (v : jsval) : float :=
  match v with
  | JNum x => x
  | JStr s => StringToNumber s
  | JBool b => if b then 1%float else 0%float
  | JNull => 0%float
  | JUndefined => nan
  end.

(** The first loop of [recomputeScores]: each weight is read back from its
    input, where there is one; [inputs] gives [parseFloat(input.value)]. *)
Definition read_weights (inputs weights : list (string * float)) : list (string * float) :=
  map (fun kw => match lookup (fst kw) inputs with
                 | Some v => (fst kw, if isnan v then 0%float else v)
                 | None => kw
                 end) weights.

(** The score of one row: the loop over [Object.entries(metricsConfig)]. *)
Definition row_score (weights : list (string * float))
    (metricsConfig : list (string * (string * string))) (row : Row) : float :=
  fold_left (fun s kc =>
               let w := weight_or_zero weights (fst kc) in
               let zcol := snd (snd kc) in
               let z := Number (js_member row zcol) in
               if negb (isnan z) then (s + w * z)%float else s)
    metricsConfig 0%float.

(** [recomputeScores()], lines 556-576: the new weights and [row.score] of
    every row. *)
Definition recomputeScores (inputs weights : list (string * float))
    (metricsConfig : list (string * (string * string))) (rawData : list Row)
  : list (string * float) * list float :=
  let weights := read_weights inputs weights in
  (weights, map (row_score weights metricsConfig) rawData).

End Script.

(** ** Notions used in the statements *)

(** The value of row [i] on the objective column [c]: the cell coerced to
    a number, 0 for a missing cell or column. *)
Definition objective (df : DataFrame) (c : string) (i : nat) : float :=
  match lookup c (df_cols df) with
  | Some s => fill 0 (to_numeric_cell (nth i s CNone))
  | None => 0%float
  end.

(** Row [j] dominates row [i]: at least as good on the three objectives
    (profit and Sharpe ratio up, drawdown down) and better on one. *)
Definition Dominates (df : DataFrame) (j i : nat) : Prop :=
  (F.geb (objective df "Profit" j) (objective df "Profit" i) = true
   /\ F.geb (objective df "Sharpe Ratio" j) (objective df "Sharpe Ratio" i) = true
   /\ (objective df "Equity DD %" j <=? objective df "Equity DD %" i)%float = true)
  /\ (F.gtb (objective df "Profit" j) (objective df "Profit" i) = true
      \/ F.gtb (objective df "Sharpe Ratio" j) (objective df "Sharpe Ratio" i) = true
      \/ (objective df "Equity DD %" j <? objective df "Equity DD %" i)%float = true).

(** Rows [i] and [j] are equal on the three objectives. *)
Definition Tied (df : DataFrame) (i j : nat) : Prop :=
  (objective df "Profit" i =? objective df "Profit" j)%float = true
  /\ (objective df "Sharpe Ratio" i =? objective df "Sharpe Ratio" j)%float = true
  /\ (objective df "Equity DD %" i =? objective df "Equity DD %" j)%float = true.

(** The three objective columns exist. *)
Definition objectives_present (df : DataFrame) : bool :=
  has_col "Profit" df && has_col "Sharpe Ratio" df && has_col "Equity DD %" df.

(** Some other row dominates row [i], as a test. *)
Definition dominated (df : DataFrame) (i : nat) : bool :=
  existsb (fun j =>
             negb (i =? j)
             && dominates (objective df "Profit" j) (objective df "Sharpe Ratio" j)
                          (objective df "Equity DD %" j)
                          (objective df "Profit" i) (objective df "Sharpe Ratio" i)
                          (objective df "Equity DD %" i))
    (seq 0 (df_len df)).


(** ** Tables and library stand-ins used in examples *)

(** The three-row scenario of the specification (rows A, B, C). *)
Definition scenario_abc : DataFrame :=
  mkDataFrame 3
    [ ("inpPeriod", [CNum 10; CNum 20; CNum 30]);
      ("Profit", [CNum 100; CNum 80; CNum 50]);
      ("Sharpe Ratio", [CNum 1.0; CNum 1.2; CNum 0.5]);
      ("Equity DD %", [CNum 5; CNum 3; CNum 10]);
      ("Trades", [CNum 20; CNum 15; CNum 5]) ].

(** A sum that adds from left to right. *)
Definition sum_left (xs : list float) : float := fold_left PrimFloat.add xs 0%float.

(** The lower order statistic, in place of an interpolated quantile. *)
Definition quantile_lower (xs : list float) (q : float) : float :=
  let n := length xs in
  nth (Nat.div (n - 1) (if (q <? 0.5)%float then 4 else 1)) (sorted xs) 0%float.


(** [round(value, digits)] reproduces [value] within the tolerance of
    [format_step]. *)
Definition within_tolerance (round : float -> nat -> float) (value : float)
    (digits : nat) : bool :=
  (PrimFloat.abs (round value digits - value) <? 1e-10)%float.

(** A table whose rows all have no trade, and one without rows or columns. *)
Definition untraded_table : DataFrame :=
  mkDataFrame 2
    [ ("inpPeriod", [CNum 10; CNum 20]);
      ("Profit", [CNum 0; CNum 0]);
      ("Sharpe Ratio", [CNum 0; CNum 0]);
      ("Equity DD %", [CNum 0; CNum 0]);
      ("Trades", [CNum 0; CStr "n/a"]) ].

Definition empty_table : DataFrame := mkDataFrame 0 [].

(** Tables without a [Profit] column, and one without a [Trades] column. *)
Definition no_profit_table : DataFrame :=
  mkDataFrame 1
    [ ("inpPeriod", [CNum 10]);
      ("Sharpe Ratio", [CNum 1.0]);
      ("Equity DD %", [CNum 5]);
      ("Trades", [CNum 20]) ].

Definition no_trades_column_table : DataFrame :=
  mkDataFrame 1
    [ ("inpPeriod", [CNum 10]);
      ("Profit", [CNum 100]);
      ("Sharpe Ratio", [CNum 1.0]);
      ("Equity DD %", [CNum 5]) ].

Definition untraded_no_profit_table : DataFrame :=
  mkDataFrame 1 [ ("inpPeriod", [CNum 10]); ("Trades", [CNum 0]) ].

(** Twelve scored rows, the best score in the last row. *)
Definition twelve_rows : DataFrame :=
  mkDataFrame 12
    [ ("inpPeriod", map (fun i => CNum (float_of_nat i)) (seq 1 12));
      ("Score_Weighted", map (fun i => CNum (float_of_nat i)) (seq 1 12)) ].


(** ** The pipeline read on values

    What the store computations above build, as functions of the frame
    alone; the properties section proves the correspondence. *)

(** The frame after the Row Filter. *)
Definition filtered (d : DataFrame) : result DataFrame :=
  if has_col "Trades" d then
    (s <- df_col d "Trades" ;; Ok (df_mask d (trades_mask s)))%result
  else Ok d.

(** The score after the weights [weights] have been added to [score]. *)
Fixpoint weighted_sum (weights : list (string * float)) (d : DataFrame)
    (score : list float) : result (list float) :=
  match weights with
  | [] => Ok score
  | (key, weight) :: rest =>
      match lookup key METRIC_DEF with
      | None => Raise KeyError
      | Some (col, zcol) =>
          if has_col zcol d then
            (z <- df_col d zcol ;;
             term <- scale weight z ;;
             weighted_sum rest d (add_series score term))%result
          else weighted_sum rest d score
      end
  end.

(** The frame with its [Score_Weighted] column. *)
Definition scored (d : DataFrame) : result DataFrame :=
  (score <- weighted_sum DEFAULT_WEIGHTS d (repeat 0%float (df_len d)) ;;
   Ok (df_set d "Score_Weighted" (map CNum score)))%result.

Section Values.

Variable fsum : list float -> float.
Variable quantile : list float -> float -> float.

(** The frame with the z columns of the metrics [metrics]. *)
Fixpoint z_columns (metrics : list (string * (string * string))) (d : DataFrame)
  : result DataFrame :=
  match metrics with
  | [] => Ok d
  | (key, (col, zcol)) :: rest =>
      if has_col col d then
        (series <- df_col d col ;;
         z <- zscore fsum series ;;
         z_columns rest (df_set d zcol (map CNum z)))%result
      else z_columns rest d
  end.

(** The report of a frame that has been filtered, normalized and scored. *)
Definition report_of_scored (d : DataFrame) (param_cols : list string) : result Report :=
  (pareto_flag <- compute_pareto d ;;
   let d := df_set d "Is_Pareto" (map CBool pareto_flag) in
   profit <- fillna (to_numeric (df_get d "Profit" 0)) 0 ;;
   param_ranges <- rmap (param_range d) param_cols ;;
   suggestion_cards <- build_suggestion_cards quantile d param_cols ;;
   Ok (mkReport (to_records d)
         (metrics_config_of d)
         (fold_left (fun acc c =>
                       if has_col c d && negb (existsb (String.eqb c) acc)
                       then acc ++ [c] else acc)
            ["Profit"; "Equity DD %"; "Sharpe Ratio"; "Profit Factor";
             "Recovery Factor"; "Expected Payoff"; "Trades"] param_cols
          ++ ["Score_Weighted"])
         (length param_cols) (df_len d)
         (count_true (map (fun p => F.gtb p 0) profit))
         (count_true pareto_flag)
         param_ranges suggestion_cards))%result.

(** The report of a frame that has been filtered. *)
Definition report_of_filtered (d : DataFrame) (param_cols : list string) : result Report :=
  (d <- z_columns METRIC_DEF d ;;
   d <- scored d ;;
   report_of_scored d param_cols)%result.

(** The report of a table. *)
Definition report_value (d : DataFrame) (param_cols : list string) : result Report :=
  (d <- filtered d ;; report_of_filtered d param_cols)%result.

End Values.


(** The numeric trade count of a record: its [Trades] cell coerced to a
    number, 0 when it is not one. *)
Definition row_trades (row : Row) : float :=
  match lookup "Trades" row with
  | Some c => fill 0 (to_numeric_cell c)
  | None => 0%float
  end.


(** A cell that holds a float, defined or not. *)
Definition cell_is_float (c : cell) : bool :=
  match c with
  | CNum _ => true
  | _ => false
  end.

(** The z columns of the frame hold floats, as [zscore] produces them. *)
Definition z_values_float (d : DataFrame) : bool :=
  forallb (fun m => match lookup (snd (snd m)) (df_cols d) with
                    | Some s => forallb cell_is_float s
                    | None => true
                    end) METRIC_DEF.

(** No z-value of row [i] is undefined (NaN). *)
Definition row_defined (d : DataFrame) (i : nat) : bool :=
  forallb (fun m => match lookup (snd (snd m)) (df_cols d) with
                    | Some s => negb (isnan (to_numeric_cell (nth i s CNone)))
                    | None => true
                    end) METRIC_DEF.

(** Every z column of the frame stands next to its source column, as after
    [add_z_scores]. *)
Definition z_columns_derived (d : DataFrame) : bool :=
  forallb (fun m => implb (has_col (snd (snd m)) d) (has_col (fst (snd m)) d)) METRIC_DEF.

(** The scores that the report's script computes when the page is loaded:
    [initWeightInputs], then [recomputeScores] on [rawData]. *)
Definition script_scores (StringToNumber : string -> float) (d : DataFrame) : list float :=
  let metricsConfig := metrics_config_of d in
  snd (recomputeScores StringToNumber
         (initWeightInputs DEFAULT_WEIGHTS metricsConfig) DEFAULT_WEIGHTS
         metricsConfig (to_records d)).

(** A table whose third row has no readable profit. *)
Definition gap_table : DataFrame :=
  mkDataFrame 3
    [ ("Profit", [CNum 1; CNum 2; CStr "n/a"]);
      ("Sharpe Ratio", [CNum 1; CNum 1; CNum 1]);
      ("Equity DD %", [CNum 5; CNum 5; CNum 5]);
      ("Trades", [CNum 3; CNum 3; CNum 3]) ].


(** One term of the Python score of row [i]. *)
Definition score_term (d : DataFrame) (i : nat) (acc : float) (kw : string * float) : float :=
  match lookup (fst kw) METRIC_DEF with
  | Some (col, zcol) =>
      match lookup zcol (df_cols d) with
      | Some s => (acc + snd kw * to_numeric_cell (nth i s CNone))%float
      | None => acc
      end
  | None => acc
  end.

(** The scenario and the table with a gap, normalized by [add_z_scores]. *)
Definition scenario_abc_z : DataFrame :=
  Eval vm_compute in
    match frame_of (add_z_scores sum_left) scenario_abc with
    | Ok d => d
    | Raise _ => empty_table
    end.

Definition gap_table_z : DataFrame :=
  Eval vm_compute in
    match frame_of (add_z_scores sum_left) gap_table with
    | Ok d => d
    | Raise _ => empty_table
    end.


(** The number in column [c] of row [i] (NaN when there is none). *)
Definition numeric_at (d : DataFrame) (c : string) (i : nat) : float :=
  match lookup c (df_cols d) with
  | Some s => to_numeric_cell (nth i s CNone)
  | None => nan
  end.

(** The default composite score of row [i]. *)
Definition score_of (d : DataFrame) (i : nat) : float := numeric_at d "Score_Weighted" i.

(** The stable interval of parameter [p] over the rows [top]: the quartiles
    of its numeric values there, or nothing when it has none. *)
Definition stable_interval (quantile : list float -> float -> float)
    (d : DataFrame) (top : list nat) (p : string) : list (string * float * float) :=
  match dropna (map (numeric_at d p) top) with
  | [] => []
  | vals => [(strip_inp p, quantile vals 0.25%float, quantile vals 0.75%float)]
  end.


(** ** Notions on the object store *)

(** The computation leaves the first [n] objects of the store as they
    are, and removes none. *)
Definition untouched (n : nat) {A : Type} (m : M A) : Prop :=
  forall h, n <= length h ->
    firstn n (snd (m h)) = firstn n h /\ length h <= length (snd (m h)).

(** The reference that the computation returns is not among the first [n]. *)
Definition fresh (n : nat) (m : M ref) : Prop :=
  forall h, n <= length h ->
    match fst (m h) with Ok l => n <= l | Raise _ => True end.

(** From the store [h] the computation returns a reference to the frame
    [r], or raises as [r] does. *)
Definition builds (prog : M ref) (h : heap) (r : result DataFrame) : Prop :=
  match r with
  | Ok d' => exists l' h', prog h = (Ok l', h') /\ nth_error h' l' = Some d'
  | Raise e => fst (prog h) = Raise e
  end.

(** The z-value that the weight of [kw] multiplies in row [i] is undefined. *)
Definition undefined_term (d : DataFrame) (i : nat) (kw : string * float) : bool :=
  match lookup (fst kw) METRIC_DEF with
  | Some (col, zcol) =>
      match lookup zcol (df_cols d) with
      | Some s => isnan (to_numeric_cell (nth i s CNone))
      | None => false
      end
  | None => false
  end.

(** ** Notions used in the further properties *)

(** The z column that [zscore] gives for a source column. *)
Definition zvalues (fsum : list float -> float) (s : Series) : Series :=
  match zscore fsum s with
  | Ok z => map CNum z
  | Raise _ => []
  end.

(** [c] is the name of one of the six z columns. *)
Definition is_z_name (c : string) : bool :=
  existsb (fun m => String.eqb c (snd (snd m))) METRIC_DEF.


(** The rows that pass the test [p], or all rows when none does: the
    selection [df[mask] if mask.any() else df] read on positions. *)
Definition pool_or_all (n : nat) (p : nat -> bool) : list nat :=
  match filter p (seq 0 n) with
  | [] => seq 0 n
  | kept => kept
  end.

(** The rows among which the Aggressive card picks: the rows with at least
    10 trades, or all rows when there is none. *)
Definition aggressive_pool (d : DataFrame) : list nat :=
  pool_or_all (df_len d) (fun i => F.geb (objective d "Trades" i) 10).

(** The rows among which the Conservative card picks: the rows with
    positive profit and positive Sharpe ratio, or all rows. *)
Definition conservative_pool (d : DataFrame) : list nat :=
  pool_or_all (df_len d)
    (fun i => F.gtb (objective d "Profit" i) 0 && F.gtb (objective d "Sharpe Ratio" i) 0).

(** Row [i] is the first row of the pool with the best value: every row
    before it in the pool is worse, no row after it is better. *)
Definition first_best (better : float -> float -> bool) (value : nat -> float)
    (pool : list nat) (i : nat) : Prop :=
  exists before after,
    pool = before ++ i :: after
    /\ (forall j, In j before -> better (value i) (value j) = true)
    /\ (forall j, In j after -> better (value j) (value i) = false).

(** The cell of column [c] in row [i]. *)
Definition cell_at (d : DataFrame) (c : string) (i : nat) : cell :=
  match lookup c (df_cols d) with
  | Some s => nth i s CNone
  | None => CNone
  end.

(** What a strategy card says of row [i]: the parameters with their names
    stripped, and the three objectives of the row. *)
Definition strategy_body (d : DataFrame) (param_cols : list string) (i : nat) : card_body :=
  StrategyBody (map (fun p => (strip_inp p, cell_at d p i)) param_cols)
    (lookup "Profit" (df_row d i)) (lookup "Sharpe Ratio" (df_row d i))
    (lookup "Equity DD %" (df_row d i)).

(** The table has what [build_suggestion_cards] reads: the objective and
    [Trades] columns, the score and the parameter columns. *)
Definition cards_ready (d : DataFrame) (param_cols : list string) : bool :=
  wf_frame d && objectives_present d && has_col "Trades" d
  && has_col "Score_Weighted" d && forallb (fun p => has_col p d) param_cols.


(** The scenario table after the Normalizer and the scorer. *)
Definition scenario_abc_scored : DataFrame :=
  Eval vm_compute in
    match frame_of compute_default_score scenario_abc_z with
    | Ok d => d
    | Raise _ => empty_table
    end.


(** * The reader, [parser.py] *)

(** The values [try_number] returns. *)
Inductive pyval : Type :=
  | PyNone
  | PyInt (z : Z)
  | PyFloat (x : float)
  | PyStr (s : string).

(** [f.is_integer()] *)
Definition is_integer (x : float) : bool :=
  match Prim2SF x with
  | S754_zero _ => true
  | S754_finite _ m e => (0 <=? e)%Z || (Z.land (Zpos m) (Z.ones (- e)) =? 0)%Z
  | _ => false
  end.

(** [int(f)] of a float that is an integer. *)
Definition int_of_float (x : float) : Z :=
  match Prim2SF x with
  | S754_finite s m e =>
      let a := if (0 <=? e)%Z then (Zpos m * 2 ^ e)%Z else Z.shiftr (Zpos m) (- e) in
      if s then (- a)%Z else a
  | _ => 0%Z
  end.

(** A header: the text of the cell, [None] for a cell without text. *)
Definition label : Type := option string.

Definition label_eqb (a b : label) : bool :=
  match a, b with
  | Some x, Some y => String.eqb x y
  | None, None => true
  | _, _ => false
  end.

(** A Python dict with labels as keys, in insertion order. *)
Definition dict : Type := list (label * pyval).

(** [d[k] = v] *)
Fixpoint dict_set (k : label) (v : pyval) (d : dict) : dict :=
  match d with
  | [] => [(k, v)]
  | (k', v') :: rest =>
      if label_eqb k k' then (k', v) :: rest else (k', v') :: dict_set k v rest
  end.

(** [d.get(k)] *)
Fixpoint dict_get (k : label) (d : dict) : option pyval :=
  match d with
  | [] => None
  | (k', v) :: rest => if label_eqb k k' then Some v else dict_get k rest
  end.

(** [dict(items)] *)
Definition dict_of (items : list (label * pyval)) : dict :=
  fold_left (fun d kv => dict_set (fst kv) (snd kv) d) items [].

Section Reader.

(** [str.strip()] and [float(str)], [None] where [float] raises. *)
Variable strip : string -> string.
Variable float_of_string : string -> option float.

(** [try_number(value)], lines 9-22. *)
Definition try_number (value : option string) : pyval :=
  match value with
  | None => PyNone
  | Some value =>
      let value := strip value in
      if String.eqb value "" then PyNone
      else
        match float_of_string value with
        | Some f => if is_integer f then PyInt (int_of_float f) else PyFloat f
        | None => PyStr value
        end
  end.

(** The values of a data row, lines 59-66: one per cell, padded with
    [None] up to the number of headers. *)
Definition row_values (headers : list label) (cells : list (option string)) : list pyval :=
  let values := map try_number cells in
  if length values <? length headers
  then values ++ repeat PyNone (length headers - length values)
  else values.

(** The record of a data row, line 68: [dict(zip(headers, values))]. *)
Definition record_of_row (headers : list label) (cells : list (option string)) : dict :=
  dict_of (combine headers (row_values headers cells)).

(** The loop of lines 53-68 over the data rows; a row without cell is
    skipped. *)
Definition records_of_rows (headers : list label) (rows : list (list (option string)))
  : list dict :=
  map (record_of_row headers)
    (filter (fun cells => match cells with [] => false | _ => true end) rows).

End Reader.

(** [param_cols], line 73: the columns whose name starts with [inp]. *)
Definition param_cols_of (columns : list label) : list label :=
  filter (fun c => match c with Some s => String.prefix "inp" s | None => false end) columns.

(** [metric_cols], line 75: the other columns, but [Custom]. *)
Definition metric_cols_of (columns : list label) : list label :=
  filter (fun c => negb (existsb (label_eqb c) (param_cols_of columns))
                   && negb (label_eqb c (Some "Custom"))) columns.


(** * The driver, [analyze.py] *)

(** What a path names. *)
Inductive node : Type :=
  | File (text : string)
  | Directory.

(** The file system: the paths that exist, each with what it names. A
    path stands for the file it resolves to. *)
Definition files : Type := list (string * node).

(** [path.exists()] *)
Definition path_exists (fs : files) (p : string) : bool :=
  match lookup p fs with
  | Some _ => true
  | None => false
  end.

(** The file system after [f.write(text)] on [p] opened with mode [w]. *)
Fixpoint written (p : string) (text : string) (fs : files) : files :=
  match fs with
  | [] => [(p, File text)]
  | (p', n) :: rest =>
      if String.eqb p p' then (p', File text) :: rest else (p', n) :: written p text rest
  end.

(** How a run of the driver can fail. *)
Inductive failure : Type :=
  | ReaderFailure               (* [parse_xml] raises *)
  | AnalysisFailure (e : error) (* the analysis of [generate_report] raises *)
  | WriteFailure.               (* the report cannot be opened for writing *)

Inductive outcome : Type :=
  | Done (fs : files)
  | Failed (f : failure).

Section Driver.

Variable fsum : list float -> float.
Variable quantile : list float -> float -> float.

(** [Path.stem], [Path.name] and [dir / name] of pathlib. *)
Variable stem : string -> string.
Variable name : string -> string.
Variable joinpath : string -> string -> string.

(** [parse_xml(path)]: the table and its parameter columns read from the
    file, [None] where it raises; it writes nothing. *)
Variable parse_xml : files -> string -> option (DataFrame * list string).

(** The template rendered with the values of the report, and whether
    [open(path, "w")] succeeds. *)
Variable render : string -> Report -> string.
Variable writable : files -> string -> bool.

(** The report path of an XML file, line 14. *)
Definition out_html (xml_path reports_dir : string) : string :=
  joinpath reports_dir (stem xml_path ++ ".html").

(** [process_one(xml_path, reports_dir)], lines 8-21. *)
Definition process_one (xml_path reports_dir : string) (fs : files) : outcome :=
  if negb (path_exists fs xml_path) then Done fs
  else if path_exists fs (out_html xml_path reports_dir) then Done fs
  else
    match parse_xml fs xml_path with
    | None => Failed ReaderFailure
    | Some (df, param_cols) =>
        match value_of (fun df => generate_report fsum quantile df param_cols) df with
        | Raise e => Failed (AnalysisFailure e)
        | Ok report =>
            if writable fs (out_html xml_path reports_dir)
            then Done (written (out_html xml_path reports_dir)
                         (render (name xml_path) report) fs)
            else Failed WriteFailure
        end
    end.

(** The loop of [main], lines 52-53. *)
Fixpoint process_all (xml_files : list string) (reports_dir : string) (fs : files)
  : outcome :=
  match xml_files with
  | [] => Done fs
  | xml_path :: rest =>
      match process_one xml_path reports_dir fs with
      | Done fs' => process_all rest reports_dir fs'
      | Failed f => Failed f
      end
  end.

End Driver.


(** A file system with one XML file and the reports directory, and a
    reader, a template and path functions to run the driver on it. *)
Definition sample_files : files :=
  [("mt5_xml/run.xml", File "<Workbook/>"); ("reports", Directory)].

Definition sample_reader (fs : files) (path : string) : option (DataFrame * list string) :=
  Some (scenario_abc, ["inpPeriod"]).

Definition sample_template (file_name : string) (report : Report) : string :=
  "<html>" ++ file_name ++ "</html>".

Definition sample_join (dir name : string) : string := dir ++ "/" ++ name.

Definition sample_stem (path : string) : string := "run".

Definition sample_name (path : string) : string := "run.xml".

Definition sample_files_after : files :=
  [("mt5_xml/run.xml", File "<Workbook/>"); ("reports", Directory);
   ("reports/run.html", File "<html>run.xml</html>")].


(** The table holds no boolean: the reader leaves numbers, texts and
    empty cells only. *)
Definition bool_free (d : DataFrame) : bool :=
  forallb (fun cs => no_bool_cell (snd cs)) (df_cols d).

(** No boolean in the columns named by [names]. *)
Definition clean (d : DataFrame) (names : list string) : Prop :=
  forall p s, In p names -> lookup p (df_cols d) = Some s -> no_bool_cell s = true.

(** The parameter columns with a column of booleans among them. *)
Definition flagged_table : DataFrame :=
  mkDataFrame 3
    [ ("inpPeriod", [CNum 10; CNum 20; CNum 30]);
      ("Is_Pareto", [CBool true; CBool true; CBool false]);
      ("Use", [CBool true; CBool true; CBool true]) ].


(** * Properties *)

(** ** Order facts on binary64 values *)

Lemma SFcompare_place (x y : spec_float) :
  match SFcompare x y with
  | None => F.place x = None \/ F.place y = None
  | Some c =>
      exists a b, F.place x = Some a /\ F.place y = Some b /\
        match c with
        | Lt => F.lex_lt a b
        | Eq => a = b
        | Gt => F.lex_lt b a
        end
  end.
Proof.
  destruct x as [s| s| |s m e], y as [s'| s'| |s' m' e']; simpl; auto;
    try (destruct s; simpl; do 2 eexists; repeat split; simpl; lia);
    try (destruct s'; simpl; do 2 eexists; repeat split; simpl; lia);
    try (destruct s, s'; simpl; do 2 eexists; repeat split; simpl; lia).
  destruct s, s'; simpl; do 2 eexists; (split; [reflexivity|split; [reflexivity|]]);
    simpl; try lia.
  - destruct (Z.compare_spec e e'); try lia.
    rewrite Pos.compare_cont_spec; simpl.
    destruct (Pos.compare_spec m m'); simpl; subst; try lia; reflexivity.
  - destruct (Z.compare_spec e e'); try lia.
    rewrite Pos.compare_cont_spec; simpl.
    destruct (Pos.compare_spec m m'); simpl; subst; try lia; reflexivity.
Qed.

Lemma lex_lt_irrefl a : ~ F.lex_lt a a.
Proof. destruct a as [[a1 a2] a3]; simpl; lia. Qed.

Lemma lex_le_refl a : F.lex_le a a.
Proof. destruct a as [[a1 a2] a3]; simpl; lia. Qed.

Lemma lex_lt_le a b : F.lex_lt a b -> F.lex_le a b.
Proof. destruct a as [[a1 a2] a3], b as [[b1 b2] b3]; simpl; lia. Qed.

Lemma lex_le_cases a b : F.lex_le a b <-> F.lex_lt a b \/ a = b.
Proof.
  destruct a as [[a1 a2] a3], b as [[b1 b2] b3]; simpl; split.
  - intros H.
    destruct (Z.eq_dec a1 b1), (Z.eq_dec a2 b2), (Z.eq_dec a3 b3); subst;
      auto; left; lia.
  - intros [H|H]; [lia|]. injection H; lia.
Qed.

Lemma lex_total a b : F.lex_le a b \/ F.lex_lt b a.
Proof. destruct a as [[a1 a2] a3], b as [[b1 b2] b3]; simpl; lia. Qed.

Lemma lex_le_lt_false a b : F.lex_le a b -> F.lex_lt b a -> False.
Proof. destruct a as [[a1 a2] a3], b as [[b1 b2] b3]; simpl; lia. Qed.

Lemma lex_le_trans a b c : F.lex_le a b -> F.lex_le b c -> F.lex_le a c.
Proof.
  destruct a as [[a1 a2] a3], b as [[b1 b2] b3], c as [[c1 c2] c3]; simpl; lia.
Qed.

Lemma lex_le_lt_trans a b c : F.lex_le a b -> F.lex_lt b c -> F.lex_lt a c.
Proof.
  destruct a as [[a1 a2] a3], b as [[b1 b2] b3], c as [[c1 c2] c3]; simpl; lia.
Qed.

Lemma lex_lt_le_trans a b c : F.lex_lt a b -> F.lex_le b c -> F.lex_lt a c.
Proof.
  destruct a as [[a1 a2] a3], b as [[b1 b2] b3], c as [[c1 c2] c3]; simpl; lia.
Qed.

(** The three comparisons, read on places. *)
Lemma float_compare_place (x y : float) :
  match F.fplace x, F.fplace y with
  | Some a, Some b =>
      ((x <=? y)%float = true <-> F.lex_le a b) /\
      ((x <? y)%float = true <-> F.lex_lt a b) /\
      ((x =? y)%float = true <-> a = b)
  | _, _ =>
      (x <=? y)%float = false /\ (x <? y)%float = false /\ (x =? y)%float = false
  end.
Proof.
  rewrite FloatAxioms.leb_spec, FloatAxioms.ltb_spec, FloatAxioms.eqb_spec. unfold SFleb, SFltb, SFeqb, F.fplace.
  pose proof (SFcompare_place (Prim2SF x) (Prim2SF y)) as H.
  destruct (SFcompare (Prim2SF x) (Prim2SF y)) as [c|].
  - destruct H as (a & b & -> & -> & H).
    assert (Hirr : forall t, F.lex_lt t t -> False) by (intros t; apply lex_lt_irrefl).
    destruct c; (split; [|split]); split; intros Hc; try discriminate; try reflexivity;
      subst; auto using lex_le_refl, lex_lt_le; exfalso;
      eauto using lex_le_lt_false, lex_lt_le.
  - destruct H as [-> | ->]; [|destruct (F.place (Prim2SF x))]; auto.
Qed.

Lemma isnan_place (x : float) : isnan x = true <-> F.fplace x = None.
Proof.
  unfold isnan, is_nan. pose proof (float_compare_place x x) as H.
  destruct (F.fplace x) as [a|].
  - destruct H as (_ & _ & H). split; [|discriminate].
    intros Hn. apply negb_true_iff in Hn.
    assert ((x =? x)%float = true) by (apply H; reflexivity). congruence.
  - destruct H as (_ & _ & ->). split; reflexivity.
Qed.

Lemma notnan_place (x : float) : isnan x = false -> exists a, F.fplace x = Some a.
Proof.
  intros H. destruct (F.fplace x) as [a|] eqn:E; eauto.
  apply isnan_place in E. congruence.
Qed.

Lemma fltb_irrefl (x : float) : (x <? x)%float = false.
Proof.
  pose proof (float_compare_place x x) as H.
  destruct (F.fplace x) as [a|]; [|tauto].
  destruct H as (_ & H & _).
  destruct (x <? x)%float; auto. exfalso. apply (lex_lt_irrefl a), H; reflexivity.
Qed.

Lemma fleb_trans (x y z : float) :
  (x <=? y)%float = true -> (y <=? z)%float = true -> (x <=? z)%float = true.
Proof.
  intros H1 H2.
  pose proof (float_compare_place x y) as Hxy.
  pose proof (float_compare_place y z) as Hyz.
  pose proof (float_compare_place x z) as Hxz.
  destruct (F.fplace x), (F.fplace y), (F.fplace z);
    try (destruct Hxy as (Hxy & _); congruence);
    try (destruct Hyz as (Hyz & _); congruence).
  apply Hxz. eapply lex_le_trans; [apply Hxy|apply Hyz]; assumption.
Qed.

Lemma fleb_ltb_trans (x y z : float) :
  (x <=? y)%float = true -> (y <? z)%float = true -> (x <? z)%float = true.
Proof.
  intros H1 H2.
  pose proof (float_compare_place x y) as Hxy.
  pose proof (float_compare_place y z) as Hyz.
  pose proof (float_compare_place x z) as Hxz.
  destruct (F.fplace x), (F.fplace y), (F.fplace z);
    try (destruct Hxy as (Hxy & _); congruence);
    try (destruct Hyz as (_ & Hyz & _); congruence).
  apply Hxz. eapply lex_le_lt_trans; [apply Hxy|apply Hyz]; assumption.
Qed.

Lemma fltb_leb_trans (x y z : float) :
  (x <? y)%float = true -> (y <=? z)%float = true -> (x <? z)%float = true.
Proof.
  intros H1 H2.
  pose proof (float_compare_place x y) as Hxy.
  pose proof (float_compare_place y z) as Hyz.
  pose proof (float_compare_place x z) as Hxz.
  destruct (F.fplace x), (F.fplace y), (F.fplace z);
    try (destruct Hxy as (_ & Hxy & _); congruence);
    try (destruct Hyz as (Hyz & _); congruence).
  apply Hxz. eapply lex_lt_le_trans; [apply Hxy|apply Hyz]; assumption.
Qed.

Lemma feqb_not_ltb (x y : float) :
  (x =? y)%float = true -> (x <? y)%float = false /\ (y <? x)%float = false.
Proof.
  intros H.
  pose proof (float_compare_place x y) as Hxy.
  pose proof (float_compare_place y x) as Hyx.
  destruct (F.fplace x) as [a|], (F.fplace y) as [b|];
    try (destruct Hxy as (_ & _ & Hxy); congruence).
  destruct Hxy as (_ & Hlt & Heq), Hyx as (_ & Hlt' & _).
  apply Heq in H; subst b.
  split.
  - destruct (x <? y)%float; auto. exfalso; apply (lex_lt_irrefl a), Hlt; reflexivity.
  - destruct (y <? x)%float; auto. exfalso; apply (lex_lt_irrefl a), Hlt'; reflexivity.
Qed.

Lemma fleb_total (x y : float) :
  isnan x = false -> isnan y = false ->
  (x <=? y)%float = true \/ (y <? x)%float = true.
Proof.
  intros Hx Hy.
  destruct (notnan_place x Hx) as [a Ha], (notnan_place y Hy) as [b Hb].
  pose proof (float_compare_place x y) as Hxy.
  pose proof (float_compare_place y x) as Hyx.
  rewrite Ha, Hb in *.
  destruct (lex_total a b); [left; apply Hxy|right; apply Hyx]; assumption.
Qed.

Lemma fltb_leb (x y : float) : (x <? y)%float = true -> (x <=? y)%float = true.
Proof.
  intros H. pose proof (float_compare_place x y) as Hxy.
  destruct (F.fplace x), (F.fplace y); try (destruct Hxy as (_ & Hxy & _); congruence).
  apply Hxy, lex_lt_le, Hxy, H.
Qed.

Lemma fleb_refl (x : float) : isnan x = false -> (x <=? x)%float = true.
Proof.
  intros Hx. destruct (notnan_place x Hx) as [a Ha].
  pose proof (float_compare_place x x) as H. rewrite Ha in H.
  apply H, lex_le_refl.
Qed.

Lemma fleb_notnan (x y : float) :
  (x <=? y)%float = true -> isnan x = false /\ isnan y = false.
Proof.
  intros H. pose proof (float_compare_place x y) as Hxy.
  destruct (isnan x) eqn:Ex, (isnan y) eqn:Ey; auto;
    try (apply isnan_place in Ex; rewrite Ex in Hxy);
    try (apply isnan_place in Ey; rewrite Ey in Hxy);
    try destruct (F.fplace x); try destruct (F.fplace y);
    destruct Hxy as (Hxy & _); congruence.
Qed.

Lemma fill_notnan (x : float) : isnan (fill 0 x) = false.
Proof. unfold fill. destruct (isnan x) eqn:E; [reflexivity|exact E]. Qed.

(** ** Frames and lists *)

Lemma has_col_lookup (c : string) (df : DataFrame) :
  has_col c df = true <-> exists s, lookup c (df_cols df) = Some s.
Proof.
  unfold has_col, columns. destruct df as [n cols]; simpl.
  induction cols as [|[c' s'] cols IH]; simpl.
  - split; [discriminate|intros [s H]; discriminate].
  - destruct (String.eqb c c'); simpl; [split; eauto|exact IH].
Qed.

Lemma has_col_false (c : string) (df : DataFrame) :
  has_col c df = false <-> lookup c (df_cols df) = None.
Proof.
  pose proof (has_col_lookup c df) as [H1 H2].
  destruct (has_col c df) eqn:E, (lookup c (df_cols df)) as [s|] eqn:L;
    split; intros H; auto; try discriminate.
  - destruct (H1 eq_refl); discriminate.
  - assert (false = true) by eauto. discriminate.
Qed.

Lemma update_length {A : Type} (xs : list A) (i : nat) (x : A) :
  length (update xs i x) = length xs.
Proof.
  revert i; induction xs as [|y xs IH]; intros [|i]; simpl; auto.
Qed.

Lemma nth_update {A : Type} (xs : list A) (i k : nat) (x d : A) :
  nth k (update xs i x) d = if (k =? i) && (i <? length xs) then x else nth k xs d.
Proof.
  revert i k; induction xs as [|y xs IH]; intros i k.
  - destruct i; simpl; rewrite andb_false_r; reflexivity.
  - destruct i as [|i], k as [|k]; simpl; auto; rewrite IH; reflexivity.
Qed.

Lemma nth_error_update {A : Type} (xs : list A) (i k : nat) (x : A) :
  nth_error (update xs i x) k =
  if (k =? i) && (i <? length xs) then Some x else nth_error xs k.
Proof.
  revert i k; induction xs as [|y xs IH]; intros i k.
  - destruct i; simpl; rewrite andb_false_r; reflexivity.
  - destruct i as [|i], k as [|k]; simpl; auto; rewrite IH; reflexivity.
Qed.

Lemma existsb_pointwise {A : Type} (f g : A -> bool) (xs : list A) :
  (forall x, f x = g x) -> existsb f xs = existsb g xs.
Proof. intros H. induction xs as [|x xs IH]; simpl; [reflexivity|]. rewrite H, IH; reflexivity. Qed.

Lemma map_const_repeat {A B : Type} (b : B) (xs : list A) :
  map (fun _ => b) xs = repeat b (length xs).
Proof. induction xs; simpl; congruence. Qed.

Lemma iloc_filled (s : Series) (i : nat) :
  iloc (map (fill 0) (to_numeric_series s)) i = fill 0 (to_numeric_cell (nth i s CNone)).
Proof.
  unfold iloc, to_numeric_series.
  transitivity (nth i (map (fill 0) (map to_numeric_cell s))
                  (fill 0 (to_numeric_cell CNone))); [reflexivity|].
  rewrite (map_nth (fill 0)), (map_nth to_numeric_cell). reflexivity.
Qed.

(** ** The Pareto classifier *)

Section ParetoLoop.

Variables profit sharpe dd : list float.
Variable n : nat.

Let beaten (i : nat) : bool :=
  existsb (fun j => negb (i =? j)
                    && dominates (iloc profit j) (iloc sharpe j) (iloc dd j)
                                 (iloc profit i) (iloc sharpe i) (iloc dd i))
    (seq 0 n).

Lemma pareto_scan_spec (i : nat) (js : list nat) (is_pareto : list bool) :
  pareto_scan profit sharpe dd i js is_pareto =
  if existsb (fun j => negb (i =? j)
                       && dominates (iloc profit j) (iloc sharpe j) (iloc dd j)
                                    (iloc profit i) (iloc sharpe i) (iloc dd i)) js
  then update is_pareto i false else is_pareto.
Proof.
  induction js as [|j js IH]; simpl; [reflexivity|].
  destruct (i =? j); simpl; [exact IH|].
  destruct (dominates _ _ _ _ _ _); simpl; [reflexivity|exact IH].
Qed.

Lemma pareto_loop_spec (rows : list nat) (is_pareto : list bool) :
  NoDup rows -> (forall i, In i rows -> i < length is_pareto) ->
  length (pareto_loop profit sharpe dd n rows is_pareto) = length is_pareto
  /\ forall k,
      nth k (pareto_loop profit sharpe dd n rows is_pareto) false =
      if existsb (Nat.eqb k) rows
      then nth k is_pareto false && negb (beaten k)
      else nth k is_pareto false.
Proof.
  revert is_pareto; induction rows as [|i rows IH]; intros ip Hnd Hlt; simpl.
  - split; [reflexivity|intros k; reflexivity].
  - inversion Hnd as [|? ? Hni Hnd']; subst.
    assert (Hi : i < length ip) by (apply Hlt; left; reflexivity).
    assert (Hnotin : existsb (Nat.eqb i) rows = false).
    { destruct (existsb (Nat.eqb i) rows) eqn:E; auto.
      apply existsb_exists in E. destruct E as (j & Hj & E).
      apply Nat.eqb_eq in E; subst j. contradiction. }
    destruct (nth i ip false) eqn:Eip; simpl.
    + rewrite pareto_scan_spec. fold (beaten i).
      destruct (beaten i) eqn:Eb.
      * destruct (IH (update ip i false) Hnd') as [Hlen Hnth].
        { intros j Hj. rewrite update_length. apply Hlt; right; exact Hj. }
        rewrite update_length in Hlen. split; [exact Hlen|].
        intros k. rewrite Hnth, nth_update.
        destruct (Nat.eqb_spec k i) as [->|Hne]; simpl.
        -- rewrite Hnotin. apply Nat.ltb_lt in Hi. rewrite Hi, Eip, Eb. reflexivity.
        -- reflexivity.
      * destruct (IH ip Hnd') as [Hlen Hnth].
        { intros j Hj. apply Hlt; right; exact Hj. }
        split; [exact Hlen|]. intros k. rewrite Hnth.
        destruct (Nat.eqb_spec k i) as [->|Hne]; simpl; [|reflexivity].
        rewrite Hnotin, Eip, Eb. reflexivity.
    + destruct (IH ip Hnd') as [Hlen Hnth].
      { intros j Hj. apply Hlt; right; exact Hj. }
      split; [exact Hlen|]. intros k. rewrite Hnth.
      destruct (Nat.eqb_spec k i) as [->|Hne]; simpl; [|reflexivity].
      rewrite Hnotin, Eip. reflexivity.
Qed.

Lemma pareto_loop_flags :
  pareto_loop profit sharpe dd n (seq 0 n) (repeat true n) =
  map (fun i => negb (beaten i)) (seq 0 n).
Proof.
  destruct (pareto_loop_spec (seq 0 n) (repeat true n)) as [Hlen Hnth].
  { apply seq_NoDup. }
  { intros i Hi. rewrite repeat_length. apply in_seq in Hi. lia. }
  rewrite repeat_length in Hlen.
  apply (nth_ext _ _ false false).
  - rewrite Hlen, length_map, length_seq. reflexivity.
  - intros k Hk. rewrite Hlen in Hk. rewrite Hnth.
    assert (Hin : existsb (Nat.eqb k) (seq 0 n) = true).
    { apply existsb_exists. exists k. split; [apply in_seq; lia|apply Nat.eqb_refl]. }
    rewrite Hin, nth_repeat_lt by exact Hk. simpl.
    rewrite (nth_indep _ false ((fun i => negb (beaten i)) n))
      by (rewrite length_map, length_seq; exact Hk).
    rewrite (map_nth (fun i => negb (beaten i))), seq_nth by exact Hk.
    reflexivity.
Qed.

End ParetoLoop.

Lemma dominates_iff (df : DataFrame) (j i : nat) :
  dominates (objective df "Profit" j) (objective df "Sharpe Ratio" j)
            (objective df "Equity DD %" j)
            (objective df "Profit" i) (objective df "Sharpe Ratio" i)
            (objective df "Equity DD %" i) = true
  <-> Dominates df j i.
Proof.
  unfold dominates, Dominates.
  rewrite !andb_true_iff, !orb_true_iff. tauto.
Qed.

Lemma dominated_iff (df : DataFrame) (i : nat) :
  dominated df i = false <->
  forall j, j < df_len df -> j <> i -> ~ Dominates df j i.
Proof.
  unfold dominated. split.
  - intros H j Hj Hne Hd.
    assert (E : existsb (fun j =>
               negb (i =? j)
               && dominates (objective df "Profit" j) (objective df "Sharpe Ratio" j)
                            (objective df "Equity DD %" j)
                            (objective df "Profit" i) (objective df "Sharpe Ratio" i)
                            (objective df "Equity DD %" i))
             (seq 0 (df_len df)) = true); [|congruence].
    apply existsb_exists. exists j. split; [apply in_seq; lia|].
    apply andb_true_iff. split.
    + apply negb_true_iff, Nat.eqb_neq. auto.
    + apply dominates_iff, Hd.
  - intros H. destruct (existsb _ _) eqn:E; [|reflexivity].
    apply existsb_exists in E. destruct E as (j & Hj & E).
    apply andb_true_iff in E. destruct E as [Hne Hd].
    apply negb_true_iff, Nat.eqb_neq in Hne. apply in_seq in Hj.
    exfalso. apply (H j); [lia|auto|apply dominates_iff, Hd].
Qed.

Lemma objective_present (df : DataFrame) (c : string) (s : Series) (i : nat) :
  lookup c (df_cols df) = Some s ->
  iloc (map (fill 0) (to_numeric_series s)) i = objective df c i.
Proof. intros H. unfold objective. rewrite H. apply iloc_filled. Qed.

(** The flags that [compute_pareto] returns, in closed form. *)
Lemma compute_pareto_char (df : DataFrame) :
  df_len df = 0 \/ objectives_present df = true ->
  compute_pareto df = Ok (map (fun i => negb (dominated df i)) (seq 0 (df_len df))).
Proof.
  intros H. unfold compute_pareto.
  destruct (Nat.eqb_spec (df_len df) 0) as [E|E]; [rewrite E; reflexivity|].
  destruct H as [H|H]; [contradiction|].
  unfold objectives_present in H. rewrite !andb_true_iff in H.
  destruct H as [[Hp Hs] Hd].
  apply has_col_lookup in Hp, Hs, Hd.
  destruct Hp as [sp Hp], Hs as [ss Hs], Hd as [sd Hd].
  unfold df_get. rewrite Hp, Hs, Hd. simpl.
  rewrite pareto_loop_flags. f_equal.
  apply map_ext. intros i. f_equal. unfold dominated.
  apply existsb_pointwise. intros j.
  rewrite !(objective_present df _ _ _ Hp), !(objective_present df _ _ _ Hs),
    !(objective_present df _ _ _ Hd).
  reflexivity.
Qed.

Lemma nth_map_seq {A : Type} (f : nat -> A) (n i : nat) (d : A) :
  i < n -> nth i (map f (seq 0 n)) d = f i.
Proof.
  intros H. rewrite (nth_indep _ d (f n)) by (rewrite length_map, length_seq; exact H).
  rewrite (map_nth f), seq_nth by exact H. reflexivity.
Qed.

Lemma tied_not_dominates (df : DataFrame) (i j : nat) :
  Tied df i j -> ~ Dominates df j i.
Proof.
  intros (Hp & Hs & Hd) (_ & Hstrict). unfold F.gtb in Hstrict.
  apply feqb_not_ltb in Hp, Hs, Hd.
  destruct Hp as [Hp _], Hs as [Hs _], Hd as [_ Hd].
  destruct Hstrict as [H|[H|H]]; congruence.
Qed.

Lemma tied_sym (df : DataFrame) (i j : nat) : Tied df i j -> Tied df j i.
Proof.
  assert (Hsym : forall x y, (x =? y)%float = true -> (y =? x)%float = true).
  { intros x y H. pose proof (float_compare_place x y) as Hxy.
    pose proof (float_compare_place y x) as Hyx.
    destruct (F.fplace x), (F.fplace y);
      try (destruct Hxy as (_ & _ & Hxy); congruence).
    apply Hyx. symmetry. apply Hxy, H. }
  intros (Hp & Hs & Hd). repeat split; apply Hsym; assumption.
Qed.

(** C1. On a table that has the three objective columns (or no row), the
    classifier returns one flag per row; the flag of a row is true exactly
    when no other row dominates it, where row j dominates row i when j has
    profit >= and Sharpe ratio >= and drawdown <= those of i (cells coerced
    to numbers, missing ones counted as 0) and is strictly better on one of
    the three; two rows equal on the three objectives do not dominate each
    other. *)
Theorem pareto_flag_iff_not_dominated (df : DataFrame) :
  df_len df = 0 \/ objectives_present df = true ->
  exists flags,
    compute_pareto df = Ok flags
    /\ length flags = df_len df
    /\ (forall i, i < df_len df ->
          (nth i flags false = true <->
           forall j, j < df_len df -> j <> i -> ~ Dominates df j i))
    /\ (forall i j, Tied df i j -> ~ Dominates df j i /\ ~ Dominates df i j).
Proof.
  intros H. eexists. split; [apply compute_pareto_char, H|].
  split; [rewrite length_map, length_seq; reflexivity|].
  split.
  - intros i Hi. rewrite nth_map_seq by exact Hi.
    rewrite negb_true_iff. apply dominated_iff.
  - intros i j Ht. split; apply tied_not_dominates; [|apply tied_sym]; exact Ht.
Qed.

Lemma pareto_flag_iff_not_dominated_witness :
  objectives_present scenario_abc = true
  /\ exists flags,
       compute_pareto scenario_abc = Ok flags
       /\ length flags = df_len scenario_abc
       /\ (forall i, i < df_len scenario_abc ->
             (nth i flags false = true <->
              forall j, j < df_len scenario_abc -> j <> i -> ~ Dominates scenario_abc j i))
       /\ (forall i j, Tied scenario_abc i j ->
             ~ Dominates scenario_abc j i /\ ~ Dominates scenario_abc i j).
Proof.
  split; [reflexivity|].
  apply (pareto_flag_iff_not_dominated scenario_abc). right. reflexivity.
Defined.

(** The scenario of the specification: the front of A, B, C is {A, B}. *)
Example pareto_scenario_abc : compute_pareto scenario_abc = Ok [true; true; false].
Proof. reflexivity. Qed.

(** *** The front of a table with rows is not empty *)

Lemma Dominates_irrefl (df : DataFrame) (i : nat) : ~ Dominates df i i.
Proof.
  intros (_ & H). unfold F.gtb in H. rewrite !fltb_irrefl in H.
  destruct H as [H|[H|H]]; discriminate.
Qed.

Lemma Dominates_trans (df : DataFrame) (k j i : nat) :
  Dominates df k j -> Dominates df j i -> Dominates df k i.
Proof.
  unfold Dominates, F.geb, F.gtb.
  intros ((Hp1 & Hs1 & Hd1) & Hstrict1) ((Hp2 & Hs2 & Hd2) & _).
  split; [repeat split; eauto using fleb_trans|].
  destruct Hstrict1 as [H|[H|H]].
  - left. eauto using fleb_ltb_trans.
  - right; left. eauto using fleb_ltb_trans.
  - right; right. eauto using fltb_leb_trans.
Qed.

Lemma Dominates_dec (df : DataFrame) (j i : nat) :
  {Dominates df j i} + {~ Dominates df j i}.
Proof.
  destruct (dominates (objective df "Profit" j) (objective df "Sharpe Ratio" j)
              (objective df "Equity DD %" j)
              (objective df "Profit" i) (objective df "Sharpe Ratio" i)
              (objective df "Equity DD %" i)) eqn:E.
  - left. apply dominates_iff, E.
  - right. intros H. apply dominates_iff in H. congruence.
Defined.

(** Among finitely many rows one is dominated by none: dominance is
    irreflexive and transitive. *)
Lemma undominated_row (df : DataFrame) (rows : list nat) :
  rows <> [] ->
  exists m, In m rows /\ forall j, In j rows -> ~ Dominates df j m.
Proof.
  induction rows as [|a rows IH]; [congruence|]. intros _.
  destruct rows as [|b rows].
  - exists a. split; [left; reflexivity|].
    intros j [<-|[]]. apply Dominates_irrefl.
  - destruct IH as (m & Hm & Hmax); [discriminate|].
    destruct (Dominates_dec df a m) as [Ham|Ham].
    + exists a. split; [left; reflexivity|].
      intros j [<-|Hj]; [apply Dominates_irrefl|].
      intros Hja. apply (Hmax j Hj). eapply Dominates_trans; eauto.
    + exists m. split; [right; exact Hm|].
      intros j [<-|Hj]; [exact Ham|apply Hmax, Hj].
Qed.

(** C3. A table with rows (and the three objective columns) has a row
    flagged true; a table without rows has no flag. *)
Theorem pareto_front_nonempty (df : DataFrame) :
  (objectives_present df = true -> 0 < df_len df ->
   exists flags,
     compute_pareto df = Ok flags
     /\ exists i, i < df_len df /\ nth i flags false = true)
  /\ (df_len df = 0 -> compute_pareto df = Ok []).
Proof.
  split.
  - intros Hp Hn. eexists. split; [apply compute_pareto_char; right; exact Hp|].
    destruct (undominated_row df (seq 0 (df_len df))) as (m & Hm & Hmax).
    { destruct (df_len df); [lia|discriminate]. }
    apply in_seq in Hm. exists m. split; [lia|].
    rewrite nth_map_seq by lia. apply negb_true_iff, dominated_iff.
    intros j Hj _. apply Hmax, in_seq. lia.
  - intros H0. rewrite compute_pareto_char by (left; exact H0).
    rewrite H0. reflexivity.
Qed.

Lemma pareto_front_nonempty_witness :
  ((objectives_present scenario_abc = true /\ 0 < df_len scenario_abc)
   /\ exists flags,
        compute_pareto scenario_abc = Ok flags
        /\ exists i, i < df_len scenario_abc /\ nth i flags false = true)
  /\ (df_len empty_table = 0 /\ compute_pareto empty_table = Ok []).
Proof.
  split.
  - split; [split; [reflexivity|simpl; lia]|].
    apply (proj1 (pareto_front_nonempty scenario_abc)); [reflexivity|simpl; lia].
  - split; [reflexivity|].
    apply (proj2 (pareto_front_nonempty empty_table)). reflexivity.
Defined.

(** ** The Normalizer *)

Section NormalizerFacts.

Variable fsum : list float -> float.

Lemma series_std_few (s : list float) :
  length (dropna s) < 2 -> isnan (series_std fsum s) = true.
Proof.
  intros H. unfold series_std, series_var.
  assert (E : (length (dropna s) <=? 1) = true) by (apply Nat.leb_le; lia).
  rewrite E. reflexivity.
Qed.

Lemma zscore_guard (series : Series) :
  let std := series_std fsum (to_numeric_series series) in
  (std =? 0)%float = true \/ isnan std = true ->
  zscore fsum series = Ok (repeat 0%float (length series)).
Proof.
  intros std H. unfold zscore. fold std.
  assert (E : (std =? 0)%float || isnan std = true)
    by (apply orb_true_iff; exact H).
  rewrite E, map_const_repeat. unfold to_numeric_series.
  rewrite length_map. reflexivity.
Qed.

Lemma zscore_total (series : Series) :
  exists zs, zscore fsum series = Ok zs /\ length zs = length series.
Proof.
  unfold zscore, series_div.
  destruct (series_std fsum (to_numeric_series series) =? 0)%float eqn:E; simpl.
  - eexists; split; [reflexivity|].
    unfold to_numeric_series; rewrite !length_map; reflexivity.
  - destruct (isnan _).
    + eexists; split; [reflexivity|].
      unfold to_numeric_series; rewrite !length_map; reflexivity.
    + eexists; split; [reflexivity|].
      unfold to_numeric_series; rewrite !length_map; reflexivity.
Qed.

(** The guard of [zscore]: when the computed standard deviation of a column
    is 0 or NaN (as with fewer than two numeric values), every row gets the
    value 0; and [zscore] never divides by zero: on every column it returns
    one value per row. *)
Theorem zscore_zero_without_spread (series : Series) :
  ((series_std fsum (to_numeric_series series) =? 0)%float = true
   \/ isnan (series_std fsum (to_numeric_series series)) = true ->
   zscore fsum series = Ok (repeat 0%float (length series)))
  /\ (length (dropna (to_numeric_series series)) < 2 ->
      zscore fsum series = Ok (repeat 0%float (length series)))
  /\ zscore fsum series <> Raise ZeroDivisor
  /\ exists zs, zscore fsum series = Ok zs /\ length zs = length series.
Proof.
  split; [apply zscore_guard|].
  split; [intros H; apply zscore_guard; right; apply series_std_few, H|].
  split; [|apply zscore_total].
  destruct (zscore_total series) as (zs & -> & _). discriminate.
Qed.

End NormalizerFacts.

Lemma zscore_zero_without_spread_witness :
  ((series_std sum_left (to_numeric_series [CNum 5; CNum 5; CNum 5]) =? 0)%float = true
   /\ zscore sum_left [CNum 5; CNum 5; CNum 5] = Ok [0; 0; 0]%float)
  /\ (length (dropna (to_numeric_series [CNum 7; CStr "n/a"])) < 2
      /\ zscore sum_left [CNum 7; CStr "n/a"] = Ok [0; 0]%float).
Proof.
  split.
  - split; [reflexivity|].
    apply (proj1 (zscore_zero_without_spread sum_left [CNum 5; CNum 5; CNum 5])).
    left. reflexivity.
  - split; [simpl; lia|].
    apply (proj1 (proj2 (zscore_zero_without_spread sum_left [CNum 7; CStr "n/a"]))).
    simpl; lia.
Defined.

(** C5. A constant column does not always get the value 0. The guard of
    [zscore] compares the computed standard deviation with 0; the three
    cells 0.1, summed from left to right, have a computed mean above 0.1 and
    a computed standard deviation that is neither 0 nor NaN, so the guard
    does not fire and every row gets about -0.816 instead of 0. *)
Theorem zscore_constant_column_not_zero :
  (forall c, In c [CNum 0.1; CNum 0.1; CNum 0.1] -> c = CNum 0.1)
  /\ (series_std sum_left (to_numeric_series [CNum 0.1; CNum 0.1; CNum 0.1]) =? 0)%float
     = false
  /\ isnan (series_std sum_left (to_numeric_series [CNum 0.1; CNum 0.1; CNum 0.1]))
     = false
  /\ zscore sum_left [CNum 0.1; CNum 0.1; CNum 0.1]
     = Ok [(-0.81649658092772615)%float; (-0.81649658092772615)%float;
           (-0.81649658092772615)%float]
  /\ ((-0.81649658092772615) =? 0)%float = false.
Proof.
  split; [intros c [<-|[<-|[<-|[]]]]; reflexivity|].
  repeat split; vm_compute; reflexivity.
Qed.

(** ** [format_step] *)

Lemma format_step_loop_first (round : float -> nat -> float) (v : float)
    (ds : list nat) :
  match format_step_loop round v ds with
  | Some r =>
      exists pre d post,
        ds = pre ++ d :: post /\ r = round v d
        /\ within_tolerance round v d = true
        /\ Forall (fun d' => within_tolerance round v d' = false) pre
  | None => Forall (fun d => within_tolerance round v d = false) ds
  end.
Proof.
  induction ds as [|d ds IH]; simpl; [constructor|].
  fold (within_tolerance round v d).
  destruct (within_tolerance round v d) eqn:E.
  - exists [], d, ds. repeat split; auto.
  - destruct (format_step_loop round v ds) as [r|].
    + destruct IH as (pre & d' & post & -> & -> & Hd' & Hpre).
      exists (d :: pre), d', post. repeat split; auto.
    + constructor; assumption.
Qed.

Lemma seq_split_at (n : nat) (pre post : list nat) (d : nat) :
  seq 0 n = pre ++ d :: post ->
  d = length pre /\ d < n /\ forall d', d' < d -> In d' pre.
Proof.
  intros H.
  assert (Hlen : length pre + S (length post) = n).
  { pose proof (f_equal (@length nat) H) as E.
    rewrite length_seq, length_app in E. simpl in E. lia. }
  assert (Hd : d = length pre).
  { assert (E : nth (length pre) (seq 0 n) 0 = d)
      by (rewrite H, app_nth2, Nat.sub_diag by lia; reflexivity).
    rewrite seq_nth in E by lia. simpl in E. congruence. }
  split; [exact Hd|]. split; [lia|].
  intros d' Hd'.
  assert (E : nth d' (seq 0 n) 0 = nth d' pre 0) by (rewrite H, app_nth1 by lia; reflexivity).
  rewrite seq_nth in E by lia. simpl in E. rewrite E. apply nth_In. lia.
Qed.

(** C7. [format_step] returns [round(v, d)] for the smallest [d] in 0..8
    whose rounding is within 1e-10 of [v], and [round(v, 6)] when there is
    none, whichever [round] is in force; with Python's and with numpy's
    [round], 0.020000000000000018 gives 0.02 and 1.0 gives 1. *)
Theorem format_step_smallest_digits :
  (forall (round : float -> nat -> float) (v : float),
     (exists d, d <= 8
        /\ within_tolerance round v d = true
        /\ (forall d', d' < d -> within_tolerance round v d' = false)
        /\ format_step round (Some v) = Some (round v d))
     \/ ((forall d, d <= 8 -> within_tolerance round v d = false)
         /\ format_step round (Some v) = Some (round v 6)))
  /\ format_step float_round (Some 0.020000000000000018%float) = Some 0.02%float
  /\ format_step numpy_round (Some 0.020000000000000018%float) = Some 0.02%float
  /\ format_step float_round (Some 1.0%float) = Some 1%float
  /\ format_step numpy_round (Some 1.0%float) = Some 1%float.
Proof.
  split; [|repeat split; vm_compute; reflexivity].
  intros round v. unfold format_step.
  pose proof (format_step_loop_first round v (seq 0 9)) as H.
  destruct (format_step_loop round v (seq 0 9)) as [r|].
  - left. destruct H as (pre & d & post & Hsplit & -> & Hd & Hpre).
    destruct (seq_split_at 9 pre post d Hsplit) as (Hlen & Hlt & Hin).
    exists d. split; [lia|]. split; [exact Hd|]. split; [|reflexivity].
    intros d' Hd'. rewrite Forall_forall in Hpre. apply Hpre, Hin, Hd'.
  - right. split; [|reflexivity].
    intros d Hd. rewrite Forall_forall in H. apply H, in_seq. lia.
Qed.

(** ** The object store: what a computation leaves untouched *)

Lemma firstn_update {A : Type} (xs : list A) (n i : nat) (x : A) :
  n <= i -> firstn n (update xs i x) = firstn n xs.
Proof.
  revert n i; induction xs as [|y xs IH]; intros n i H.
  - destruct i; reflexivity.
  - destruct i as [|i], n as [|n]; simpl; try reflexivity; try lia.
    rewrite IH by lia. reflexivity.
Qed.

Lemma untouched_ret {A : Type} (n : nat) (a : A) : untouched n (ret a).
Proof. intros h H; simpl; auto. Qed.

Lemma untouched_lift {A : Type} (n : nat) (r : result A) : untouched n (lift r).
Proof. intros h H; simpl; auto. Qed.

Lemma untouched_load (n : nat) (l : ref) : untouched n (load l).
Proof. intros h H; unfold load. destruct (nth_error h l); simpl; auto. Qed.

Lemma untouched_new (n : nat) (df : DataFrame) : untouched n (new df).
Proof.
  intros h H; unfold new; simpl. split.
  - rewrite firstn_app. replace (n - length h) with 0 by lia.
    simpl. apply app_nil_r.
  - rewrite length_app; simpl; lia.
Qed.

Lemma untouched_store (n : nat) (l : ref) (df : DataFrame) :
  n <= l -> untouched n (store l df).
Proof.
  intros Hl h H; unfold store. destruct (nth_error h l); simpl; auto.
  split; [apply firstn_update, Hl|rewrite update_length; lia].
Qed.

Lemma untouched_bind {A B : Type} (n : nat) (m : M A) (k : A -> M B) :
  untouched n m -> (forall a, untouched n (k a)) -> untouched n (bind m k).
Proof.
  intros Hm Hk h H. unfold bind. specialize (Hm h H).
  destruct (m h) as [[a|e] h']; simpl in *; [|exact Hm].
  destruct Hm as [Hfst Hlen].
  destruct (Hk a h') as [Hfst' Hlen']; [lia|].
  split; [congruence|lia].
Qed.

Lemma untouched_bind_fresh {B : Type} (n : nat) (m : M ref) (k : ref -> M B) :
  untouched n m -> fresh n m -> (forall l, n <= l -> untouched n (k l)) ->
  untouched n (bind m k).
Proof.
  intros Hm Hf Hk h H. unfold bind. specialize (Hm h H). specialize (Hf h H).
  destruct (m h) as [[l|e] h']; simpl in *; [|exact Hm].
  destruct Hm as [Hfst Hlen].
  destruct (Hk l Hf h') as [Hfst' Hlen']; [lia|].
  split; [congruence|lia].
Qed.

Lemma fresh_bind {A : Type} (n : nat) (m : M A) (k : A -> M ref) :
  untouched n m -> (forall a, fresh n (k a)) -> fresh n (bind m k).
Proof.
  intros Hm Hk h H. unfold bind. specialize (Hm h H).
  destruct (m h) as [[a|e] h']; simpl in *; [|exact I].
  apply Hk. lia.
Qed.

Lemma fresh_bind_fresh (n : nat) (m : M ref) (k : ref -> M ref) :
  untouched n m -> fresh n m -> (forall l, n <= l -> fresh n (k l)) ->
  fresh n (bind m k).
Proof.
  intros Hm Hf Hk h H. unfold bind. specialize (Hm h H). specialize (Hf h H).
  destruct (m h) as [[l|e] h']; simpl in *; [|exact I].
  apply Hk; [exact Hf|lia].
Qed.

Lemma fresh_ret (n : nat) (l : ref) : n <= l -> fresh n (ret l).
Proof. intros Hl h H; exact Hl. Qed.

Lemma fresh_new (n : nat) (df : DataFrame) : fresh n (new df).
Proof. intros h H; exact H. Qed.

Lemma untouched_copy (n : nat) (l : ref) : untouched n (copy l).
Proof.
  apply untouched_bind; [apply untouched_load|intros; apply untouched_new].
Qed.

Lemma fresh_copy (n : nat) (l : ref) : fresh n (copy l).
Proof.
  apply fresh_bind; [apply untouched_load|intros; apply fresh_new].
Qed.

Lemma untouched_assign (n : nat) (l : ref) (c : string) (s : Series) :
  n <= l -> untouched n (assign l c s).
Proof.
  intros Hl. apply untouched_bind; [apply untouched_load|].
  intros; apply untouched_store, Hl.
Qed.

Lemma untouched_for_each {A : Type} (n : nat) (xs : list A) (body : A -> M unit) :
  (forall x, untouched n (body x)) -> untouched n (for_each xs body).
Proof.
  intros Hb. induction xs as [|x xs IH]; simpl; [apply untouched_ret|].
  apply untouched_bind; auto.
Qed.

Lemma untouched_for_fold {A S : Type} (n : nat) (xs : list A)
    (body : S -> A -> M S) (s : S) :
  (forall s x, untouched n (body s x)) -> untouched n (for_fold xs body s).
Proof.
  intros Hb. revert s; induction xs as [|x xs IH]; intros s; simpl;
    [apply untouched_ret|].
  apply untouched_bind; auto.
Qed.

Create HintDb store.
#[local] Hint Resolve untouched_ret untouched_lift untouched_load untouched_new
  untouched_copy fresh_copy fresh_new untouched_assign untouched_store fresh_ret
  : store.

Ltac store_step :=
  match goal with
  | |- untouched _ (bind (copy _) _) =>
      apply untouched_bind_fresh; [apply untouched_copy|apply fresh_copy|intros ? ?]
  | |- fresh _ (bind (copy _) _) =>
      apply fresh_bind_fresh; [apply untouched_copy|apply fresh_copy|intros ? ?]
  | |- untouched _ (bind _ _) => apply untouched_bind; [|intros ?]
  | |- fresh _ (bind _ _) => apply fresh_bind; [|intros ?]
  | |- untouched _ (for_each _ _) => apply untouched_for_each; intros ?
  | |- untouched _ (for_fold _ _ _) => apply untouched_for_fold; intros ? ?
  | |- untouched _ (if ?b then _ else _) => destruct b
  | |- fresh _ (if ?b then _ else _) => destruct b
  | |- untouched _ (match ?x with Some _ => _ | None => _ end) => destruct x
  | |- untouched _ (let '(_, _) := ?p in _) => destruct p
  | |- untouched _ ((fun _ => _) _) => cbv beta
  | |- _ => solve [auto with store]
  end.

Section StoreFacts.

Variable fsum : list float -> float.
Variable quantile : list float -> float -> float.

Lemma untouched_add_z_scores (n : nat) (l : ref) : untouched n (add_z_scores fsum l).
Proof. unfold add_z_scores. repeat store_step. Qed.

Lemma fresh_add_z_scores (n : nat) (l : ref) : fresh n (add_z_scores fsum l).
Proof. unfold add_z_scores. repeat store_step. Qed.

Lemma untouched_compute_default_score (n : nat) (l : ref) :
  untouched n (compute_default_score l).
Proof. unfold compute_default_score. repeat store_step. Qed.

Lemma fresh_compute_default_score (n : nat) (l : ref) :
  fresh n (compute_default_score l).
Proof. unfold compute_default_score. repeat store_step. Qed.

Lemma untouched_row_filter (n : nat) (l : ref) : untouched n (row_filter l).
Proof. unfold row_filter. repeat store_step. Qed.

Lemma fresh_row_filter (n : nat) (l : ref) : n <= l -> fresh n (row_filter l).
Proof. intros Hl. unfold row_filter. repeat store_step. Qed.

Lemma untouched_generate_report (n : nat) (l : ref) (param_cols : list string) :
  untouched n (generate_report fsum quantile l param_cols).
Proof.
  unfold generate_report. store_step.
  apply untouched_bind_fresh;
    [apply untouched_row_filter|apply fresh_row_filter; assumption|intros ? ?].
  apply untouched_bind_fresh;
    [apply untouched_add_z_scores|apply fresh_add_z_scores|intros ? ?].
  apply untouched_bind_fresh;
    [apply untouched_compute_default_score|apply fresh_compute_default_score|intros ? ?].
  repeat store_step.
Qed.

End StoreFacts.

(** C10. [add_z_scores], [compute_default_score] and [generate_report]
    work on a copy: whatever the store, the argument and the outcome, every
    object that existed before the call, the caller's table among them, is
    as it was afterwards; the frame that [add_z_scores] or
    [compute_default_score] returns is a new object, so the derived columns
    are on the copy alone. *)
Theorem caller_table_unchanged (fsum : list float -> float)
    (quantile : list float -> float -> float)
    (h : heap) (l : ref) (param_cols : list string) :
  (firstn (length h) (snd (add_z_scores fsum l h)) = h
   /\ match fst (add_z_scores fsum l h) with
      | Ok l' => length h <= l'
      | Raise _ => True
      end)
  /\ (firstn (length h) (snd (compute_default_score l h)) = h
      /\ match fst (compute_default_score l h) with
         | Ok l' => length h <= l'
         | Raise _ => True
         end)
  /\ firstn (length h) (snd (generate_report fsum quantile l param_cols h)) = h.
Proof.
  assert (Hall : firstn (length h) h = h) by apply firstn_all.
  assert (Hle : length h <= length h) by lia.
  repeat split.
  - rewrite <- Hall at 3. apply (untouched_add_z_scores fsum (length h) l h Hle).
  - apply (fresh_add_z_scores fsum (length h) l h Hle).
  - rewrite <- Hall at 3. apply (untouched_compute_default_score (length h) l h Hle).
  - apply (fresh_compute_default_score (length h) l h Hle).
  - rewrite <- Hall at 3.
    apply (untouched_generate_report fsum quantile (length h) l param_cols h Hle).
Qed.

(** The caller's table after a report of the scenario: as before. *)
Example caller_table_after_report :
  nth_error (snd (generate_report sum_left quantile_lower 0 ["inpPeriod"] [scenario_abc])) 0
  = Some scenario_abc.
Proof. vm_compute. reflexivity. Qed.

(** ** The store computations and their values *)

Lemma load_at (h : heap) (l : ref) (d : DataFrame) :
  nth_error h l = Some d -> load l h = (Ok d, h).
Proof. intros H. unfold load. rewrite H. reflexivity. Qed.

Lemma nth_error_update_same {A : Type} (xs : list A) (i : nat) (x y : A) :
  nth_error xs i = Some y -> nth_error (update xs i x) i = Some x.
Proof.
  intros H. rewrite nth_error_update, Nat.eqb_refl.
  assert (Hi : i < length xs) by (apply nth_error_Some; congruence).
  apply Nat.ltb_lt in Hi. rewrite Hi. reflexivity.
Qed.

Lemma assign_at (h : heap) (l : ref) (d : DataFrame) (c : string) (s : Series) :
  nth_error h l = Some d ->
  assign l c s h = (Ok tt, update h l (df_set d c s)).
Proof.
  intros H. unfold assign, bind. rewrite (load_at h l d H).
  unfold store. rewrite H. reflexivity.
Qed.

Lemma copy_at (h : heap) (l : ref) (d : DataFrame) :
  nth_error h l = Some d -> copy l h = (Ok (length h), h ++ [d]).
Proof. intros H. unfold copy, bind. rewrite (load_at h l d H). reflexivity. Qed.

Lemma nth_error_new {A : Type} (xs : list A) (x : A) :
  nth_error (xs ++ [x]) (length xs) = Some x.
Proof. rewrite nth_error_app2, Nat.sub_diag by lia. reflexivity. Qed.

Section Runs.

Variable fsum : list float -> float.
Variable quantile : list float -> float -> float.

Let z_body (l : ref) : string * (string * string) -> M unit :=
  fun '(key, (col, zcol)) =>
    (d <- load l ;;
     if has_col col d then
       series <- lift (df_col d col) ;;
       z <- lift (zscore fsum series) ;;
       assign l zcol (map CNum z)
     else ret tt)%store.

Lemma z_loop_runs (l : ref) (metrics : list (string * (string * string))) :
  forall (h : heap) (d : DataFrame),
    nth_error h l = Some d ->
    match z_columns fsum metrics d with
    | Ok d' =>
        exists h', for_each metrics (z_body l) h = (Ok tt, h')
                   /\ nth_error h' l = Some d'
    | Raise e => fst (for_each metrics (z_body l) h) = Raise e
    end.
Proof.
  induction metrics as [|[key [col zcol]] rest IH]; intros h d Hl.
  - exists h. split; [reflexivity|exact Hl].
  - cbn [z_columns].
    destruct (has_col col d) eqn:Hc.
    + destruct (df_col d col) as [series|e] eqn:Es; cbn [rbind].
      * destruct (zscore fsum series) as [z|e] eqn:Ez; cbn [rbind].
        -- assert (Hstep : for_each ((key, (col, zcol)) :: rest) (z_body l) h
                           = for_each rest (z_body l)
                               (update h l (df_set d zcol (map CNum z)))).
           { cbn [for_each z_body]. unfold bind at 1 2.
             rewrite (load_at h l d Hl), Hc. unfold bind, lift.
             rewrite Es, Ez, (assign_at h l d _ _ Hl). reflexivity. }
           rewrite Hstep. apply IH. eapply nth_error_update_same; eauto.
        -- cbn [for_each z_body]. unfold bind at 1 2.
           rewrite (load_at h l d Hl), Hc. unfold bind, lift.
           rewrite Es, Ez. reflexivity.
      * cbn [for_each z_body]. unfold bind at 1 2.
        rewrite (load_at h l d Hl), Hc. unfold bind, lift.
        rewrite Es. reflexivity.
    + assert (Hstep : for_each ((key, (col, zcol)) :: rest) (z_body l) h
                      = for_each rest (z_body l) h).
      { cbn [for_each z_body]. unfold bind at 1 2.
        rewrite (load_at h l d Hl), Hc. reflexivity. }
      rewrite Hstep. apply IH, Hl.
Qed.

Lemma add_z_scores_run (h : heap) (l : ref) (d : DataFrame) :
  nth_error h l = Some d ->
  add_z_scores fsum l h =
  match for_each METRIC_DEF (z_body (length h)) (h ++ [d]) with
  | (Ok _, h') => (Ok (length h), h')
  | (Raise e, h') => (Raise e, h')
  end.
Proof.
  intros Hl. unfold add_z_scores. unfold bind at 1.
  rewrite (copy_at h l d Hl). reflexivity.
Qed.

Lemma add_z_scores_builds (h : heap) (l : ref) (d : DataFrame) :
  nth_error h l = Some d ->
  builds (add_z_scores fsum l) h (z_columns fsum METRIC_DEF d).
Proof.
  intros Hl. unfold builds. rewrite (add_z_scores_run h l d Hl).
  pose proof (z_loop_runs (length h) METRIC_DEF (h ++ [d]) d (nth_error_new h d)) as H.
  destruct (z_columns fsum METRIC_DEF d) as [d'|e].
  - destruct H as (h' & E & Hd'). rewrite E.
    exists (length h), h'. split; [reflexivity|exact Hd'].
  - destruct (for_each METRIC_DEF (z_body (length h)) (h ++ [d])) as [[u|e'] h'];
      simpl in *; congruence.
Qed.

Let score_body (l : ref) : list float -> string * float -> M (list float) :=
  fun score '(key, weight) =>
    (m <- lift (match lookup key METRIC_DEF with
                | Some m => Ok m
                | None => Raise KeyError
                end) ;;
     let '(col, zcol) := m in
     d <- load l ;;
     if has_col zcol d then
       z <- lift (df_col d zcol) ;;
       term <- lift (scale weight z) ;;
       ret (add_series score term)
     else ret score)%store.

Lemma score_loop_runs (l : ref) (d : DataFrame) (h : heap)
    (weights : list (string * float)) :
  nth_error h l = Some d ->
  forall score,
    for_fold weights (score_body l) score h = (weighted_sum weights d score, h).
Proof.
  intros Hl. induction weights as [|[key weight] rest IH]; intros score.
  - reflexivity.
  - cbn [for_fold weighted_sum score_body]. unfold bind at 1 2, lift at 1.
    destruct (lookup key METRIC_DEF) as [[col zcol]|]; [|reflexivity].
    unfold bind at 1. rewrite (load_at h l d Hl).
    destruct (has_col zcol d).
    + unfold bind at 1, lift at 1.
      destruct (df_col d zcol) as [z|e]; cbn [rbind]; [|reflexivity].
      unfold bind at 1, lift at 1.
      destruct (scale weight z) as [term|e]; cbn [rbind]; [|reflexivity].
      apply IH.
    + apply IH.
Qed.

Lemma compute_default_score_run (h : heap) (l : ref) (d : DataFrame) :
  nth_error h l = Some d ->
  compute_default_score l h =
  match weighted_sum DEFAULT_WEIGHTS d (repeat 0%float (df_len d)) with
  | Ok score =>
      (Ok (length h),
       update (h ++ [d]) (length h) (df_set d "Score_Weighted" (map CNum score)))
  | Raise e => (Raise e, h ++ [d])
  end.
Proof.
  intros Hl. unfold compute_default_score. unfold bind at 1.
  rewrite (copy_at h l d Hl).
  unfold bind at 1. rewrite (load_at _ _ d (nth_error_new h d)).
  unfold bind at 1.
  change (for_fold DEFAULT_WEIGHTS _ (repeat 0%float (df_len d)) (h ++ [d]))
    with (for_fold DEFAULT_WEIGHTS (score_body (length h))
            (repeat 0%float (df_len d)) (h ++ [d])).
  rewrite (score_loop_runs (length h) d (h ++ [d]) DEFAULT_WEIGHTS (nth_error_new h d)).
  destruct (weighted_sum DEFAULT_WEIGHTS d (repeat 0%float (df_len d))) as [score|e];
    [|reflexivity].
  unfold bind. rewrite (assign_at _ _ d _ _ (nth_error_new h d)). reflexivity.
Qed.

Lemma compute_default_score_builds (h : heap) (l : ref) (d : DataFrame) :
  nth_error h l = Some d ->
  builds (compute_default_score l) h (scored d).
Proof.
  intros Hl. unfold builds, scored. rewrite (compute_default_score_run h l d Hl).
  destruct (weighted_sum DEFAULT_WEIGHTS d (repeat 0%float (df_len d))) as [score|e];
    cbn [rbind]; [|reflexivity].
  do 2 eexists. split; [reflexivity|].
  eapply nth_error_update_same, nth_error_new.
Qed.

Lemma row_filter_run (h : heap) (l : ref) (d : DataFrame) :
  nth_error h l = Some d ->
  row_filter l h =
  if has_col "Trades" d then
    match df_col d "Trades" with
    | Ok s => (Ok (length h), h ++ [df_mask d (trades_mask s)])
    | Raise e => (Raise e, h)
    end
  else (Ok l, h).
Proof.
  intros Hl. unfold row_filter. unfold bind at 1.
  rewrite (load_at h l d Hl).
  destruct (has_col "Trades" d); [|reflexivity].
  unfold bind, lift. destruct (df_col d "Trades"); reflexivity.
Qed.

Lemma row_filter_builds (h : heap) (l : ref) (d : DataFrame) :
  nth_error h l = Some d ->
  builds (row_filter l) h (filtered d).
Proof.
  intros Hl. unfold builds, filtered. rewrite (row_filter_run h l d Hl).
  destruct (has_col "Trades" d).
  - destruct (df_col d "Trades") as [s|e]; cbn [rbind]; [|reflexivity].
    do 2 eexists. split; [reflexivity|apply nth_error_new].
  - eauto.
Qed.

(** A computation that builds a frame, followed by another. *)
Lemma builds_bind {A : Type} (m : M ref) (k : ref -> M A) (h : heap)
    (r : result DataFrame) (g : DataFrame -> result A) :
  builds m h r ->
  (forall l' h' d', nth_error h' l' = Some d' -> fst (k l' h') = g d') ->
  fst (bind m k h) = rbind r g.
Proof.
  intros Hm Hk. unfold bind. destruct r as [d'|e]; simpl in *.
  - destruct Hm as (l' & h' & -> & Hd'). apply Hk, Hd'.
  - destruct (m h) as [[a|e'] h']; simpl in *; congruence.
Qed.

Lemma report_tail_value (l : ref) (h : heap) (d : DataFrame) (param_cols : list string) :
  nth_error h l = Some d ->
  fst ((d <- load l ;;
        pareto_flag <- lift (compute_pareto d) ;;
        assign l "Is_Pareto" (map CBool pareto_flag) ;;
        d <- load l ;;
        let param_count := length param_cols in
        let total_runs := df_len d in
        profit <- lift (fillna (to_numeric (df_get d "Profit" 0)) 0) ;;
        let valid_count := count_true (map (fun p => F.gtb p 0) profit) in
        let pareto_count := count_true pareto_flag in
        param_ranges <- lift (rmap (param_range d) param_cols) ;;
        suggestion_cards <- lift (build_suggestion_cards quantile d param_cols) ;;
        let raw_records := to_records d in
        let metrics_config := metrics_config_of d in
        let table_cols :=
          fold_left (fun acc c =>
                       if has_col c d && negb (existsb (String.eqb c) acc)
                       then acc ++ [c] else acc)
            ["Profit"; "Equity DD %"; "Sharpe Ratio"; "Profit Factor";
             "Recovery Factor"; "Expected Payoff"; "Trades"] param_cols
          ++ ["Score_Weighted"] in
        ret (mkReport raw_records metrics_config table_cols param_count total_runs
               valid_count pareto_count param_ranges suggestion_cards))%store h)
  = report_of_scored quantile d param_cols.
Proof.
  intros Hl. unfold report_of_scored. unfold bind at 1.
  rewrite (load_at h l d Hl). unfold bind at 1, lift at 1.
  destruct (compute_pareto d) as [flags|e]; simpl; [|reflexivity].
  unfold bind at 1. rewrite (assign_at h l d _ _ Hl).
  unfold bind at 1. rewrite (load_at _ _ _ (nth_error_update_same h l _ d Hl)).
  unfold bind at 1, lift at 1.
  destruct (fillna _ _) as [profit|e]; simpl; [|reflexivity].
  unfold bind at 1, lift at 1.
  destruct (rmap _ param_cols) as [ranges|e]; simpl; [|reflexivity].
  unfold bind at 1, lift at 1.
  destruct (build_suggestion_cards _ _ _) as [cards|e]; simpl; reflexivity.
Qed.

(** The report that [generate_report] returns depends on the frame that
    its argument denotes, and is [report_value] of it. *)
Lemma generate_report_value (h : heap) (l : ref) (d : DataFrame)
    (param_cols : list string) :
  nth_error h l = Some d ->
  fst (generate_report fsum quantile l param_cols h)
  = report_value fsum quantile d param_cols.
Proof.
  intros Hl. unfold generate_report, report_value. unfold bind at 1.
  rewrite (copy_at h l d Hl).
  apply builds_bind; [apply row_filter_builds, nth_error_new|].
  intros l1 h1 d1 H1. unfold report_of_filtered.
  apply builds_bind; [apply add_z_scores_builds, H1|].
  intros l2 h2 d2 H2.
  apply builds_bind; [apply compute_default_score_builds, H2|].
  intros l3 h3 d3 H3.
  apply report_tail_value, H3.
Qed.

End Runs.

(** ** Rows of a frame *)

Lemma mask_list_map {A B : Type} (f : A -> B) (xs : list A) (mask : list bool) :
  mask_list (map f xs) mask = map f (mask_list xs mask).
Proof.
  revert mask; induction xs as [|x xs IH]; intros [|[] mask]; simpl; auto.
  rewrite IH. reflexivity.
Qed.

Lemma mask_list_filter {A : Type} (p : A -> bool) (xs : list A) :
  mask_list xs (map p xs) = filter p xs.
Proof.
  induction xs as [|x xs IH]; simpl; [reflexivity|].
  destruct (p x); rewrite IH; reflexivity.
Qed.

Lemma list_as_nth {A : Type} (xs : list A) (d : A) :
  xs = map (fun i => nth i xs d) (seq 0 (length xs)).
Proof.
  apply (nth_ext _ _ d d).
  - rewrite length_map, length_seq. reflexivity.
  - intros k Hk. rewrite nth_map_seq by exact Hk. reflexivity.
Qed.

Lemma nth_map_lt {A B : Type} (f : A -> B) (xs : list A) (k : nat) (a : A) (b : B) :
  k < length xs -> nth k (map f xs) b = f (nth k xs a).
Proof.
  intros H. rewrite (nth_indep _ b (f a)) by (rewrite length_map; exact H).
  apply map_nth.
Qed.

Lemma wf_frame_cols (d : DataFrame) (c : string) (s : Series) :
  wf_frame d = true -> In (c, s) (df_cols d) -> length s = df_len d.
Proof.
  unfold wf_frame. intros H Hin. apply andb_true_iff in H. destruct H as [H _].
  rewrite forallb_forall in H. specialize (H (c, s) Hin).
  apply Nat.eqb_eq in H. exact H.
Qed.

Lemma lookup_In {A : Type} (c : string) (kvs : list (string * A)) (v : A) :
  lookup c kvs = Some v -> In (c, v) kvs.
Proof.
  induction kvs as [|[c' v'] kvs IH]; simpl; [discriminate|].
  destruct (String.eqb_spec c c') as [->|Hne].
  - intros E; injection E as ->. left; reflexivity.
  - intros E. right. apply IH, E.
Qed.

Lemma wf_frame_lookup (d : DataFrame) (c : string) (s : Series) :
  wf_frame d = true -> lookup c (df_cols d) = Some s -> length s = df_len d.
Proof. intros H E. eapply wf_frame_cols; eauto using lookup_In. Qed.

(** Under [wf_frame], masking is taking the positions that the mask keeps. *)
Lemma df_mask_take (d : DataFrame) (mask : list bool) :
  wf_frame d = true ->
  df_mask d mask = df_take d (mask_list (seq 0 (df_len d)) mask).
Proof.
  intros Hwf. unfold df_mask, df_take. f_equal.
  apply map_ext_in. intros [c s] Hin. simpl. f_equal.
  rewrite (list_as_nth s CNone) at 1.
  rewrite (wf_frame_cols d c s Hwf Hin). apply mask_list_map.
Qed.

Lemma df_row_take (d : DataFrame) (positions : list nat) (k : nat) :
  k < length positions ->
  df_row (df_take d positions) k = df_row d (nth k positions 0).
Proof.
  intros Hk. unfold df_row, df_take. simpl. rewrite map_map.
  apply map_ext. intros [c s]. simpl. f_equal.
  apply (nth_map_lt (fun i => nth i s CNone) positions k 0 CNone Hk).
Qed.

Lemma to_records_take (d : DataFrame) (positions : list nat) :
  to_records (df_take d positions) = map (df_row d) positions.
Proof.
  unfold to_records. simpl.
  rewrite (list_as_nth positions 0) at 3. rewrite map_map.
  apply map_ext_in. intros k Hk. apply in_seq in Hk.
  apply df_row_take. lia.
Qed.

Lemma lookup_df_row (d : DataFrame) (c : string) (i : nat) :
  lookup c (df_row d i) =
  match lookup c (df_cols d) with
  | Some s => Some (nth i s CNone)
  | None => None
  end.
Proof.
  unfold df_row. induction (df_cols d) as [|[c' s'] cols IH]; simpl; [reflexivity|].
  destruct (String.eqb c c'); [reflexivity|exact IH].
Qed.

Lemma columns_take (d : DataFrame) (positions : list nat) :
  columns (df_take d positions) = columns d.
Proof.
  unfold columns, df_take. simpl. rewrite map_map. apply map_ext. intros []; reflexivity.
Qed.

Lemma lookup_take (d : DataFrame) (positions : list nat) (c : string) :
  lookup c (df_cols (df_take d positions)) =
  match lookup c (df_cols d) with
  | Some s => Some (map (fun i => nth i s CNone) positions)
  | None => None
  end.
Proof.
  unfold df_take. simpl. induction (df_cols d) as [|[c' s'] cols IH]; simpl; [reflexivity|].
  destruct (String.eqb c c'); [reflexivity|exact IH].
Qed.

Lemma wf_frame_take (d : DataFrame) (positions : list nat) :
  wf_frame d = true -> wf_frame (df_take d positions) = true.
Proof.
  unfold wf_frame. rewrite columns_take. intros H.
  apply andb_true_iff in H. destruct H as [_ H]. rewrite H, andb_true_r.
  unfold df_take. simpl. apply forallb_forall. intros [c s] Hin.
  apply in_map_iff in Hin. destruct Hin as ([c' s'] & E & _).
  injection E as <- <-. simpl. rewrite length_map. apply Nat.eqb_refl.
Qed.

(** ** The Row Filter *)

Lemma trades_mask_records (d : DataFrame) (s : Series) :
  wf_frame d = true -> lookup "Trades" (df_cols d) = Some s ->
  trades_mask s = map (fun row => F.gtb (row_trades row) 0) (to_records d).
Proof.
  intros Hwf Hs. unfold trades_mask, to_numeric_series, to_records.
  rewrite (list_as_nth s CNone) at 1. rewrite (wf_frame_lookup d _ s Hwf Hs).
  rewrite !map_map. apply map_ext. intros i.
  unfold row_trades. rewrite lookup_df_row, Hs. reflexivity.
Qed.

Lemma filtered_records (d : DataFrame) :
  wf_frame d = true -> has_col "Trades" d = true ->
  exists d1,
    filtered d = Ok d1
    /\ wf_frame d1 = true
    /\ to_records d1 = filter (fun row => F.gtb (row_trades row) 0) (to_records d).
Proof.
  intros Hwf Hc. unfold filtered, df_col. rewrite Hc.
  apply has_col_lookup in Hc. destruct Hc as [s Hs]. rewrite Hs. cbn [rbind].
  eexists. split; [reflexivity|].
  rewrite (df_mask_take d _ Hwf). split; [apply wf_frame_take, Hwf|].
  rewrite to_records_take.
  rewrite (trades_mask_records d s Hwf Hs).
  rewrite <- mask_list_map.
  change (map (df_row d) (seq 0 (df_len d))) with (to_records d).
  apply mask_list_filter.
Qed.

Lemma mask_list_all_true {A : Type} (xs : list A) (mask : list bool) :
  (forall b, In b mask -> b = true) -> length mask = length xs ->
  mask_list xs mask = xs.
Proof.
  revert mask; induction xs as [|x xs IH]; intros [|b mask] Hall Hlen; simpl in *;
    try reflexivity; try discriminate.
  rewrite (Hall b) by (left; reflexivity).
  rewrite IH; [reflexivity| |lia]. intros b' Hb'. apply Hall. right. exact Hb'.
Qed.

Lemma df_mask_all_true (d : DataFrame) (mask : list bool) :
  wf_frame d = true -> (forall b, In b mask -> b = true) ->
  length mask = df_len d -> df_mask d mask = d.
Proof.
  intros Hwf Hall Hlen. unfold df_mask.
  rewrite mask_list_all_true by (rewrite ?length_seq; auto).
  rewrite length_seq.
  replace (map (fun cs => (fst cs, mask_list (snd cs) mask)) (df_cols d))
    with (df_cols d); [destruct d; reflexivity|].
  rewrite <- (map_id (df_cols d)) at 1. apply map_ext_in.
  intros [c s] Hin. simpl. rewrite mask_list_all_true; auto.
  rewrite (wf_frame_cols d c s Hwf Hin). exact Hlen.
Qed.

Lemma has_col_take (d : DataFrame) (positions : list nat) (c : string) :
  has_col c (df_take d positions) = has_col c d.
Proof. unfold has_col. rewrite columns_take. reflexivity. Qed.

(** Filtering a filtered frame changes nothing. *)
Lemma filtered_idempotent (d d1 : DataFrame) :
  wf_frame d = true -> filtered d = Ok d1 -> filtered d1 = Ok d1.
Proof.
  intros Hwf. unfold filtered at 1. destruct (has_col "Trades" d) eqn:Hc.
  - unfold df_col. pose proof Hc as Hc'. apply has_col_lookup in Hc'.
    destruct Hc' as [s Hs]. rewrite Hs. cbn [rbind]. intros E. injection E as <-.
    rewrite (df_mask_take d _ Hwf).
    set (ps := mask_list (seq 0 (df_len d)) (trades_mask s)).
    unfold filtered, df_col. rewrite has_col_take, Hc, lookup_take, Hs. cbn [rbind].
    f_equal. apply df_mask_all_true.
    + apply wf_frame_take, Hwf.
    + intros b Hb. unfold trades_mask, to_numeric_series in Hb.
      rewrite !map_map in Hb. apply in_map_iff in Hb.
      destruct Hb as (i & <- & Hi). unfold ps in Hi.
      unfold trades_mask, to_numeric_series in Hi.
      rewrite (list_as_nth s CNone) in Hi at 1.
      rewrite (wf_frame_lookup d _ s Hwf Hs), !map_map, mask_list_filter in Hi.
      apply filter_In in Hi. destruct Hi as [_ Hi]. exact Hi.
    + unfold trades_mask, to_numeric_series. rewrite !length_map. reflexivity.
  - intros E. injection E as <-. unfold filtered. rewrite Hc. reflexivity.
Qed.

Lemma frame_of_builds (prog : ref -> M ref) (d : DataFrame) (r : result DataFrame) :
  builds (prog 0) [d] r -> frame_of prog d = r.
Proof.
  unfold builds, frame_of. destruct r as [d'|e].
  - intros (l' & h' & -> & ->). reflexivity.
  - destruct (prog 0 [d]) as [[l'|e'] h']; simpl; congruence.
Qed.

Lemma frame_of_row_filter (d : DataFrame) : frame_of row_filter d = filtered d.
Proof. apply frame_of_builds, row_filter_builds. reflexivity. Qed.

(** C6. With a [Trades] column the filtered table consists of the rows of
    the input whose numeric trade count (a cell that is not a number counts
    as 0) is above 0, in their order, so each of its rows has a trade count
    above 0; without the column the filtered table is the input. The report
    of a table is the report of its filtered table: the z-scores, the score,
    the Pareto flags and the cards are computed from the filtered rows. *)
Theorem row_filter_keeps_traded_rows (fsum : list float -> float)
    (quantile : list float -> float -> float)
    (d : DataFrame) (param_cols : list string) :
  wf_frame d = true ->
  (has_col "Trades" d = true ->
   exists d1,
     frame_of row_filter d = Ok d1
     /\ to_records d1 = filter (fun row => F.gtb (row_trades row) 0) (to_records d)
     /\ Forall (fun row => F.gtb (row_trades row) 0 = true) (to_records d1))
  /\ (has_col "Trades" d = false -> frame_of row_filter d = Ok d)
  /\ (exists d1,
        frame_of row_filter d = Ok d1
        /\ value_of (fun l => generate_report fsum quantile l param_cols) d
           = value_of (fun l => generate_report fsum quantile l param_cols) d1).
Proof.
  intros Hwf. rewrite frame_of_row_filter. split; [|split].
  - intros Hc. destruct (filtered_records d Hwf Hc) as (d1 & E & _ & Hrec).
    exists d1. split; [exact E|]. split; [exact Hrec|].
    rewrite Hrec. apply Forall_forall. intros row Hrow.
    apply filter_In in Hrow. apply Hrow.
  - intros Hc. unfold filtered. rewrite Hc. reflexivity.
  - assert (Hex : exists d1, filtered d = Ok d1).
    { destruct (has_col "Trades" d) eqn:Hc.
      - destruct (filtered_records d Hwf Hc) as (d1 & E & _). eauto.
      - unfold filtered. rewrite Hc. eauto. }
    destruct Hex as [d1 E]. exists d1. split; [exact E|].
    unfold value_of.
    rewrite (generate_report_value fsum quantile [d] 0 d param_cols eq_refl).
    rewrite (generate_report_value fsum quantile [d1] 0 d1 param_cols eq_refl).
    unfold report_value. rewrite E, (filtered_idempotent d d1 Hwf E). reflexivity.
Qed.

Lemma row_filter_keeps_traded_rows_witness :
  (wf_frame scenario_abc = true /\ has_col "Trades" scenario_abc = true)
  /\ (exists d1,
        frame_of row_filter scenario_abc = Ok d1
        /\ to_records d1
           = filter (fun row => F.gtb (row_trades row) 0) (to_records scenario_abc)
        /\ Forall (fun row => F.gtb (row_trades row) 0 = true) (to_records d1))
  /\ (has_col "Trades" empty_table = false
      /\ frame_of row_filter empty_table = Ok empty_table).
Proof.
  split; [split; reflexivity|]. split.
  - apply (proj1 (row_filter_keeps_traded_rows sum_left quantile_lower
                    scenario_abc ["inpPeriod"] eq_refl)).
    reflexivity.
  - split; [reflexivity|].
    apply (proj1 (proj2 (row_filter_keeps_traded_rows sum_left quantile_lower
                           empty_table [] eq_refl))).
    reflexivity.
Defined.

(** A table whose second row has a trade count that is not a number: the
    filter keeps the first row only. *)
Example row_filter_drops_untraded :
  frame_of row_filter
    (mkDataFrame 2 [("Profit", [CNum 1; CNum 2]); ("Trades", [CNum 3; CStr "n/a"])])
  = Ok (mkDataFrame 1 [("Profit", [CNum 1]); ("Trades", [CNum 3])]).
Proof. vm_compute. reflexivity. Qed.

(** ** The Scorer and the script *)

Lemma fold_left_filter {A S : Type} (f : S -> A -> S) (p : A -> bool) (xs : list A) :
  forall s, fold_left f (filter p xs) s
            = fold_left (fun s x => if p x then f s x else s) xs s.
Proof.
  induction xs as [|x xs IH]; intros s; simpl; [reflexivity|].
  destruct (p x); simpl; apply IH.
Qed.

Lemma fold_left_aligned {A B S : Type} (f : S -> A -> S) (g : S -> B -> S)
    (xs : list A) (ys : list B) :
  Forall2 (fun x y => forall s, f s x = g s y) xs ys ->
  forall s, fold_left f xs s = fold_left g ys s.
Proof.
  induction 1 as [|x y xs ys Hxy _ IH]; intros s; simpl; [reflexivity|].
  rewrite Hxy. apply IH.
Qed.

Lemma lookup_not_in {A : Type} (k : string) (kvs : list (string * A)) :
  ~ In k (map fst kvs) -> lookup k kvs = None.
Proof.
  induction kvs as [|[k' v] kvs IH]; simpl; [reflexivity|]. intros H.
  destruct (String.eqb_spec k k') as [->|Hne]; [exfalso; auto|]. apply IH. auto.
Qed.

Lemma lookup_filter {A : Type} (p : string * A -> bool) (k : string)
    (kvs : list (string * A)) :
  NoDup (map fst kvs) ->
  lookup k (filter p kvs) =
  match lookup k kvs with
  | Some v => if p (k, v) then Some v else None
  | None => None
  end.
Proof.
  induction kvs as [|[k' v] kvs IH]; simpl; [reflexivity|]. intros Hnd.
  inversion Hnd as [|? ? Hni Hnd']; subst.
  destruct (String.eqb_spec k k') as [->|Hne].
  - destruct (p (k', v)) eqn:E; simpl.
    + rewrite String.eqb_refl. reflexivity.
    + apply lookup_not_in. intros Hin. apply Hni.
      apply in_map_iff in Hin. destruct Hin as ([k2 v2] & <- & Hin).
      apply filter_In in Hin. apply in_map_iff. exists (k2, v2). tauto.
  - destruct (p (k', v)); simpl.
    + destruct (String.eqb_spec k k'); [contradiction|]. apply IH, Hnd'.
    + apply IH, Hnd'.
Qed.

Lemma lookup_read_weights (inputs weights : list (string * float)) (k : string) :
  lookup k (read_weights inputs weights) =
  match lookup k weights with
  | Some w => Some (match lookup k inputs with
                    | Some v => if isnan v then 0%float else v
                    | None => w
                    end)
  | None => None
  end.
Proof.
  unfold read_weights. induction weights as [|[k' w] ws IH]; simpl; [reflexivity|].
  destruct (String.eqb_spec k k') as [->|Hne].
  - destruct (lookup k' inputs); simpl; rewrite String.eqb_refl; reflexivity.
  - destruct (lookup k' inputs); simpl;
      (destruct (String.eqb_spec k k'); [contradiction|]); exact IH.
Qed.

Lemma lookup_initWeightInputs (weights : list (string * float))
    (cfg : list (string * (string * string))) (k : string) :
  lookup k (initWeightInputs weights cfg) =
  match lookup k weights with
  | Some w => Some (match lookup k cfg with Some _ => w | None => 0%float end)
  | None => None
  end.
Proof.
  unfold initWeightInputs. induction weights as [|[k' w] ws IH]; simpl; [reflexivity|].
  destruct (String.eqb_spec k k') as [->|Hne].
  - destruct (lookup k' cfg); simpl; rewrite String.eqb_refl; reflexivity.
  - destruct (lookup k' cfg); simpl;
      (destruct (String.eqb_spec k k'); [contradiction|]); exact IH.
Qed.

Lemma lookup_set_col (c c' : string) (s : Series) (cols : list (string * Series)) :
  lookup c (set_col c' s cols) = if String.eqb c c' then Some s else lookup c cols.
Proof.
  induction cols as [|[c2 s2] cols IH]; simpl.
  - destruct (String.eqb c c'); reflexivity.
  - destruct (String.eqb_spec c' c2) as [->|Hne]; simpl.
    + destruct (String.eqb c c2); reflexivity.
    + destruct (String.eqb_spec c c2) as [->|Hne2].
      * destruct (String.eqb_spec c2 c'); [congruence|reflexivity].
      * exact IH.
Qed.

Lemma lookup_df_set (d : DataFrame) (c c' : string) (s : Series) :
  lookup c (df_cols (df_set d c' s)) =
  if String.eqb c c' then Some s else lookup c (df_cols d).
Proof. unfold df_set. cbn [df_cols]. apply lookup_set_col. Qed.

Lemma has_col_set_other (c c' : string) (s : Series) (d : DataFrame) :
  String.eqb c c' = false -> has_col c (df_set d c' s) = has_col c d.
Proof.
  intros Hne.
  destruct (has_col c d) eqn:E.
  - apply has_col_lookup in E. destruct E as [s0 E]. apply has_col_lookup.
    exists s0. unfold df_set. simpl. rewrite lookup_set_col, Hne. exact E.
  - apply has_col_false in E. apply has_col_false.
    unfold df_set. simpl. rewrite lookup_set_col, Hne. exact E.
Qed.

Lemma scale_numeric (w : float) (s : Series) :
  forallb cell_is_float s = true ->
  scale w s = Ok (map (fun c => (w * to_numeric_cell c)%float) s).
Proof.
  intros H. unfold scale. destruct (float_column s); [reflexivity|].
  induction s as [|c s IH]; simpl; [reflexivity|].
  simpl in H. apply andb_true_iff in H. destruct H as [Hc Hs].
  rewrite (IH Hs). destruct c; simpl in *; try discriminate. reflexivity.
Qed.

Lemma add_series_length (a b : list float) :
  length a = length b -> length (add_series a b) = length a.
Proof.
  revert b; induction a as [|x a IH]; intros [|y b] H; simpl in *; try discriminate; auto.
Qed.

Lemma nth_add_series (a b : list float) (i : nat) (da db : float) :
  length a = length b -> i < length a ->
  nth i (add_series a b) da = (nth i a da + nth i b db)%float.
Proof.
  revert b i; induction a as [|x a IH]; intros [|y b] i H Hi; simpl in *;
    try discriminate; try lia.
  destruct i; [reflexivity|]. apply IH; lia.
Qed.

Lemma z_values_float_lookup (d : DataFrame) (key col zcol : string) (s : Series) :
  z_values_float d = true ->
  lookup key METRIC_DEF = Some (col, zcol) ->
  lookup zcol (df_cols d) = Some s ->
  forallb cell_is_float s = true.
Proof.
  unfold z_values_float. intros H Hk Hs. rewrite forallb_forall in H.
  specialize (H (key, (col, zcol)) (lookup_In _ _ _ Hk)). simpl in H.
  rewrite Hs in H. exact H.
Qed.

Lemma weighted_sum_rows (d : DataFrame) :
  wf_frame d = true -> z_values_float d = true ->
  forall weights score,
    length score = df_len d ->
    Forall (fun kw => lookup (fst kw) METRIC_DEF <> None) weights ->
    exists score',
      weighted_sum weights d score = Ok score'
      /\ length score' = df_len d
      /\ forall i, i < df_len d ->
           nth i score' 0%float = fold_left (score_term d i) weights (nth i score 0%float).
Proof.
  intros Hwf Hnum. induction weights as [|[key w] rest IH]; intros score Hlen Hkeys.
  - exists score. repeat split; auto.
  - inversion Hkeys as [|? ? Hk Hrest]; subst. cbn [fst] in Hk. cbn [weighted_sum].
    destruct (lookup key METRIC_DEF) as [[col zcol]|] eqn:Ek; [|congruence].
    destruct (has_col zcol d) eqn:Hc.
    + apply has_col_lookup in Hc. destruct Hc as [s Hs].
      unfold df_col. rewrite Hs. cbn [rbind].
      rewrite (scale_numeric w s (z_values_float_lookup d _ _ _ s Hnum Ek Hs)).
      cbn [rbind].
      assert (Hls : length s = df_len d) by (eapply wf_frame_lookup; eauto).
      destruct (IH (add_series score (map (fun c => (w * to_numeric_cell c)%float) s)))
        as (score' & E & Hlen' & Hnth); [|exact Hrest|].
      { rewrite add_series_length by (rewrite length_map; congruence). exact Hlen. }
      exists score'. split; [exact E|]. split; [exact Hlen'|].
      intros i Hi. rewrite (Hnth i Hi). cbn [fold_left]. f_equal.
      unfold score_term. cbn [fst snd]. rewrite Ek, Hs.
      rewrite (nth_add_series _ _ i 0%float (w * to_numeric_cell CNone)%float)
        by (rewrite ?length_map; lia).
      rewrite (map_nth (fun c => (w * to_numeric_cell c)%float)). reflexivity.
    + apply has_col_false in Hc.
      destruct (IH score Hlen Hrest) as (score' & E & Hlen' & Hnth).
      exists score'. split; [exact E|]. split; [exact Hlen'|].
      intros i Hi. rewrite (Hnth i Hi). cbn [fold_left]. f_equal.
      unfold score_term. cbn [fst snd]. rewrite Ek, Hc. reflexivity.
Qed.

Lemma METRIC_DEF_keys : NoDup (map fst METRIC_DEF).
Proof.
  simpl. repeat constructor; simpl; intuition discriminate.
Qed.

Lemma script_weight (cfg : list (string * (string * string))) (key : string) (w : float) :
  lookup key DEFAULT_WEIGHTS = Some w ->
  isnan w = false -> (w =? 0)%float = false ->
  lookup key cfg <> None ->
  weight_or_zero (read_weights (initWeightInputs DEFAULT_WEIGHTS cfg) DEFAULT_WEIGHTS) key
  = w.
Proof.
  intros Hw Hnan Hz Hcfg. unfold weight_or_zero.
  rewrite lookup_read_weights, lookup_initWeightInputs, Hw.
  destruct (lookup key cfg); [|congruence].
  rewrite Hnan, Hnan, Hz. reflexivity.
Qed.

Section ScriptFacts.

Variable StringToNumber : string -> float.

Lemma term_agree (d : DataFrame) (score : Series) (i : nat)
    (key col zcol : string) (w : float) :
  wf_frame d = true -> z_values_float d = true -> z_columns_derived d = true ->
  i < df_len d -> row_defined d i = true ->
  lookup key METRIC_DEF = Some (col, zcol) ->
  lookup key DEFAULT_WEIGHTS = Some w ->
  isnan w = false -> (w =? 0)%float = false ->
  String.eqb col "Score_Weighted" = false ->
  String.eqb zcol "Score_Weighted" = false ->
  forall acc,
    score_term d i acc (key, w) =
    if has_col col (df_set d "Score_Weighted" score)
       && has_col zcol (df_set d "Score_Weighted" score)
    then
      let z := Number StringToNumber
                 (js_member (df_row (df_set d "Score_Weighted" score) i) zcol) in
      if negb (isnan z)
      then (acc + weight_or_zero
                    (read_weights
                       (initWeightInputs DEFAULT_WEIGHTS
                          (metrics_config_of (df_set d "Score_Weighted" score)))
                       DEFAULT_WEIGHTS) key * z)%float
      else acc
    else acc.
Proof.
  intros Hwf Hnum Hder Hi Hdef Hk Hw Hnan Hz Hc Hzc acc.
  unfold score_term. cbn [fst snd]. rewrite Hk.
  rewrite !has_col_set_other by assumption.
  destruct (has_col zcol d) eqn:Hhas.
  - assert (Hcol : has_col col d = true).
    { unfold z_columns_derived in Hder. rewrite forallb_forall in Hder.
      specialize (Hder (key, (col, zcol)) (lookup_In _ _ _ Hk)). simpl in Hder.
      rewrite Hhas in Hder. exact Hder. }
    rewrite Hcol. cbn [andb].
    pose proof Hhas as Hs. apply has_col_lookup in Hs. destruct Hs as [s Hs].
    rewrite Hs.
    unfold js_member. rewrite lookup_df_row, lookup_df_set, Hzc, Hs.
    assert (Hcell : cell_is_float (nth i s CNone) = true).
    { pose proof (z_values_float_lookup d _ _ _ s Hnum Hk Hs) as Hall.
      rewrite forallb_forall in Hall. apply Hall, nth_In.
      rewrite (wf_frame_lookup d zcol s Hwf Hs). exact Hi. }
    assert (Hx : negb (isnan (to_numeric_cell (nth i s CNone))) = true).
    { unfold row_defined in Hdef. rewrite forallb_forall in Hdef.
      specialize (Hdef (key, (col, zcol)) (lookup_In _ _ _ Hk)). cbn [snd] in Hdef.
      rewrite Hs in Hdef. exact Hdef. }
    destruct (nth i s CNone) as [x| | |]; simpl in Hcell; try discriminate.
    cbn [js_of_cell Number to_numeric_cell] in *. rewrite Hx.
    rewrite (script_weight _ key w Hw Hnan Hz); [reflexivity|].
    unfold metrics_config_of. rewrite (lookup_filter _ _ _ METRIC_DEF_keys), Hk.
    cbn [fst snd]. rewrite !has_col_set_other by assumption.
    rewrite Hcol, Hhas. discriminate.
  - rewrite andb_false_r. apply has_col_false in Hhas. rewrite Hhas. reflexivity.
Qed.

Lemma script_scores_row (d : DataFrame) (i : nat) :
  i < df_len d ->
  nth i (script_scores StringToNumber d) 0%float =
  row_score StringToNumber
    (read_weights (initWeightInputs DEFAULT_WEIGHTS (metrics_config_of d)) DEFAULT_WEIGHTS)
    (metrics_config_of d) (df_row d i).
Proof.
  intros Hi. unfold script_scores, recomputeScores, to_records. cbn [snd].
  rewrite map_map.
  apply (nth_map_seq (fun k => row_score StringToNumber _ _ (df_row d k))), Hi.
Qed.

(** The Python scores, and the rows on which the script agrees with them. *)
Lemma scored_rows_agree (d : DataFrame) :
  wf_frame d = true -> z_columns_derived d = true -> z_values_float d = true ->
  exists d' scores,
    scored d = Ok d'
    /\ df_col d' "Score_Weighted" = Ok (map CNum scores)
    /\ length scores = df_len d
    /\ (forall i, i < df_len d ->
          nth i scores 0%float = fold_left (score_term d i) DEFAULT_WEIGHTS 0%float)
    /\ (forall i, i < df_len d -> row_defined d i = true ->
          nth i scores 0%float = nth i (script_scores StringToNumber d') 0%float).
Proof.
  intros Hwf Hder Hnum. unfold scored.
  destruct (weighted_sum_rows d Hwf Hnum DEFAULT_WEIGHTS (repeat 0%float (df_len d)))
    as (score & E & Hlen & Hnth).
  { apply repeat_length. }
  { repeat constructor; simpl; discriminate. }
  assert (Hrow : forall i, i < df_len d ->
            nth i score 0%float = fold_left (score_term d i) DEFAULT_WEIGHTS 0%float).
  { intros i Hi. rewrite (Hnth i Hi), nth_repeat. reflexivity. }
  rewrite E. cbn [rbind]. exists (df_set d "Score_Weighted" (map CNum score)), score.
  split; [reflexivity|].
  split; [unfold df_col; rewrite lookup_df_set, String.eqb_refl; reflexivity|].
  split; [exact Hlen|]. split; [exact Hrow|].
  intros i Hi Hdef. rewrite (Hrow i Hi), script_scores_row by exact Hi.
  unfold row_score, metrics_config_of at 2. rewrite fold_left_filter.
  apply fold_left_aligned.
  match goal with
  | |- Forall2 ?R DEFAULT_WEIGHTS METRIC_DEF =>
      let ws := eval unfold DEFAULT_WEIGHTS in DEFAULT_WEIGHTS in
      let ms := eval unfold METRIC_DEF in METRIC_DEF in
      change (Forall2 R ws ms)
  end.
  repeat (apply Forall2_cons; [intros acc; cbn [fst snd];
    apply (term_agree d (map CNum score) i); auto; reflexivity|]).
  apply Forall2_nil.
Qed.

End ScriptFacts.

(** *** An undefined z-value makes the Python score undefined *)

Lemma isnan_spec (x : float) : isnan x = true <-> Prim2SF x = S754_nan.
Proof.
  rewrite isnan_place. unfold F.fplace.
  destruct (Prim2SF x) as [[]|[]| |[] m e]; simpl; split; congruence.
Qed.

Lemma add_nan_l (x y : float) : isnan x = true -> isnan (x + y) = true.
Proof.
  rewrite !isnan_spec, FloatAxioms.add_spec. intros ->. reflexivity.
Qed.

Lemma add_nan_r (x y : float) : isnan y = true -> isnan (x + y) = true.
Proof.
  rewrite !isnan_spec, FloatAxioms.add_spec. intros ->.
  destruct (Prim2SF x) as [[]|[]| |[] m e]; reflexivity.
Qed.

Lemma mul_nan_r (x y : float) : isnan y = true -> isnan (x * y) = true.
Proof.
  rewrite !isnan_spec, FloatAxioms.mul_spec. intros ->.
  destruct (Prim2SF x) as [[]|[]| |[] m e]; reflexivity.
Qed.

Lemma score_term_keeps_nan (d : DataFrame) (i : nat) (acc : float) (kw : string * float) :
  isnan acc = true -> isnan (score_term d i acc kw) = true.
Proof.
  intros H. unfold score_term.
  destruct (lookup (fst kw) METRIC_DEF) as [[col zcol]|]; [|exact H].
  destruct (lookup zcol (df_cols d)); [apply add_nan_l, H|exact H].
Qed.

Lemma fold_score_keeps_nan (d : DataFrame) (i : nat) (weights : list (string * float)) :
  forall acc, isnan acc = true ->
              isnan (fold_left (score_term d i) weights acc) = true.
Proof.
  induction weights as [|kw rest IH]; intros acc H; simpl; [exact H|].
  apply IH, score_term_keeps_nan, H.
Qed.

Lemma fold_score_nan (d : DataFrame) (i : nat) (weights : list (string * float)) :
  existsb (undefined_term d i) weights = true ->
  forall acc, isnan (fold_left (score_term d i) weights acc) = true.
Proof.
  induction weights as [|kw rest IH]; intros H acc; simpl in *; [discriminate|].
  destruct (undefined_term d i kw) eqn:E.
  - apply fold_score_keeps_nan. unfold undefined_term in E. unfold score_term.
    destruct (lookup (fst kw) METRIC_DEF) as [[col zcol]|]; [|discriminate].
    destruct (lookup zcol (df_cols d)); [|discriminate].
    apply add_nan_r, mul_nan_r, E.
  - apply IH, H.
Qed.

Lemma row_undefined_term (d : DataFrame) (i : nat) :
  row_defined d i = false -> existsb (undefined_term d i) DEFAULT_WEIGHTS = true.
Proof.
  unfold row_defined, undefined_term, METRIC_DEF, DEFAULT_WEIGHTS.
  cbn [forallb existsb fst snd lookup String.eqb Ascii.eqb Bool.eqb].
  intros H.
  repeat match goal with
         | |- context [lookup ?c (df_cols d)] =>
             destruct (lookup c (df_cols d)); cbn [negb andb orb] in *
         | |- context [isnan ?x] => destruct (isnan x); cbn [negb andb orb] in *
         end; try reflexivity; try discriminate.
Qed.

Lemma frame_of_compute_default_score (d : DataFrame) :
  frame_of compute_default_score d = scored d.
Proof. apply frame_of_builds, compute_default_score_builds. reflexivity. Qed.

(** C2, amended. On a table whose z columns hold the floats that [zscore]
    gives, each next to its source column, [compute_default_score] writes a
    column [Score_Weighted] with one score per row; on every row without an
    undefined (NaN) z-value this score is the one that the script computes
    with the default weights from the same z-values (the same sums of the
    same products in the same order), and on a row with an undefined z-value
    the Python score is NaN. *)
Theorem scores_agree_without_missing_z (StringToNumber : string -> float)
    (d : DataFrame) :
  wf_frame d = true -> z_columns_derived d = true -> z_values_float d = true ->
  exists d' scores,
    frame_of compute_default_score d = Ok d'
    /\ df_col d' "Score_Weighted" = Ok (map CNum scores)
    /\ length scores = df_len d
    /\ (forall i, i < df_len d -> row_defined d i = true ->
          nth i scores 0%float = nth i (script_scores StringToNumber d') 0%float)
    /\ (forall i, i < df_len d -> row_defined d i = false ->
          isnan (nth i scores 0%float) = true).
Proof.
  intros Hwf Hder Hnum. rewrite frame_of_compute_default_score.
  destruct (scored_rows_agree StringToNumber d Hwf Hder Hnum)
    as (d' & scores & E & Hcol & Hlen & Hrow & Hagree).
  exists d', scores. repeat split; auto.
  intros i Hi Hundef. rewrite (Hrow i Hi).
  apply fold_score_nan, row_undefined_term, Hundef.
Qed.

Lemma scores_agree_without_missing_z_witness :
  (wf_frame gap_table_z = true
   /\ z_columns_derived gap_table_z = true
   /\ z_values_float gap_table_z = true)
  /\ exists d' scores,
       frame_of compute_default_score gap_table_z = Ok d'
       /\ df_col d' "Score_Weighted" = Ok (map CNum scores)
       /\ length scores = df_len gap_table_z
       /\ (forall i, i < df_len gap_table_z -> row_defined gap_table_z i = true ->
             nth i scores 0%float = nth i (script_scores (fun _ => nan) d') 0%float)
       /\ (forall i, i < df_len gap_table_z -> row_defined gap_table_z i = false ->
             isnan (nth i scores 0%float) = true).
Proof.
  split; [repeat split; reflexivity|].
  apply (scores_agree_without_missing_z (fun _ => nan) gap_table_z); reflexivity.
Defined.

(** C2 as stated fails where a z-value is undefined: the third row of
    [gap_table] has no profit, its z-value is NaN, the Python score of the
    row is NaN and the script, which skips the term, gives it 0. *)
Lemma scores_diverge_on_missing_z :
  frame_of (add_z_scores sum_left) gap_table = Ok gap_table_z
  /\ exists d',
       frame_of compute_default_score gap_table_z = Ok d'
       /\ df_col d' "Score_Weighted"
          <> Ok (map CNum (script_scores (fun _ => nan) d')).
Proof.
  split; [vm_compute; reflexivity|].
  eexists. split; [vm_compute; reflexivity|].
  intros H.
  apply (f_equal (fun r => match r with
                           | Ok [_; _; CNum x] => isnan x
                           | _ => false
                           end)) in H.
  vm_compute in H. discriminate.
Qed.

(** ** Sorting by score *)

Lemma comes_before_trans (a b c : float) :
  comes_before a b = true -> comes_before b c = true -> comes_before a c = true.
Proof.
  unfold comes_before, F.geb. intros Hab Hbc.
  destruct (isnan c) eqn:Ec; [reflexivity|].
  destruct (isnan b) eqn:Eb; [discriminate|].
  destruct (isnan a) eqn:Ea; [discriminate|].
  eapply fleb_trans; eauto.
Qed.

Lemma comes_before_total (a b : float) :
  comes_before a b = false -> comes_before b a = true.
Proof.
  unfold comes_before, F.geb. intros Hab.
  destruct (isnan b) eqn:Eb; [discriminate|].
  destruct (isnan a) eqn:Ea; [reflexivity|].
  destruct (fleb_total b a Eb Ea) as [H|H]; [congruence|].
  apply fltb_leb, H.
Qed.

Section ArgSort.

Variable keys : list float.

Let before (i j : nat) : Prop := comes_before (iloc keys i) (iloc keys j) = true.

Lemma insert_desc_perm (i : nat) (l : list nat) :
  Permutation (insert_desc keys i l) (i :: l).
Proof.
  induction l as [|j l IH]; simpl; [reflexivity|].
  destruct (comes_before _ _); [reflexivity|].
  rewrite IH. apply perm_swap.
Qed.

Lemma insert_desc_sorted (i : nat) (l : list nat) :
  StronglySorted before l -> StronglySorted before (insert_desc keys i l).
Proof.
  induction l as [|j l IH]; intros Hs; simpl.
  - repeat constructor.
  - inversion Hs as [|? ? Hsl Hall]; subst.
    destruct (comes_before (iloc keys i) (iloc keys j)) eqn:E.
    + constructor; [exact Hs|]. constructor; [exact E|].
      rewrite Forall_forall in *. intros x Hx.
      eapply comes_before_trans; [exact E|apply Hall, Hx].
    + constructor; [apply IH, Hsl|].
      rewrite Forall_forall in *. intros x Hx.
      apply (Permutation_in _ (insert_desc_perm i l)) in Hx.
      destruct Hx as [<-|Hx]; [apply comes_before_total, E|apply Hall, Hx].
Qed.

Lemma argsort_desc_perm : Permutation (argsort_desc keys) (seq 0 (length keys)).
Proof.
  unfold argsort_desc. induction (seq 0 (length keys)) as [|i l IH]; simpl.
  - reflexivity.
  - rewrite insert_desc_perm. constructor. exact IH.
Qed.

Lemma argsort_desc_sorted : StronglySorted before (argsort_desc keys).
Proof.
  unfold argsort_desc. induction (seq 0 (length keys)) as [|i l IH]; simpl.
  - constructor.
  - apply insert_desc_sorted, IH.
Qed.

End ArgSort.

Lemma StronglySorted_impl {A : Type} (R R' : A -> A -> Prop) (P : A -> Prop)
    (l : list A) :
  (forall x y, P x -> P y -> R x y -> R' x y) ->
  Forall P l -> StronglySorted R l -> StronglySorted R' l.
Proof.
  intros Himp HP Hs. induction Hs as [|a l Hs IH Hall]; constructor.
  - apply IH. inversion HP; assumption.
  - inversion HP as [|? ? Pa Pl]; subst.
    rewrite Forall_forall in *. intros x Hx. apply Himp; auto.
Qed.

Lemma iloc_numeric (s : Series) (i : nat) :
  i < length s -> iloc (to_numeric_series s) i = to_numeric_cell (nth i s CNone).
Proof.
  intros H. unfold iloc, to_numeric_series.
  apply (nth_map_lt to_numeric_cell s i CNone 0%float H).
Qed.

Lemma lookup_head (d : DataFrame) (n : nat) (c : string) :
  lookup c (df_cols (df_head d n)) =
  match lookup c (df_cols d) with
  | Some s => Some (firstn n s)
  | None => None
  end.
Proof.
  unfold df_head. simpl. induction (df_cols d) as [|[c' s'] cols IH]; simpl; [reflexivity|].
  destruct (String.eqb c c'); [reflexivity|exact IH].
Qed.

(** ** The Stable Range card *)

Section StableRange.

Variable quantile : list float -> float -> float.

Lemma range_lines_top (d : DataFrame) (order : list nat) (n : nat)
    (param_cols : list string) :
  (forall p, In p param_cols -> has_col p d = true) ->
  range_lines quantile (df_head (df_take d order) n) param_cols
  = Ok (flat_map (stable_interval quantile d (firstn n order)) param_cols).
Proof.
  induction param_cols as [|p rest IH]; intros Hp; [reflexivity|].
  cbn [range_lines flat_map].
  assert (Hhas : has_col p d = true) by (apply Hp; left; reflexivity).
  apply has_col_lookup in Hhas. destruct Hhas as [s Hs].
  unfold df_col. rewrite lookup_head, lookup_take, Hs. cbn [rbind].
  rewrite IH by (intros q Hq; apply Hp; right; exact Hq).
  unfold stable_interval, numeric_at. rewrite Hs.
  unfold to_numeric_series. rewrite firstn_map, map_map.
  destruct (dropna (map (fun i => to_numeric_cell (nth i s CNone)) (firstn n order)))
    as [|v vals]; reflexivity.
Qed.

(** C8. The Stable Range card is built from the first max(10, n / 5) rows
    (all rows when there are fewer) of the table ordered by descending
    default score, undefined scores last; each parameter column with a
    numeric value among those rows contributes the interval from the 25th to
    the 75th percentile of its numeric values there, the others contribute
    nothing, and without any interval the card carries the fallback
    message. It is the fourth card of [build_suggestion_cards]. *)
Theorem stable_range_card_from_top_rows (d : DataFrame) (param_cols : list string) :
  wf_frame d = true ->
  has_col "Score_Weighted" d = true ->
  (forall p, In p param_cols -> has_col p d = true) ->
  exists order,
    Permutation order (seq 0 (df_len d))
    /\ StronglySorted (fun i j => comes_before (score_of d i) (score_of d j) = true) order
    /\ length (firstn (Nat.max 10 (df_len d / 5)) order)
       = Nat.min (Nat.max 10 (df_len d / 5)) (df_len d)
    /\ stable_range_card quantile d param_cols
       = Ok (mkCard StableRangeTitle
               match flat_map (stable_interval quantile d
                                 (firstn (Nat.max 10 (df_len d / 5)) order)) param_cols with
               | [] => NoRangeBody
               | lines => RangeBody lines
               end)
    /\ (forall cards,
          0 < df_len d -> build_suggestion_cards quantile d param_cols = Ok cards ->
          exists card1 card2 card3 card4,
            cards = [card1; card2; card3; card4]
            /\ stable_range_card quantile d param_cols = Ok card4).
Proof.
  intros Hwf Hscore Hp.
  apply has_col_lookup in Hscore. destruct Hscore as [s Hs].
  assert (Hlen : length s = df_len d) by (eapply wf_frame_lookup; eauto).
  exists (argsort_desc (to_numeric_series s)).
  assert (Hperm : Permutation (argsort_desc (to_numeric_series s)) (seq 0 (df_len d))).
  { rewrite <- Hlen. pose proof (argsort_desc_perm (to_numeric_series s)) as H.
    unfold to_numeric_series in H at 2. rewrite length_map in H. exact H. }
  split; [exact Hperm|]. split; [|split; [|split]].
  - apply (StronglySorted_impl
             (fun i j => comes_before (iloc (to_numeric_series s) i)
                                      (iloc (to_numeric_series s) j) = true)
             _ (fun i => i < length s)).
    + intros i j Hi Hj H. unfold score_of, numeric_at. rewrite Hs.
      rewrite <- !iloc_numeric by assumption. exact H.
    + apply Forall_forall. intros i Hi.
      apply (Permutation_in _ Hperm), in_seq in Hi. lia.
    + apply argsort_desc_sorted.
  - rewrite length_firstn, (Permutation_length Hperm), length_seq. reflexivity.
  - unfold stable_range_card, sort_values_desc, df_col. rewrite Hs. cbn [rbind].
    rewrite range_lines_top by exact Hp. cbn [rbind].
    destruct (flat_map _ param_cols); reflexivity.
  - intros cards Hn. unfold build_suggestion_cards.
    destruct (Nat.eqb_spec (df_len d) 0) as [E|_]; [lia|].
    destruct (fillna (to_numeric (df_get d "Profit" 0)) 0) as [profit|]; [|discriminate].
    destruct (fillna (to_numeric (df_get d "Sharpe Ratio" 0)) 0) as [sharpe|];
      [|discriminate].
    destruct (fillna (to_numeric (df_get d "Equity DD %" 0)) 0) as [dd|]; [|discriminate].
    destruct (fillna (to_numeric (df_get d "Trades" 0)) 0) as [trades|]; [|discriminate].
    cbn [rbind].
    destruct (idxbest F.gtb profit _) as [i_aggr|]; [|discriminate]. cbn [rbind].
    destruct (strategy_card AggressiveTitle _ _) as [card1|]; [|discriminate].
    cbn [rbind].
    destruct (sort_values_desc d "Score_Weighted") as [sorted_df|]; [|discriminate].
    cbn [rbind].
    destruct (strategy_card BalancedTitle _ _) as [card2|]; [|discriminate].
    cbn [rbind].
    destruct (idxbest PrimFloat.ltb dd _) as [i_cons|]; [|discriminate]. cbn [rbind].
    destruct (strategy_card ConservativeTitle _ _) as [card3|]; [|discriminate].
    cbn [rbind].
    destruct (stable_range_card quantile d param_cols) as [card4|]; [|discriminate].
    cbn [rbind]. intros E. injection E as <-.
    exists card1, card2, card3, card4. split; reflexivity.
Qed.

End StableRange.

Lemma stable_range_card_from_top_rows_witness :
  (wf_frame twelve_rows = true
   /\ has_col "Score_Weighted" twelve_rows = true
   /\ forall p, In p ["inpPeriod"] -> has_col p twelve_rows = true)
  /\ exists order,
       Permutation order (seq 0 (df_len twelve_rows))
       /\ StronglySorted
            (fun i j => comes_before (score_of twelve_rows i) (score_of twelve_rows j) = true)
            order
       /\ length (firstn (Nat.max 10 (df_len twelve_rows / 5)) order)
          = Nat.min (Nat.max 10 (df_len twelve_rows / 5)) (df_len twelve_rows)
       /\ stable_range_card quantile_lower twelve_rows ["inpPeriod"]
          = Ok (mkCard StableRangeTitle
                  match flat_map (stable_interval quantile_lower twelve_rows
                                    (firstn (Nat.max 10 (df_len twelve_rows / 5)) order))
                          ["inpPeriod"] with
                  | [] => NoRangeBody
                  | lines => RangeBody lines
                  end)
       /\ (forall cards,
             0 < df_len twelve_rows ->
             build_suggestion_cards quantile_lower twelve_rows ["inpPeriod"] = Ok cards ->
             exists card1 card2 card3 card4,
               cards = [card1; card2; card3; card4]
               /\ stable_range_card quantile_lower twelve_rows ["inpPeriod"] = Ok card4).
Proof.
  assert (Hp : forall p, In p ["inpPeriod"] -> has_col p twelve_rows = true).
  { intros p [<-|[]]. reflexivity. }
  split; [split; [reflexivity|split; [reflexivity|exact Hp]]|].
  apply (stable_range_card_from_top_rows quantile_lower twelve_rows ["inpPeriod"]);
    [reflexivity|reflexivity|exact Hp].
Defined.

(** Of twelve rows the card uses the ten with the best scores: the rows
    with periods 3 to 12. *)
Example stable_range_of_twelve_rows :
  stable_range_card quantile_lower twelve_rows ["inpPeriod"]
  = Ok (mkCard StableRangeTitle (RangeBody [("Period", 5%float, 12%float)])).
Proof. vm_compute. reflexivity. Qed.

(** ** Absent columns and empty tables *)

Lemma fillna_absent (d : DataFrame) (c : string) :
  has_col c d = false ->
  fillna (to_numeric (df_get d c 0)) 0 = Raise AttributeError.
Proof.
  intros H. apply has_col_false in H. unfold df_get. rewrite H. reflexivity.
Qed.

(** A table with rows and without a [Profit] column stops the classifier. *)
Lemma compute_pareto_absent_profit (d : DataFrame) :
  df_len d <> 0 -> has_col "Profit" d = false ->
  compute_pareto d = Raise AttributeError.
Proof.
  intros Hn Hc. unfold compute_pareto.
  destruct (Nat.eqb_spec (df_len d) 0) as [E|_]; [contradiction|].
  rewrite (fillna_absent d _ Hc). reflexivity.
Qed.

Lemma fillna_present (d : DataFrame) (c : string) :
  has_col c d = true -> exists xs, fillna (to_numeric (df_get d c 0)) 0 = Ok xs.
Proof.
  intros H. apply has_col_lookup in H. destruct H as [s H].
  unfold df_get. rewrite H. simpl. eauto.
Qed.

(** The four coercions at the head of [build_suggestion_cards] (three of
    them also at the head of [compute_pareto]): one absent column raises. *)
Ltac coerce_columns :=
  repeat match goal with
         | |- context [fillna (to_numeric (df_get ?d ?c 0)) 0] =>
             let E := fresh "E" in
             destruct (has_col c d) eqn:E;
             [ let xs := fresh "xs" in
               let H := fresh "H" in
               destruct (fillna_present d c E) as [xs H]; rewrite H; clear H;
               cbn [rbind]
             | rewrite (fillna_absent d c E); reflexivity ]
         end.

(** C4. On a table with rows, an absent objective column ([Profit],
    [Sharpe Ratio], [Equity DD %]) makes the classifier raise
    [AttributeError], and an absent objective or [Trades] column makes the
    Recommendation Engine raise it, instead of counting the column as 0. *)
Theorem absent_column_raises (quantile : list float -> float -> float)
    (d : DataFrame) (param_cols : list string) :
  df_len d <> 0 ->
  (objectives_present d = false -> compute_pareto d = Raise AttributeError)
  /\ (objectives_present d && has_col "Trades" d = false ->
      build_suggestion_cards quantile d param_cols = Raise AttributeError).
Proof.
  intros Hn. unfold objectives_present, compute_pareto, build_suggestion_cards.
  destruct (Nat.eqb_spec (df_len d) 0) as [E|_]; [contradiction|].
  split; intros H; coerce_columns; discriminate.
Qed.

Lemma absent_column_raises_witness :
  (df_len no_profit_table <> 0 /\ objectives_present no_profit_table = false)
  /\ compute_pareto no_profit_table = Raise AttributeError
  /\ build_suggestion_cards quantile_lower no_profit_table ["inpPeriod"]
     = Raise AttributeError
  /\ build_suggestion_cards quantile_lower no_trades_column_table ["inpPeriod"]
     = Raise AttributeError.
Proof.
  split; [split; [discriminate|reflexivity]|].
  split; [|split].
  - apply (proj1 (absent_column_raises quantile_lower no_profit_table ["inpPeriod"]
                    ltac:(discriminate))).
    reflexivity.
  - apply (proj2 (absent_column_raises quantile_lower no_profit_table ["inpPeriod"]
                    ltac:(discriminate))).
    reflexivity.
  - apply (proj2 (absent_column_raises quantile_lower no_trades_column_table
                    ["inpPeriod"] ltac:(discriminate))).
    reflexivity.
Defined.

Lemma empty_components (quantile : list float -> float -> float) (d : DataFrame)
    (param_cols : list string) :
  df_len d = 0 ->
  compute_pareto d = Ok []
  /\ build_suggestion_cards quantile d param_cols = Ok [mkCard NoDataTitle NoDataBody].
Proof.
  intros H. unfold compute_pareto, build_suggestion_cards. rewrite H. split; reflexivity.
Qed.

(** With its [Profit] column, a table whose rows all go in the Row Filter
    has a report with one placeholder card and counters 0. *)
Example report_of_untraded_table :
  match value_of (fun l => generate_report sum_left quantile_lower l ["inpPeriod"])
          untraded_table with
  | Ok r =>
      suggestion_cards r = [mkCard NoDataTitle NoDataBody]
      /\ raw_records r = []
      /\ (total_runs r, valid_count r, pareto_count r) = (0, 0, 0)
  | Raise _ => False
  end.
Proof. vm_compute. repeat split. Qed.

(** C9. The table [untraded_no_profit_table] is empty after the Row
    Filter; the classifier returns no flag and the Recommendation Engine one
    placeholder card on it, but [generate_report] raises [AttributeError]
    when it counts the rows with a positive profit, the table having no
    [Profit] column; the same happens on a table without rows or columns. *)
Theorem empty_report_without_profit_raises (fsum : list float -> float)
    (quantile : list float -> float -> float) :
  frame_of row_filter untraded_no_profit_table
  = Ok (mkDataFrame 0 [("inpPeriod", []); ("Trades", [])])
  /\ compute_pareto (mkDataFrame 0 [("inpPeriod", []); ("Trades", [])]) = Ok []
  /\ build_suggestion_cards quantile (mkDataFrame 0 [("inpPeriod", []); ("Trades", [])])
       ["inpPeriod"] = Ok [mkCard NoDataTitle NoDataBody]
  /\ value_of (fun l => generate_report fsum quantile l ["inpPeriod"])
       untraded_no_profit_table = Raise AttributeError
  /\ value_of (fun l => generate_report fsum quantile l []) empty_table
     = Raise AttributeError.
Proof. repeat split. Qed.

(** A remark on the Normalizer: the guard is on the computed standard
    deviation. Summed from left to right, three cells 0.1 have a mean above
    0.1 and a standard deviation of about 1.7e-17, so their z-values are not
    0. *)
Example zscore_of_three_tenths :
  zscore sum_left [CNum 0.1; CNum 0.1; CNum 0.1]
  = Ok [(-0.81649658092772615)%float; (-0.81649658092772615)%float;
        (-0.81649658092772615)%float].
Proof. vm_compute. reflexivity. Qed.

(** * Further properties of the analysis *)

(** ** The Pareto front: ties and cover *)

Lemma feqb_leb (x y : float) :
  (x =? y)%float = true -> (x <=? y)%float = true /\ (y <=? x)%float = true.
Proof.
  intros H.
  pose proof (float_compare_place x y) as Hxy.
  pose proof (float_compare_place y x) as Hyx.
  destruct (F.fplace x) as [a|], (F.fplace y) as [b|];
    try (destruct Hxy as (_ & _ & Hxy); congruence).
  destruct Hxy as (Hle & _ & Heq), Hyx as (Hle' & _ & _).
  apply Heq in H; subst b. split; [apply Hle|apply Hle']; apply lex_le_refl.
Qed.

Lemma Dominates_tied (df : DataFrame) (k i j : nat) :
  Dominates df k i -> Tied df i j -> Dominates df k j.
Proof.
  unfold Dominates, Tied, F.geb, F.gtb.
  intros ((Hp & Hs & Hd) & Hstrict) (Tp & Ts & Td).
  apply feqb_leb in Tp, Ts, Td.
  destruct Tp as [Tp1 Tp2], Ts as [Ts1 Ts2], Td as [Td1 Td2].
  split; [repeat split; eauto using fleb_trans|].
  destruct Hstrict as [H|[H|H]].
  - left. eauto using fleb_ltb_trans.
  - right; left. eauto using fleb_ltb_trans.
  - right; right. eauto using fltb_leb_trans.
Qed.

Lemma dominated_tied (df : DataFrame) (i j : nat) :
  Tied df i j -> dominated df j = false -> dominated df i = false.
Proof.
  intros Ht Hj. apply dominated_iff. intros k Hk Hne Hdom.
  rewrite dominated_iff in Hj.
  destruct (Nat.eq_dec k j) as [->|Hkj].
  - apply (tied_not_dominates df i j Ht Hdom).
  - apply (Hj k Hk Hkj). eapply Dominates_tied; eauto.
Qed.

(** X1. Two rows that are equal on the three objectives get the same flag:
    duplicates are both on the front or both off it. *)
Theorem tied_rows_share_flag (df : DataFrame) :
  df_len df = 0 \/ objectives_present df = true ->
  exists flags,
    compute_pareto df = Ok flags
    /\ forall i j, i < df_len df -> j < df_len df -> Tied df i j ->
                   nth i flags false = nth j flags false.
Proof.
  intros H. eexists. split; [apply compute_pareto_char, H|].
  intros i j Hi Hj Ht. rewrite !nth_map_seq by assumption. f_equal.
  destruct (dominated df i) eqn:Ei, (dominated df j) eqn:Ej; try reflexivity.
  - rewrite (dominated_tied df i j Ht Ej) in Ei. discriminate.
  - rewrite (dominated_tied df j i (tied_sym df i j Ht) Ei) in Ej. discriminate.
Qed.

Lemma dominated_witness (df : DataFrame) (i : nat) :
  dominated df i = true -> exists k, k < df_len df /\ Dominates df k i.
Proof.
  unfold dominated. intros H. apply existsb_exists in H.
  destruct H as (k & Hk & H). apply andb_true_iff in H. destruct H as [_ H].
  apply in_seq in Hk. exists k. split; [lia|apply dominates_iff, H].
Qed.

(** X2. Every row off the front is dominated by a row of the front. *)
Theorem front_covers_dominated_rows (df : DataFrame) :
  objectives_present df = true ->
  exists flags,
    compute_pareto df = Ok flags
    /\ forall i, i < df_len df -> nth i flags false = false ->
         exists j, j < df_len df /\ nth j flags false = true /\ Dominates df j i.
Proof.
  intros H. eexists. split; [apply compute_pareto_char; right; exact H|].
  intros i Hi Hflag. rewrite nth_map_seq in Hflag by exact Hi.
  apply negb_false_iff, dominated_witness in Hflag.
  destruct Hflag as (k & Hk & Hdom).
  set (above := filter (fun y => if Dominates_dec df y i then true else false)
                  (seq 0 (df_len df))).
  assert (Hin : forall y, In y above <-> y < df_len df /\ Dominates df y i).
  { intros y. unfold above. rewrite filter_In, in_seq.
    destruct (Dominates_dec df y i); split; intros [? ?];
      try discriminate; try contradiction; split; auto; lia. }
  destruct (undominated_row df above) as (m & Hm & Hmax).
  { intros E. assert (Hk' : In k above) by (apply Hin; auto).
    rewrite E in Hk'. destruct Hk'. }
  apply Hin in Hm. destruct Hm as [Hm Hmi].
  exists m. split; [exact Hm|]. split; [|exact Hmi].
  rewrite nth_map_seq by exact Hm. apply negb_true_iff, dominated_iff.
  intros y Hy _ Hym. apply (Hmax y); [|exact Hym].
  apply Hin. split; [exact Hy|]. eapply Dominates_trans; eauto.
Qed.

Lemma tied_rows_share_flag_witness :
  objectives_present scenario_abc = true
  /\ exists flags,
       compute_pareto scenario_abc = Ok flags
       /\ forall i j, i < df_len scenario_abc -> j < df_len scenario_abc ->
                      Tied scenario_abc i j -> nth i flags false = nth j flags false.
Proof.
  split; [reflexivity|].
  apply (tied_rows_share_flag scenario_abc). right. reflexivity.
Defined.

Lemma front_covers_dominated_rows_witness :
  objectives_present scenario_abc = true
  /\ exists flags,
       compute_pareto scenario_abc = Ok flags
       /\ forall i, i < df_len scenario_abc -> nth i flags false = false ->
            exists j, j < df_len scenario_abc /\ nth j flags false = true
                      /\ Dominates scenario_abc j i.
Proof.
  split; [reflexivity|].
  apply (front_covers_dominated_rows scenario_abc). reflexivity.
Defined.

(** ** Frames: names, lengths and assignments *)

Lemma has_col_match (c : string) (d : DataFrame) :
  has_col c d = match lookup c (df_cols d) with Some _ => true | None => false end.
Proof.
  destruct (lookup c (df_cols d)) as [s|] eqn:E.
  - apply has_col_lookup. eauto.
  - apply has_col_false, E.
Qed.

Lemma has_col_df_set (d : DataFrame) (c c' : string) (s : Series) :
  has_col c (df_set d c' s) = has_col c d || String.eqb c c'.
Proof.
  rewrite !has_col_match, lookup_df_set.
  destruct (String.eqb c c'); [rewrite orb_true_r; reflexivity|].
  rewrite orb_false_r. reflexivity.
Qed.

Lemma filter_eqb_nil (c : string) (l : list string) :
  filter (String.eqb c) l = [] <-> ~ In c l.
Proof.
  induction l as [|a l IH]; simpl; [tauto|].
  destruct (String.eqb_spec c a) as [->|Hne].
  - split; [discriminate|intros H; exfalso; apply H; left; reflexivity].
  - rewrite IH. split; [intros H [E|E]; [congruence|auto]|intros H E; apply H; right; exact E].
Qed.

Lemma unique_names_NoDup (l : list string) :
  forallb (fun c => Nat.eqb (length (filter (String.eqb c) l)) 1) l = true <-> NoDup l.
Proof.
  induction l as [|a l IH].
  - split; [constructor|reflexivity].
  - cbn [forallb filter]. rewrite String.eqb_refl. cbn [length].
    rewrite andb_true_iff, forallb_forall. split.
    + intros [Ha Hl]. apply Nat.eqb_eq in Ha.
      assert (Hnil : filter (String.eqb a) l = [])
        by (destruct (filter (String.eqb a) l); [reflexivity|discriminate]).
      apply filter_eqb_nil in Hnil. constructor; [exact Hnil|].
      apply IH, forallb_forall. intros c Hc. specialize (Hl c Hc).
      destruct (String.eqb_spec c a) as [E|Hne]; [subst c; contradiction|exact Hl].
    + intros Hnd. inversion Hnd as [|? ? Hni Hnd']; subst.
      apply filter_eqb_nil in Hni. rewrite Hni. split; [reflexivity|].
      intros c Hc. apply IH in Hnd'. rewrite forallb_forall in Hnd'.
      destruct (String.eqb_spec c a) as [E|Hne]; [|apply Hnd', Hc].
      subst c. apply filter_eqb_nil in Hni. contradiction.
Qed.

Lemma wf_frame_iff (d : DataFrame) :
  wf_frame d = true <->
  (forall c s, In (c, s) (df_cols d) -> length s = df_len d) /\ NoDup (columns d).
Proof.
  unfold wf_frame. rewrite andb_true_iff, unique_names_NoDup, forallb_forall.
  split; intros [H1 H2]; (split; [|exact H2]).
  - intros c s Hin. apply Nat.eqb_eq, (H1 (c, s) Hin).
  - intros [c s] Hin. apply Nat.eqb_eq, (H1 c s Hin).
Qed.

Lemma set_col_In (c : string) (s : Series) (cols : list (string * Series))
    (c' : string) (s' : Series) :
  In (c', s') (set_col c s cols) -> In (c', s') cols \/ (c', s') = (c, s).
Proof.
  induction cols as [|[c2 s2] cols IH]; simpl.
  - intros [E|[]]. right. congruence.
  - destruct (String.eqb_spec c c2) as [->|Hne]; simpl.
    + intros [E|H]; [right; congruence|left; right; exact H].
    + intros [E|H]; [left; left; exact E|].
      destruct (IH H) as [H'|H']; [left; right; exact H'|right; exact H'].
Qed.

Lemma set_col_names (c : string) (s : Series) (cols : list (string * Series)) :
  map fst (set_col c s cols) =
  if existsb (String.eqb c) (map fst cols) then map fst cols else map fst cols ++ [c].
Proof.
  induction cols as [|[c2 s2] cols IH]; simpl; [reflexivity|].
  destruct (String.eqb_spec c c2) as [->|Hne]; simpl; [reflexivity|].
  rewrite IH. destruct (existsb (String.eqb c) (map fst cols)); reflexivity.
Qed.

Lemma wf_df_set (d : DataFrame) (c : string) (s : Series) :
  wf_frame d = true -> length s = df_len d -> wf_frame (df_set d c s) = true.
Proof.
  rewrite !wf_frame_iff. intros [Hlen Hnd] Hs. split.
  - intros c' s' Hin. unfold df_set in Hin. cbn [df_cols df_len] in *.
    apply set_col_In in Hin. destruct Hin as [Hin|E]; [eapply Hlen; eauto|].
    injection E as -> ->. exact Hs.
  - unfold columns, df_set. cbn [df_cols]. rewrite set_col_names.
    fold (columns d). destruct (existsb (String.eqb c) (columns d)) eqn:E; [exact Hnd|].
    apply NoDup_app; [exact Hnd|repeat constructor; simpl; tauto|].
    intros x Hx [Ex|[]]. subst x.
    assert (Ht : existsb (String.eqb c) (columns d) = true); [|congruence].
    apply existsb_exists. exists c. split; [exact Hx|apply String.eqb_refl].
Qed.

Lemma has_col_mask (d : DataFrame) (mask : list bool) (c : string) :
  has_col c (df_mask d mask) = has_col c d.
Proof.
  unfold has_col, columns, df_mask. cbn [df_cols]. rewrite map_map.
  f_equal.
Qed.

Lemma find_ext_in {A : Type} (f g : A -> bool) (l : list A) :
  (forall x, In x l -> f x = g x) -> find f l = find g l.
Proof.
  induction l as [|a l IH]; intros H; simpl; [reflexivity|].
  rewrite (H a) by (left; reflexivity).
  rewrite IH by (intros x Hx; apply H; right; exact Hx). reflexivity.
Qed.

Lemma find_none_iff {A : Type} (f : A -> bool) (l : list A) :
  (forall x, In x l -> f x = false) -> find f l = None.
Proof.
  induction l as [|a l IH]; intros H; simpl; [reflexivity|].
  rewrite (H a) by (left; reflexivity). apply IH. intros x Hx. apply H. right. exact Hx.
Qed.

(** ** The Normalizer: the columns of [add_z_scores] *)

Section ZColumns.

Variable fsum : list float -> float.

Lemma zvalues_length (s : Series) : length (zvalues fsum s) = length s.
Proof.
  unfold zvalues. destruct (zscore_total fsum s) as (z & -> & Hz).
  rewrite length_map. exact Hz.
Qed.

Lemma zscore_zvalues (s : Series) :
  exists z, zscore fsum s = Ok z /\ zvalues fsum s = map CNum z.
Proof.
  unfold zvalues. destruct (zscore_total fsum s) as (z & -> & _). eauto.
Qed.

(** The frame that the loop of [add_z_scores] builds over metrics whose z
    names are distinct and are not source names. *)
Lemma z_columns_char (metrics : list (string * (string * string))) :
  NoDup (map (fun m => snd (snd m)) metrics) ->
  (forall m m', In m metrics -> In m' metrics ->
                String.eqb (fst (snd m)) (snd (snd m')) = false) ->
  forall d, wf_frame d = true ->
    exists d',
      z_columns fsum metrics d = Ok d'
      /\ wf_frame d' = true
      /\ df_len d' = df_len d
      /\ forall c,
           lookup c (df_cols d') =
           match find (fun m => String.eqb c (snd (snd m)) && has_col (fst (snd m)) d)
                   metrics with
           | Some m => option_map (zvalues fsum) (lookup (fst (snd m)) (df_cols d))
           | None => lookup c (df_cols d)
           end.
Proof.
  induction metrics as [|[key [col zcol]] rest IH]; intros Hnd Hapart d Hwf.
  - exists d. repeat split; auto.
  - inversion Hnd as [|? ? Hni Hnd']; subst. cbn [fst snd] in Hni.
    assert (Hapart' : forall m m', In m rest -> In m' rest ->
                        String.eqb (fst (snd m)) (snd (snd m')) = false).
    { intros m m' Hm Hm'. apply Hapart; right; assumption. }
    cbn [z_columns find fst snd].
    destruct (has_col col d) eqn:Hc.
    + pose proof Hc as Hs. apply has_col_lookup in Hs. destruct Hs as [s Hs].
      unfold df_col. rewrite Hs. cbn [rbind].
      destruct (zscore_zvalues s) as (z & Ez & Hz). rewrite Ez. cbn [rbind].
      assert (Hlen : length (map CNum z) = df_len d).
      { rewrite <- Hz, zvalues_length. eapply wf_frame_lookup; eauto. }
      destruct (IH Hnd' Hapart' (df_set d zcol (map CNum z)) (wf_df_set d _ _ Hwf Hlen))
        as (d' & E & Hwf' & Hlen' & Hlook).
      exists d'. split; [exact E|]. split; [exact Hwf'|]. split; [exact Hlen'|].
      intros c. rewrite Hlook.
      rewrite (find_ext_in _ (fun m => String.eqb c (snd (snd m)) && has_col (fst (snd m)) d)).
      2:{ intros m Hm. f_equal. apply has_col_set_other.
          apply (Hapart m (key, (col, zcol)) (or_intror Hm) (or_introl eq_refl)). }
      destruct (String.eqb_spec c zcol) as [->|Hne]; cbn [andb fst snd].
      * rewrite find_none_iff.
        -- rewrite lookup_df_set, String.eqb_refl, Hs. cbn [option_map].
           rewrite Hz. reflexivity.
        -- intros m Hm. destruct (String.eqb_spec zcol (snd (snd m))) as [E'|_];
             [|reflexivity].
           exfalso. apply Hni. rewrite E'. apply in_map_iff. exists m. auto.
      * destruct (find _ rest) as [m|] eqn:Ef.
        -- apply find_some in Ef. destruct Ef as [Hm _].
           rewrite lookup_df_set.
           pose proof (Hapart m (key, (col, zcol)) (or_intror Hm) (or_introl eq_refl))
             as Hmz.
           cbn [fst snd] in Hmz. rewrite Hmz. reflexivity.
        -- rewrite lookup_df_set.
           destruct (String.eqb_spec c zcol); [contradiction|reflexivity].
    + destruct (IH Hnd' Hapart' d Hwf) as (d' & E & Hwf' & Hlen' & Hlook).
      exists d'. split; [exact E|]. split; [exact Hwf'|]. split; [exact Hlen'|].
      intros c. rewrite Hlook, andb_false_r. reflexivity.
Qed.

Lemma METRIC_DEF_z_names : NoDup (map (fun m => snd (snd m)) METRIC_DEF).
Proof. simpl. repeat constructor; simpl; intuition discriminate. Qed.

Lemma METRIC_DEF_apart (m m' : string * (string * string)) :
  In m METRIC_DEF -> In m' METRIC_DEF ->
  String.eqb (fst (snd m)) (snd (snd m')) = false.
Proof.
  assert (H : forallb (fun m => forallb (fun m' =>
                negb (String.eqb (fst (snd m)) (snd (snd m')))) METRIC_DEF) METRIC_DEF
              = true) by reflexivity.
  intros Hm Hm'. rewrite forallb_forall in H. specialize (H m Hm).
  rewrite forallb_forall in H. specialize (H m' Hm').
  apply negb_true_iff, H.
Qed.

Lemma frame_of_add_z_scores (d : DataFrame) :
  frame_of (add_z_scores fsum) d = z_columns fsum METRIC_DEF d.
Proof. apply frame_of_builds, add_z_scores_builds. reflexivity. Qed.

Lemma find_z_name (c : string) (d : DataFrame) (key col zcol : string) :
  In (key, (col, zcol)) METRIC_DEF ->
  find (fun m => String.eqb zcol (snd (snd m)) && has_col (fst (snd m)) d) METRIC_DEF
  = if has_col col d then Some (key, (col, zcol)) else None.
Proof.
  intros Hin. unfold METRIC_DEF in *. cbn [In] in Hin.
  repeat (destruct Hin as [Hin|Hin];
          [injection Hin as <- <- <-; cbn [find fst snd String.eqb Ascii.eqb Bool.eqb andb];
           destruct (has_col _ d); reflexivity|]).
  destruct Hin.
Qed.

(** The z columns of the six metrics, on the value of the table. *)
Lemma z_columns_metrics (d : DataFrame) :
  wf_frame d = true ->
  exists dz,
    z_columns fsum METRIC_DEF d = Ok dz
    /\ wf_frame dz = true
    /\ df_len dz = df_len d
    /\ (forall key col zcol, In (key, (col, zcol)) METRIC_DEF ->
          lookup zcol (df_cols dz) =
          match lookup col (df_cols d) with
          | Some s => Some (zvalues fsum s)
          | None => lookup zcol (df_cols d)
          end)
    /\ (forall c, is_z_name c = false -> lookup c (df_cols dz) = lookup c (df_cols d)).
Proof.
  intros Hwf.
  destruct (z_columns_char METRIC_DEF METRIC_DEF_z_names METRIC_DEF_apart d Hwf)
    as (dz & E & Hwf' & Hlen & Hlook).
  exists dz. split; [exact E|]. split; [exact Hwf'|]. split; [exact Hlen|]. split.
  - intros key col zcol Hin. rewrite Hlook, (find_z_name zcol d key col zcol Hin).
    rewrite has_col_match.
    destruct (lookup col (df_cols d)) as [s|] eqn:Es; cbn [fst snd]; [|reflexivity].
    rewrite Es. reflexivity.
  - intros c Hc. rewrite Hlook, find_none_iff; [reflexivity|].
    intros m Hm. unfold is_z_name in Hc.
    assert (Hf : String.eqb c (snd (snd m)) = false).
    { destruct (String.eqb c (snd (snd m))) eqn:E'; [|reflexivity].
      assert (Ht : existsb (fun m => String.eqb c (snd (snd m))) METRIC_DEF = true);
        [|congruence].
      apply existsb_exists. eauto. }
    rewrite Hf. reflexivity.
Qed.

(** X3. [add_z_scores] never raises. For each of the six metrics whose source
    column is in the table, the result has the z column with the values of
    [zscore] on that source column; for a metric without source column it
    adds no z column; every column that does not bear a z name is as in the
    input, and so is the number of rows. *)
Theorem add_z_scores_columns (d : DataFrame) :
  wf_frame d = true ->
  exists dz,
    frame_of (add_z_scores fsum) d = Ok dz
    /\ wf_frame dz = true
    /\ df_len dz = df_len d
    /\ (forall key col zcol, In (key, (col, zcol)) METRIC_DEF ->
          lookup zcol (df_cols dz) =
          match lookup col (df_cols d) with
          | Some s => Some (zvalues fsum s)
          | None => lookup zcol (df_cols d)
          end)
    /\ (forall c, is_z_name c = false -> lookup c (df_cols dz) = lookup c (df_cols d)).
Proof.
  intros Hwf. rewrite frame_of_add_z_scores. apply z_columns_metrics, Hwf.
Qed.

End ZColumns.

Lemma add_z_scores_columns_witness :
  wf_frame scenario_abc = true
  /\ exists dz,
       frame_of (add_z_scores sum_left) scenario_abc = Ok dz
       /\ wf_frame dz = true
       /\ df_len dz = df_len scenario_abc
       /\ (forall key col zcol, In (key, (col, zcol)) METRIC_DEF ->
             lookup zcol (df_cols dz) =
             match lookup col (df_cols scenario_abc) with
             | Some s => Some (zvalues sum_left s)
             | None => lookup zcol (df_cols scenario_abc)
             end)
       /\ (forall c, is_z_name c = false ->
             lookup c (df_cols dz) = lookup c (df_cols scenario_abc)).
Proof.
  split; [reflexivity|].
  apply (add_z_scores_columns sum_left scenario_abc). reflexivity.
Defined.

(** ** The Normalizer: cells that are not numbers *)

Lemma sub_nan_l (x y : float) : isnan x = true -> isnan (x - y) = true.
Proof. rewrite !isnan_spec, FloatAxioms.sub_spec. intros ->. reflexivity. Qed.

Lemma div_nan_l (x y : float) : isnan x = true -> isnan (x / y) = true.
Proof. rewrite !isnan_spec, FloatAxioms.div_spec. intros ->. reflexivity. Qed.

(** X4. In a column whose standard deviation is defined and not zero, [zscore]
    gives each row (value - mean) / std, and a cell that is not a number
    gets an undefined (NaN) z-value, not 0. *)
Theorem zscore_undefined_cell (fsum : list float -> float) (series : Series) :
  (series_std fsum (to_numeric_series series) =? 0)%float = false ->
  isnan (series_std fsum (to_numeric_series series)) = false ->
  exists zs,
    zscore fsum series = Ok zs
    /\ (forall i, i < length series ->
          nth i zs 0%float =
          ((to_numeric_cell (nth i series CNone)
            - series_mean fsum (to_numeric_series series))
           / series_std fsum (to_numeric_series series))%float)
    /\ (forall i, i < length series ->
          isnan (to_numeric_cell (nth i series CNone)) = true ->
          isnan (nth i zs 0%float) = true).
Proof.
  intros Hz Hn. unfold zscore, series_div. rewrite Hz, Hn. cbn [orb].
  eexists. split; [reflexivity|].
  assert (Hnth : forall i, i < length series ->
            nth i (map (fun x => (x / series_std fsum (to_numeric_series series))%float)
                     (map (fun x => (x - series_mean fsum (to_numeric_series series))%float)
                        (to_numeric_series series))) 0%float =
            ((to_numeric_cell (nth i series CNone)
              - series_mean fsum (to_numeric_series series))
             / series_std fsum (to_numeric_series series))%float).
  { intros i Hi. unfold to_numeric_series. rewrite !map_map.
    apply (nth_map_lt
             (fun c => ((to_numeric_cell c
                         - series_mean fsum (map to_numeric_cell series))
                        / series_std fsum (map to_numeric_cell series))%float)
             series i CNone 0%float Hi). }
  split; [exact Hnth|].
  intros i Hi Hc. rewrite (Hnth i Hi). apply div_nan_l, sub_nan_l, Hc.
Qed.

Lemma zscore_undefined_cell_witness :
  ((series_std sum_left (to_numeric_series [CNum 1; CNum 2; CStr "n/a"]) =? 0)%float = false
   /\ isnan (series_std sum_left (to_numeric_series [CNum 1; CNum 2; CStr "n/a"])) = false)
  /\ exists zs,
       zscore sum_left [CNum 1; CNum 2; CStr "n/a"] = Ok zs
       /\ (forall i, i < 3 ->
             nth i zs 0%float =
             ((to_numeric_cell (nth i [CNum 1; CNum 2; CStr "n/a"] CNone)
               - series_mean sum_left (to_numeric_series [CNum 1; CNum 2; CStr "n/a"]))
              / series_std sum_left (to_numeric_series [CNum 1; CNum 2; CStr "n/a"]))%float)
       /\ (forall i, i < 3 ->
             isnan (to_numeric_cell (nth i [CNum 1; CNum 2; CStr "n/a"] CNone)) = true ->
             isnan (nth i zs 0%float) = true).
Proof.
  split; [split; reflexivity|].
  apply (zscore_undefined_cell sum_left [CNum 1; CNum 2; CStr "n/a"]); reflexivity.
Defined.

(** ** From the Normalizer to the Scorer *)

Section NormalizeThenScore.

Variable fsum : list float -> float.

Lemma zvalues_float (s : Series) : forallb cell_is_float (zvalues fsum s) = true.
Proof.
  destruct (zscore_zvalues fsum s) as (z & _ & ->).
  induction z; simpl; auto.
Qed.

Lemma source_not_z_name (key col zcol : string) :
  In (key, (col, zcol)) METRIC_DEF -> is_z_name col = false.
Proof.
  intros Hin. unfold is_z_name.
  destruct (existsb _ METRIC_DEF) eqn:E; [|reflexivity].
  apply existsb_exists in E. destruct E as (m' & Hm' & E).
  pose proof (METRIC_DEF_apart (key, (col, zcol)) m' Hin Hm') as Ha.
  cbn [fst snd] in Ha. congruence.
Qed.

Lemma derived_absent (d : DataFrame) (key col zcol : string) :
  z_columns_derived d = true -> In (key, (col, zcol)) METRIC_DEF ->
  lookup col (df_cols d) = None -> lookup zcol (df_cols d) = None.
Proof.
  unfold z_columns_derived. intros H Hin Hc. rewrite forallb_forall in H.
  specialize (H _ Hin). cbn [fst snd] in H.
  rewrite !has_col_match, Hc in H.
  destruct (lookup zcol (df_cols d)); [discriminate|reflexivity].
Qed.

(** The Normalizer then the scorer, on the value of the table. *)
Lemma normalized_scored (d : DataFrame) :
  wf_frame d = true -> z_columns_derived d = true ->
  exists dz scores,
    z_columns fsum METRIC_DEF d = Ok dz
    /\ wf_frame dz = true
    /\ df_len dz = df_len d
    /\ (forall c, is_z_name c = false -> lookup c (df_cols dz) = lookup c (df_cols d))
    /\ z_values_float dz = true
    /\ z_columns_derived dz = true
    /\ scored dz = Ok (df_set dz "Score_Weighted" (map CNum scores))
    /\ length scores = df_len d.
Proof.
  intros Hwf Hder.
  destruct (z_columns_metrics fsum d Hwf) as (dz & E & Hwfz & Hlen & Hz0 & Hother).
  assert (Hz : forall key col zcol, In (key, (col, zcol)) METRIC_DEF ->
             lookup zcol (df_cols dz) =
             match lookup col (df_cols d) with
             | Some s => Some (zvalues fsum s)
             | None => None
             end).
  { intros key col zcol Hin. rewrite (Hz0 key col zcol Hin).
    destruct (lookup col (df_cols d)) as [s|] eqn:Es; [reflexivity|].
    eapply derived_absent; eauto. }
  assert (Hsrc : forall key col zcol, In (key, (col, zcol)) METRIC_DEF ->
             lookup col (df_cols dz) = lookup col (df_cols d)).
  { intros key col zcol Hin. apply Hother. eapply source_not_z_name; eauto. }
  assert (Hfloat : z_values_float dz = true).
  { unfold z_values_float. apply forallb_forall. intros [key [col zcol]] Hin.
    cbn [fst snd]. rewrite (Hz key col zcol Hin).
    destruct (lookup col (df_cols d)); [apply zvalues_float|reflexivity]. }
  assert (Hder' : z_columns_derived dz = true).
  { unfold z_columns_derived. apply forallb_forall. intros [key [col zcol]] Hin.
    cbn [fst snd]. rewrite !has_col_match, (Hz key col zcol Hin), (Hsrc key col zcol Hin).
    destruct (lookup col (df_cols d)); reflexivity. }
  destruct (weighted_sum_rows dz Hwfz Hfloat DEFAULT_WEIGHTS (repeat 0%float (df_len dz)))
    as (score & Es & Hls & _).
  { apply repeat_length. }
  { repeat constructor; simpl; discriminate. }
  exists dz, score.
  split; [exact E|]. split; [exact Hwfz|]. split; [exact Hlen|].
  split; [exact Hother|]. split; [exact Hfloat|]. split; [exact Hder'|].
  split; [unfold scored; rewrite Es; reflexivity|congruence].
Qed.

(** X5. After [add_z_scores] on a table that has no stray z column, every z
    column holds floats and stands next to its source column, and
    [compute_default_score] does not raise on it: it adds the column
    [Score_Weighted] with one score per row and leaves the others. *)
Theorem scorer_accepts_normalized (d : DataFrame) :
  wf_frame d = true -> z_columns_derived d = true ->
  exists dz ds scores,
    frame_of (add_z_scores fsum) d = Ok dz
    /\ z_values_float dz = true
    /\ z_columns_derived dz = true
    /\ frame_of compute_default_score dz = Ok ds
    /\ wf_frame ds = true
    /\ df_col ds "Score_Weighted" = Ok (map CNum scores)
    /\ length scores = df_len d
    /\ (forall c, String.eqb c "Score_Weighted" = false ->
          lookup c (df_cols ds) = lookup c (df_cols dz)).
Proof.
  intros Hwf Hder.
  destruct (normalized_scored d Hwf Hder)
    as (dz & score & E & Hwfz & Hlen & _ & Hfloat & Hder' & Es & Hls).
  exists dz, (df_set dz "Score_Weighted" (map CNum score)), score.
  split; [rewrite frame_of_add_z_scores; exact E|].
  split; [exact Hfloat|]. split; [exact Hder'|].
  split; [rewrite frame_of_compute_default_score; exact Es|].
  split; [apply wf_df_set; [exact Hwfz|rewrite length_map; congruence]|].
  split; [unfold df_col; rewrite lookup_df_set, String.eqb_refl; reflexivity|].
  split; [exact Hls|].
  intros c Hc. rewrite lookup_df_set, Hc. reflexivity.
Qed.

(** X6. With no z column in the table every default score is 0. *)
Theorem score_without_metrics (d : DataFrame) :
  (forall key col zcol, In (key, (col, zcol)) METRIC_DEF -> has_col zcol d = false) ->
  frame_of compute_default_score d
  = Ok (df_set d "Score_Weighted" (repeat (CNum 0) (df_len d))).
Proof.
  intros H. rewrite frame_of_compute_default_score. unfold scored.
  assert (Hsum : forall weights score,
            weighted_sum weights d score = Ok score
            \/ exists key w, In (key, w) weights /\ lookup key METRIC_DEF = None).
  { induction weights as [|[key w] rest IH]; intros score; [left; reflexivity|].
    cbn [weighted_sum].
    destruct (lookup key METRIC_DEF) as [[col zcol]|] eqn:Ek.
    - rewrite (H key col zcol (lookup_In _ _ _ Ek)).
      destruct (IH score) as [E|(k & w' & Hin & Hk)]; [left; exact E|].
      right. exists k, w'. split; [right; exact Hin|exact Hk].
    - right. exists key, w. split; [left; reflexivity|exact Ek]. }
  destruct (Hsum DEFAULT_WEIGHTS (repeat 0%float (df_len d))) as [E|(k & w & Hin & Hk)].
  - rewrite E. cbn [rbind]. rewrite map_repeat. reflexivity.
  - exfalso. unfold DEFAULT_WEIGHTS in Hin. cbn [In] in Hin.
    repeat (destruct Hin as [Hin|Hin]; [injection Hin as <- <-; discriminate|]).
    destruct Hin.
Qed.

End NormalizeThenScore.

Lemma scorer_accepts_normalized_witness :
  (wf_frame gap_table = true /\ z_columns_derived gap_table = true)
  /\ exists dz ds scores,
       frame_of (add_z_scores sum_left) gap_table = Ok dz
       /\ z_values_float dz = true
       /\ z_columns_derived dz = true
       /\ frame_of compute_default_score dz = Ok ds
       /\ wf_frame ds = true
       /\ df_col ds "Score_Weighted" = Ok (map CNum scores)
       /\ length scores = df_len gap_table
       /\ (forall c, String.eqb c "Score_Weighted" = false ->
             lookup c (df_cols ds) = lookup c (df_cols dz)).
Proof.
  split; [split; reflexivity|].
  apply (scorer_accepts_normalized sum_left gap_table); reflexivity.
Defined.

Lemma score_without_metrics_witness :
  (forall key col zcol, In (key, (col, zcol)) METRIC_DEF ->
                        has_col zcol untraded_no_profit_table = false)
  /\ frame_of compute_default_score untraded_no_profit_table
     = Ok (df_set untraded_no_profit_table "Score_Weighted"
             (repeat (CNum 0) (df_len untraded_no_profit_table))).
Proof.
  assert (H : forall key col zcol, In (key, (col, zcol)) METRIC_DEF ->
                has_col zcol untraded_no_profit_table = false).
  { intros key col zcol Hin. unfold METRIC_DEF in Hin. cbn [In] in Hin.
    repeat (destruct Hin as [Hin|Hin]; [injection Hin as <- <- <-; reflexivity|]).
    destruct Hin. }
  split; [exact H|].
  apply (score_without_metrics untraded_no_profit_table H).
Defined.

(** ** The Recommendation Engine: the three strategy cards *)

Lemma fltb_asym (x y : float) : (x <? y)%float = true -> (y <? x)%float = false.
Proof.
  intros H. destruct (y <? x)%float eqn:E; [|reflexivity].
  pose proof (fltb_leb_trans x y x H (fltb_leb y x E)) as Hxx.
  rewrite fltb_irrefl in Hxx. discriminate.
Qed.

Section ArgBest.

Variable better : float -> float -> bool.
Variable vals : list float.

Hypothesis better_asym :
  forall a b, better (iloc vals a) (iloc vals b) = true ->
              better (iloc vals b) (iloc vals a) = false.
Hypothesis better_order :
  forall a b c, better (iloc vals a) (iloc vals b) = false ->
                better (iloc vals c) (iloc vals b) = true ->
                better (iloc vals c) (iloc vals a) = true.

Lemma argbest_first (candidates : list nat) :
  forall before best seen,
    (forall j, In j before -> better (iloc vals best) (iloc vals j) = true) ->
    (forall j, In j seen -> better (iloc vals j) (iloc vals best) = false) ->
    first_best better (iloc vals) (before ++ best :: seen ++ candidates)
      (argbest better vals best candidates).
Proof.
  induction candidates as [|i rest IH]; intros before best seen Hb Hs; cbn [argbest].
  - exists before, seen. rewrite app_nil_r. auto.
  - destruct (better (iloc vals i) (iloc vals best)) eqn:E.
    + replace (before ++ best :: seen ++ i :: rest)
        with ((before ++ best :: seen) ++ i :: [] ++ rest)
        by (rewrite <- app_assoc; reflexivity).
      apply IH; [|intros j []].
      intros j Hj. apply in_app_or in Hj. destruct Hj as [Hj|[<-|Hj]].
      * apply (better_order j best i); [apply better_asym, Hb, Hj|exact E].
      * exact E.
      * apply (better_order j best i); [apply Hs, Hj|exact E].
    + replace (before ++ best :: seen ++ i :: rest)
        with (before ++ best :: (seen ++ [i]) ++ rest)
        by (rewrite <- app_assoc; reflexivity).
      apply IH; [exact Hb|].
      intros j Hj. apply in_app_or in Hj. destruct Hj as [Hj|[<-|[]]]; auto.
Qed.

Lemma idxbest_first (pool : list nat) :
  pool <> [] ->
  exists i, idxbest better vals pool = Ok i /\ first_best better (iloc vals) pool i.
Proof.
  destruct pool as [|i rest]; [congruence|]. intros _.
  exists (argbest better vals i rest). split; [reflexivity|].
  apply (argbest_first rest [] i []); intros j [].
Qed.

End ArgBest.

Lemma first_best_in (better : float -> float -> bool) (value : nat -> float)
    (pool : list nat) (i : nat) :
  first_best better value pool i -> In i pool.
Proof.
  intros (pre & post & -> & _). apply in_or_app. right. left. reflexivity.
Qed.

Lemma first_best_ext (better : float -> float -> bool) (value value' : nat -> float)
    (pool : list nat) (i : nat) :
  (forall j, value j = value' j) ->
  first_best better value pool i -> first_best better value' pool i.
Proof.
  intros Hext (pre & post & E & Hpre & Hpost). exists pre, post.
  split; [exact E|]. split; intros j Hj; rewrite <- !Hext; auto.
Qed.

Lemma filled_asym_gtb (s : Series) (a b : nat) :
  F.gtb (iloc (map (fill 0) (to_numeric_series s)) a)
        (iloc (map (fill 0) (to_numeric_series s)) b) = true ->
  F.gtb (iloc (map (fill 0) (to_numeric_series s)) b)
        (iloc (map (fill 0) (to_numeric_series s)) a) = false.
Proof. unfold F.gtb. apply fltb_asym. Qed.

Lemma filled_order_gtb (s : Series) (a b c : nat) :
  F.gtb (iloc (map (fill 0) (to_numeric_series s)) a)
        (iloc (map (fill 0) (to_numeric_series s)) b) = false ->
  F.gtb (iloc (map (fill 0) (to_numeric_series s)) c)
        (iloc (map (fill 0) (to_numeric_series s)) b) = true ->
  F.gtb (iloc (map (fill 0) (to_numeric_series s)) c)
        (iloc (map (fill 0) (to_numeric_series s)) a) = true.
Proof.
  unfold F.gtb. rewrite !iloc_filled. intros H1 H2.
  destruct (fleb_total _ _ (fill_notnan (to_numeric_cell (nth a s CNone)))
              (fill_notnan (to_numeric_cell (nth b s CNone)))) as [H|H];
    [|congruence].
  eapply fleb_ltb_trans; eauto.
Qed.

Lemma filled_order_ltb (s : Series) (a b c : nat) :
  (iloc (map (fill 0) (to_numeric_series s)) a
   <? iloc (map (fill 0) (to_numeric_series s)) b)%float = false ->
  (iloc (map (fill 0) (to_numeric_series s)) c
   <? iloc (map (fill 0) (to_numeric_series s)) b)%float = true ->
  (iloc (map (fill 0) (to_numeric_series s)) c
   <? iloc (map (fill 0) (to_numeric_series s)) a)%float = true.
Proof.
  rewrite !iloc_filled. intros H1 H2.
  destruct (fleb_total _ _ (fill_notnan (to_numeric_cell (nth b s CNone)))
              (fill_notnan (to_numeric_cell (nth a s CNone)))) as [H|H];
    [|congruence].
  eapply fltb_leb_trans; eauto.
Qed.

Lemma existsb_filter_nil {A : Type} (p : A -> bool) (l : list A) :
  existsb (fun b => b) (map p l) = match filter p l with [] => false | _ => true end.
Proof.
  induction l as [|a l IH]; simpl; [reflexivity|].
  destruct (p a); simpl; [reflexivity|exact IH].
Qed.

(** The code's selection by a mask is the pool of the rows that pass. *)
Lemma restrict_pool (n : nat) (p : nat -> bool) :
  restrict n (map p (seq 0 n)) = pool_or_all n p.
Proof.
  unfold restrict, pool_or_all. rewrite existsb_filter_nil, mask_list_filter.
  destruct (filter p (seq 0 n)); reflexivity.
Qed.

Lemma pool_or_all_nonempty (n : nat) (p : nat -> bool) :
  0 < n -> pool_or_all n p <> [].
Proof.
  intros Hn. unfold pool_or_all. destruct (filter p (seq 0 n)); [|discriminate].
  destruct n; [lia|discriminate].
Qed.

Lemma pool_or_all_lt (n : nat) (p : nat -> bool) (i : nat) :
  In i (pool_or_all n p) -> i < n.
Proof.
  unfold pool_or_all. destruct (filter p (seq 0 n)) as [|a l] eqn:E.
  - intros H. apply in_seq in H. lia.
  - rewrite <- E. intros H. apply filter_In in H. destruct H as [H _].
    apply in_seq in H. lia.
Qed.

Lemma filled_as_objective (d : DataFrame) (c : string) (s : Series) :
  wf_frame d = true -> lookup c (df_cols d) = Some s ->
  map (fill 0) (to_numeric_series s) = map (objective d c) (seq 0 (df_len d)).
Proof.
  intros Hwf Hs. unfold to_numeric_series.
  rewrite (list_as_nth s CNone) at 1. rewrite (wf_frame_lookup d c s Hwf Hs), !map_map.
  apply map_ext. intros i. unfold objective. rewrite Hs. reflexivity.
Qed.

Lemma pretty_param_str_row (d : DataFrame) (i : nat) (param_cols : list string) :
  (forall p, In p param_cols -> has_col p d = true) ->
  pretty_param_str (df_row d i) param_cols
  = Ok (map (fun p => (strip_inp p, cell_at d p i)) param_cols).
Proof.
  unfold pretty_param_str. induction param_cols as [|p rest IH]; intros H; [reflexivity|].
  cbn [rmap map]. rewrite lookup_df_row. unfold cell_at at 1.
  assert (Hp : has_col p d = true) by (apply H; left; reflexivity).
  apply has_col_lookup in Hp. destruct Hp as [s Hs]. rewrite Hs. cbn [rbind].
  rewrite IH by (intros q Hq; apply H; right; exact Hq). reflexivity.
Qed.

Lemma strategy_card_row (t : card_title) (d : DataFrame) (i : nat)
    (param_cols : list string) :
  (forall p, In p param_cols -> has_col p d = true) ->
  strategy_card t (df_row d i) param_cols = Ok (mkCard t (strategy_body d param_cols i)).
Proof.
  intros H. unfold strategy_card. rewrite (pretty_param_str_row d i param_cols H).
  reflexivity.
Qed.

Lemma cards_ready_parts (d : DataFrame) (param_cols : list string) :
  cards_ready d param_cols = true ->
  wf_frame d = true
  /\ (exists sp, lookup "Profit" (df_cols d) = Some sp)
  /\ (exists ss, lookup "Sharpe Ratio" (df_cols d) = Some ss)
  /\ (exists sd, lookup "Equity DD %" (df_cols d) = Some sd)
  /\ (exists st, lookup "Trades" (df_cols d) = Some st)
  /\ (exists sc, lookup "Score_Weighted" (df_cols d) = Some sc)
  /\ (forall p, In p param_cols -> has_col p d = true).
Proof.
  unfold cards_ready, objectives_present. rewrite !andb_true_iff, forallb_forall.
  intros [[[[Hwf [[Hp Hs] Hd]] Ht] Hsc] Hpar].
  repeat split; auto; apply has_col_lookup; assumption.
Qed.

Lemma fillna_lookup (d : DataFrame) (c : string) (s : Series) :
  lookup c (df_cols d) = Some s ->
  fillna (to_numeric (df_get d c 0)) 0 = Ok (map (fill 0) (to_numeric_series s)).
Proof. intros H. unfold df_get. rewrite H. reflexivity. Qed.

Lemma iloc_objective (d : DataFrame) (c : string) (s : Series) (i : nat) :
  lookup c (df_cols d) = Some s ->
  iloc (map (fill 0) (to_numeric_series s)) i = objective d c i.
Proof. intros H. rewrite iloc_filled. unfold objective. rewrite H. reflexivity. Qed.

Lemma map_combine_same {A B C D : Type} (f : B * C -> D) (g : A -> B) (h : A -> C)
    (l : list A) :
  map f (combine (map g l) (map h l)) = map (fun a => f (g a, h a)) l.
Proof. induction l as [|a l IH]; simpl; [reflexivity|]. rewrite IH. reflexivity. Qed.

Lemma comes_before_refl (a : float) : comes_before a a = true.
Proof.
  unfold comes_before. destruct (isnan a) eqn:E; [reflexivity|].
  unfold F.geb. apply fleb_refl. exact E.
Qed.

Section Cards.

Variable quantile : list float -> float -> float.

(** The four cards of a table that has rows and the columns the engine
    reads, written with the rows they are taken from. *)
Lemma build_suggestion_cards_rows (d : DataFrame) (param_cols : list string) :
  cards_ready d param_cols = true -> 0 < df_len d ->
  exists i_aggr i_bal i_cons card4,
    build_suggestion_cards quantile d param_cols
    = Ok [mkCard AggressiveTitle (strategy_body d param_cols i_aggr);
          mkCard BalancedTitle (strategy_body d param_cols i_bal);
          mkCard ConservativeTitle (strategy_body d param_cols i_cons);
          card4]
    /\ first_best F.gtb (objective d "Profit") (aggressive_pool d) i_aggr
    /\ (i_bal < df_len d
        /\ forall j, j < df_len d ->
             comes_before (score_of d i_bal) (score_of d j) = true)
    /\ first_best PrimFloat.ltb (objective d "Equity DD %") (conservative_pool d) i_cons
    /\ stable_range_card quantile d param_cols = Ok card4.
Proof.
  intros Hready Hn.
  destruct (cards_ready_parts d param_cols Hready)
    as (Hwf & [sp Hsp] & [ss Hss] & [sd Hsd] & [st Hst] & [sc Hsc] & Hpar).
  (* the Aggressive row *)
  destruct (idxbest_first F.gtb (map (fill 0) (to_numeric_series sp))
              (filled_asym_gtb sp) (filled_order_gtb sp) (aggressive_pool d)
              (pool_or_all_nonempty _ _ Hn)) as (i_aggr & Ea & Ha).
  (* the Conservative row *)
  destruct (idxbest_first PrimFloat.ltb (map (fill 0) (to_numeric_series sd))
              (fun a b => fltb_asym _ _) (filled_order_ltb sd) (conservative_pool d)
              (pool_or_all_nonempty _ _ Hn)) as (i_cons & Ec & Hc).
  (* the ranking *)
  assert (Hlen : length sc = df_len d) by (eapply wf_frame_lookup; eauto).
  pose proof (argsort_desc_perm (to_numeric_series sc)) as Hperm.
  unfold to_numeric_series in Hperm at 2. rewrite length_map, Hlen in Hperm.
  pose proof (argsort_desc_sorted (to_numeric_series sc)) as Hsorted.
  destruct (argsort_desc (to_numeric_series sc)) as [|i_bal order] eqn:Eorder.
  { apply Permutation_length in Hperm. rewrite length_seq in Hperm. simpl in Hperm. lia. }
  assert (Hin : forall j, j < df_len d -> In j (i_bal :: order)).
  { intros j Hj. apply (Permutation_in _ (Permutation_sym Hperm)), in_seq. lia. }
  assert (Hlt : forall j, In j (i_bal :: order) -> j < df_len d).
  { intros j Hj. apply (Permutation_in _ Hperm), in_seq in Hj. lia. }
  destruct (stable_range_card quantile d param_cols) as [card4|e] eqn:E4.
  2:{ exfalso. revert E4. unfold stable_range_card, sort_values_desc, df_col.
      rewrite Hsc. cbn [rbind]. rewrite range_lines_top by exact Hpar. discriminate. }
  exists i_aggr, i_bal, i_cons, card4.
  split; [|split; [|split; [|split]]].
  - unfold build_suggestion_cards.
    destruct (Nat.eqb_spec (df_len d) 0) as [E|_]; [lia|].
    rewrite (fillna_lookup d _ sp Hsp), (fillna_lookup d _ ss Hss),
      (fillna_lookup d _ sd Hsd), (fillna_lookup d _ st Hst).
    cbn [rbind].
    rewrite (filled_as_objective d "Trades" st Hwf Hst) at 1.
    rewrite map_map.
    rewrite (restrict_pool (df_len d) (fun i => F.geb (objective d "Trades" i) 10)).
    fold (aggressive_pool d). rewrite Ea. cbn [rbind].
    rewrite (strategy_card_row _ d i_aggr param_cols Hpar). cbn [rbind].
    unfold sort_values_desc at 1, df_col. rewrite Hsc. cbn [rbind]. rewrite Eorder.
    rewrite (df_row_take d (i_bal :: order) 0) by (simpl; lia). cbn [nth].
    rewrite (strategy_card_row _ d i_bal param_cols Hpar). cbn [rbind].
    rewrite (filled_as_objective d "Profit" sp Hwf Hsp) at 1.
    rewrite (filled_as_objective d "Sharpe Ratio" ss Hwf Hss) at 1.
    rewrite (map_combine_same
               (fun ps : float * float => F.gtb (fst ps) 0 && F.gtb (snd ps) 0)
               (objective d "Profit") (objective d "Sharpe Ratio")).
    cbn [fst snd].
    rewrite (restrict_pool (df_len d)
               (fun i => F.gtb (objective d "Profit" i) 0
                         && F.gtb (objective d "Sharpe Ratio" i) 0)).
    fold (conservative_pool d). rewrite Ec. cbn [rbind].
    rewrite (strategy_card_row _ d i_cons param_cols Hpar). cbn [rbind].
    rewrite E4. reflexivity.
  - eapply first_best_ext; [|exact Ha]. intros j. apply iloc_objective. exact Hsp.
  - split; [apply Hlt; left; reflexivity|].
    intros j Hj. unfold score_of, numeric_at. rewrite Hsc.
    rewrite <- !iloc_numeric by (rewrite Hlen; auto using in_eq).
    destruct (Hin j Hj) as [<-|Hj'].
    + apply comes_before_refl.
    + inversion Hsorted as [|? ? _ Hall]; subst.
      rewrite Forall_forall in Hall. apply Hall. exact Hj'.
  - eapply first_best_ext; [|exact Hc]. intros j. apply iloc_objective. exact Hsd.
  - reflexivity.
Qed.

End Cards.

(** X7. The Aggressive card shows the first row with the largest profit
    among the rows with at least 10 trades, or among all rows when no row
    has 10 trades (missing profits and trade counts read as 0). *)
Theorem aggressive_card_best_profit (quantile : list float -> float -> float)
    (d : DataFrame) (param_cols : list string) :
  cards_ready d param_cols = true -> 0 < df_len d ->
  exists i others,
    build_suggestion_cards quantile d param_cols
    = Ok (mkCard AggressiveTitle (strategy_body d param_cols i) :: others)
    /\ first_best F.gtb (objective d "Profit") (aggressive_pool d) i.
Proof.
  intros Hready Hn.
  destruct (build_suggestion_cards_rows quantile d param_cols Hready Hn)
    as (i_aggr & i_bal & i_cons & card4 & E & Ha & _).
  exists i_aggr. eexists. split; [exact E|exact Ha].
Qed.

Lemma aggressive_card_best_profit_witness :
  (cards_ready scenario_abc_scored ["inpPeriod"] = true
   /\ 0 < df_len scenario_abc_scored)
  /\ exists i others,
       build_suggestion_cards quantile_lower scenario_abc_scored ["inpPeriod"]
       = Ok (mkCard AggressiveTitle (strategy_body scenario_abc_scored ["inpPeriod"] i)
               :: others)
       /\ first_best F.gtb (objective scenario_abc_scored "Profit")
            (aggressive_pool scenario_abc_scored) i.
Proof.
  split; [split; [reflexivity|simpl; lia]|].
  apply (aggressive_card_best_profit quantile_lower scenario_abc_scored ["inpPeriod"]);
    [reflexivity|simpl; lia].
Defined.

(** X8. The Balanced card shows a row whose default score comes first in
    the descending order of scores (undefined scores last): no row of the
    table is ranked strictly before it. *)
Theorem balanced_card_top_score (quantile : list float -> float -> float)
    (d : DataFrame) (param_cols : list string) :
  cards_ready d param_cols = true -> 0 < df_len d ->
  exists i card1 others,
    build_suggestion_cards quantile d param_cols
    = Ok (card1 :: mkCard BalancedTitle (strategy_body d param_cols i) :: others)
    /\ i < df_len d
    /\ forall j, j < df_len d -> comes_before (score_of d i) (score_of d j) = true.
Proof.
  intros Hready Hn.
  destruct (build_suggestion_cards_rows quantile d param_cols Hready Hn)
    as (i_aggr & i_bal & i_cons & card4 & E & _ & [Hlt Hb] & _).
  exists i_bal. eexists. eexists. split; [exact E|]. split; [exact Hlt|exact Hb].
Qed.

Lemma balanced_card_top_score_witness :
  (cards_ready scenario_abc_scored ["inpPeriod"] = true
   /\ 0 < df_len scenario_abc_scored)
  /\ exists i card1 others,
       build_suggestion_cards quantile_lower scenario_abc_scored ["inpPeriod"]
       = Ok (card1 :: mkCard BalancedTitle (strategy_body scenario_abc_scored ["inpPeriod"] i)
               :: others)
       /\ i < df_len scenario_abc_scored
       /\ forall j, j < df_len scenario_abc_scored ->
            comes_before (score_of scenario_abc_scored i) (score_of scenario_abc_scored j)
            = true.
Proof.
  split; [split; [reflexivity|simpl; lia]|].
  apply (balanced_card_top_score quantile_lower scenario_abc_scored ["inpPeriod"]);
    [reflexivity|simpl; lia].
Defined.

(** X9. The Conservative card shows the first row with the smallest
    drawdown among the rows with positive profit and positive Sharpe
    ratio, or among all rows when there is no such row. *)
Theorem conservative_card_least_drawdown (quantile : list float -> float -> float)
    (d : DataFrame) (param_cols : list string) :
  cards_ready d param_cols = true -> 0 < df_len d ->
  exists i card1 card2 others,
    build_suggestion_cards quantile d param_cols
    = Ok (card1 :: card2
            :: mkCard ConservativeTitle (strategy_body d param_cols i) :: others)
    /\ first_best PrimFloat.ltb (objective d "Equity DD %") (conservative_pool d) i.
Proof.
  intros Hready Hn.
  destruct (build_suggestion_cards_rows quantile d param_cols Hready Hn)
    as (i_aggr & i_bal & i_cons & card4 & E & _ & _ & Hc & _).
  exists i_cons. eexists. eexists. eexists. split; [exact E|exact Hc].
Qed.

Lemma conservative_card_least_drawdown_witness :
  (cards_ready scenario_abc_scored ["inpPeriod"] = true
   /\ 0 < df_len scenario_abc_scored)
  /\ exists i card1 card2 others,
       build_suggestion_cards quantile_lower scenario_abc_scored ["inpPeriod"]
       = Ok (card1 :: card2
               :: mkCard ConservativeTitle
                    (strategy_body scenario_abc_scored ["inpPeriod"] i) :: others)
       /\ first_best PrimFloat.ltb (objective scenario_abc_scored "Equity DD %")
            (conservative_pool scenario_abc_scored) i.
Proof.
  split; [split; [reflexivity|simpl; lia]|].
  apply (conservative_card_least_drawdown quantile_lower scenario_abc_scored
           ["inpPeriod"]); [reflexivity|simpl; lia].
Defined.

(** ** The report as a whole *)

Lemma mask_list_length_le {A : Type} (xs : list A) (mask : list bool) :
  length (mask_list xs mask) <= length xs.
Proof.
  revert mask. induction xs as [|x xs IH]; intros [|b mask]; simpl; try lia.
  destruct b; simpl; specialize (IH mask); lia.
Qed.

Lemma count_true_le (mask : list bool) : count_true mask <= length mask.
Proof. unfold count_true. apply filter_length_le. Qed.

Lemma count_true_pos (mask : list bool) : In true mask -> 1 <= count_true mask.
Proof.
  intros H. unfold count_true.
  assert (Hin : In true (filter (fun b => b) mask)) by (apply filter_In; auto).
  destruct (filter (fun b => b) mask); [destruct Hin|simpl; lia].
Qed.

Lemma rmap_length {A B : Type} (f : A -> result B) (xs : list A) (ys : list B) :
  rmap f xs = Ok ys -> length ys = length xs.
Proof.
  revert ys. induction xs as [|x xs IH]; intros ys; cbn [rmap].
  - intros E. injection E as <-. reflexivity.
  - destruct (f x) as [y|]; [|discriminate]. cbn [rbind].
    destruct (rmap f xs) as [ys'|]; [|discriminate]. cbn [rbind].
    intros E. injection E as <-. simpl. rewrite (IH ys' eq_refl). reflexivity.
Qed.

Lemma rmap_ok {A B : Type} (f : A -> result B) (xs : list A) :
  (forall x, In x xs -> exists y, f x = Ok y) -> exists ys, rmap f xs = Ok ys.
Proof.
  induction xs as [|x xs IH]; intros H; cbn [rmap]; [eauto|].
  destruct (H x (or_introl eq_refl)) as [y ->]. cbn [rbind].
  destruct IH as [ys ->]; [intros x' Hx'; apply H; right; exact Hx'|].
  cbn [rbind]. eauto.
Qed.

Lemma fillna_ok_present (d : DataFrame) (c : string) (xs : list float) :
  fillna (to_numeric (df_get d c 0)) 0 = Ok xs -> has_col c d = true.
Proof.
  intros E. destruct (has_col c d) eqn:H; [reflexivity|].
  rewrite (fillna_absent d c H) in E. discriminate.
Qed.

(** The row filter keeps the columns and removes rows only. *)
Lemma filtered_frame (d : DataFrame) :
  wf_frame d = true ->
  exists d1,
    filtered d = Ok d1
    /\ wf_frame d1 = true
    /\ df_len d1 <= df_len d
    /\ forall c, has_col c d1 = has_col c d.
Proof.
  intros Hwf. unfold filtered. destruct (has_col "Trades" d) eqn:Ht.
  - apply has_col_lookup in Ht. destruct Ht as [s Hs].
    unfold df_col. rewrite Hs. cbn [rbind].
    exists (df_mask d (trades_mask s)).
    split; [reflexivity|]. split; [|split].
    + rewrite (df_mask_take d _ Hwf). apply wf_frame_take, Hwf.
    + unfold df_mask. cbn [df_len].
      pose proof (mask_list_length_le (seq 0 (df_len d)) (trades_mask s)) as H.
      rewrite length_seq in H. exact H.
    + intros c. apply has_col_mask.
  - exists d. auto.
Qed.

Section WholeReport.

Variable fsum : list float -> float.
Variable quantile : list float -> float -> float.

Lemma z_columns_keeps_columns (d dz : DataFrame) (c : string) :
  wf_frame d = true -> z_columns fsum METRIC_DEF d = Ok dz ->
  has_col c d = true -> has_col c dz = true.
Proof.
  intros Hwf E Hc.
  destruct (z_columns_metrics fsum d Hwf) as (dz' & E' & _ & _ & Hz & Hother).
  assert (dz' = dz) by congruence. subst dz'.
  rewrite has_col_match in *.
  destruct (is_z_name c) eqn:Hzn.
  - unfold is_z_name in Hzn. apply existsb_exists in Hzn.
    destruct Hzn as ([key [col zcol]] & Hin & Heq). cbn [fst snd] in Heq.
    apply String.eqb_eq in Heq. subst c. rewrite (Hz key col zcol Hin).
    destruct (lookup col (df_cols d)); [reflexivity|exact Hc].
  - rewrite (Hother c Hzn). exact Hc.
Qed.

(** The counters of a report follow the table it is made from. *)
Lemma report_of_scored_counters (d : DataFrame) (param_cols : list string) (rep : Report) :
  (forall s, lookup "Profit" (df_cols d) = Some s -> length s = df_len d) ->
  report_of_scored quantile d param_cols = Ok rep ->
  total_runs rep = df_len d
  /\ length (raw_records rep) = df_len d
  /\ valid_count rep <= df_len d
  /\ pareto_count rep <= df_len d
  /\ (0 < df_len d -> 1 <= pareto_count rep)
  /\ param_count rep = length param_cols
  /\ length (param_ranges rep) = length param_cols.
Proof.
  intros Hwf. unfold report_of_scored.
  destruct (compute_pareto d) as [flags|] eqn:Ep; [|discriminate]. cbn [rbind].
  set (d' := df_set d "Is_Pareto" (map CBool flags)).
  destruct (fillna (to_numeric (df_get d' "Profit" 0)) 0) as [profit|] eqn:Ef;
    [|discriminate]. cbn [rbind].
  destruct (rmap (param_range d') param_cols) as [ranges|] eqn:Er; [|discriminate].
  cbn [rbind].
  destruct (build_suggestion_cards quantile d' param_cols) as [cards|]; [|discriminate].
  cbn [rbind]. intros E. injection E as <-. cbn.
  assert (Hflags : flags = map (fun i => negb (dominated d i)) (seq 0 (df_len d))).
  { assert (Hc : df_len d = 0 \/ objectives_present d = true).
    { destruct (Nat.eqb_spec (df_len d) 0) as [E0|Hne]; [left; exact E0|right].
      revert Ep. unfold compute_pareto.
      destruct (Nat.eqb_spec (df_len d) 0) as [E0|_]; [contradiction|].
      unfold objectives_present.
      destruct (fillna (to_numeric (df_get d "Profit" 0)) 0) eqn:E1; [|discriminate].
      destruct (fillna (to_numeric (df_get d "Sharpe Ratio" 0)) 0) eqn:E2;
        [|discriminate].
      destruct (fillna (to_numeric (df_get d "Equity DD %" 0)) 0) eqn:E3;
        [|discriminate].
      intros _. rewrite (fillna_ok_present _ _ _ E1), (fillna_ok_present _ _ _ E2),
        (fillna_ok_present _ _ _ E3). reflexivity. }
    rewrite (compute_pareto_char d Hc) in Ep. congruence. }
  assert (Hprofit : length profit = df_len d).
  { pose proof (fillna_ok_present _ _ _ Ef) as Hhas.
    apply has_col_lookup in Hhas. destruct Hhas as [s Hs].
    rewrite (fillna_lookup d' _ s Hs) in Ef. injection Ef as <-.
    unfold to_numeric_series. rewrite !length_map.
    unfold d' in Hs. rewrite lookup_df_set in Hs. cbn in Hs.
    apply Hwf, Hs. }
  split; [reflexivity|]. split; [unfold to_records; rewrite length_map, length_seq;
                                 reflexivity|].
  split; [etransitivity; [apply count_true_le|rewrite length_map, Hprofit; reflexivity]|].
  split; [etransitivity; [apply count_true_le|
                          rewrite Hflags, length_map, length_seq; reflexivity]|].
  split; [|split; [reflexivity|exact (rmap_length _ _ _ Er)]].
  intros Hn. apply count_true_pos. rewrite Hflags.
  destruct (undominated_row d (seq 0 (df_len d))) as (m & Hm & Hmax).
  { destruct (df_len d); [lia|discriminate]. }
  apply in_map_iff. exists m. split; [|exact Hm].
  apply negb_true_iff, dominated_iff. intros j Hj _. apply Hmax, in_seq. lia.
Qed.

End WholeReport.

Section ReportCounters.

Variable fsum : list float -> float.
Variable quantile : list float -> float -> float.

(** X10. Whenever [generate_report] returns, its counters fit together:
    [total_runs] is the number of records handed to the page and is at most
    the number of rows of the input, the profitable and the Pareto counts
    are at most [total_runs], the Pareto count is at least 1 as soon as one
    row is left, and there is one parameter range per parameter column. *)
Theorem report_counters_consistent (h : heap) (l : ref) (d : DataFrame)
    (param_cols : list string) (rep : Report) :
  nth_error h l = Some d ->
  wf_frame d = true ->
  fst (generate_report fsum quantile l param_cols h) = Ok rep ->
  total_runs rep <= df_len d
  /\ length (raw_records rep) = total_runs rep
  /\ valid_count rep <= total_runs rep
  /\ pareto_count rep <= total_runs rep
  /\ (0 < total_runs rep -> 1 <= pareto_count rep)
  /\ param_count rep = length param_cols
  /\ length (param_ranges rep) = length param_cols.
Proof.
  intros Hl Hwf. rewrite (generate_report_value fsum quantile h l d param_cols Hl).
  unfold report_value.
  destruct (filtered_frame d Hwf) as (d1 & -> & Hwf1 & Hlen1 & _). cbn [rbind].
  unfold report_of_filtered.
  destruct (z_columns_metrics fsum d1 Hwf1) as (dz & -> & Hwfz & Hlenz & _ & _).
  cbn [rbind]. unfold scored.
  destruct (weighted_sum DEFAULT_WEIGHTS dz (repeat 0%float (df_len dz))) as [score|];
    [|discriminate].
  cbn [rbind]. intros E.
  apply report_of_scored_counters in E.
  - cbn [df_set df_len] in E.
    destruct E as (-> & E2 & E3 & E4 & E5 & E6 & E7).
    repeat (split; [first [lia|assumption]|]). assumption.
  - intros s. rewrite lookup_df_set. cbn. intros Hs.
    rewrite (wf_frame_lookup dz _ s Hwfz Hs). reflexivity.
Qed.

End ReportCounters.

Lemma report_counters_consistent_witness :
  exists rep,
    (nth_error [scenario_abc] 0 = Some scenario_abc
     /\ wf_frame scenario_abc = true
     /\ fst (generate_report sum_left quantile_lower 0 ["inpPeriod"] [scenario_abc])
        = Ok rep)
    /\ total_runs rep <= df_len scenario_abc
    /\ length (raw_records rep) = total_runs rep
    /\ valid_count rep <= total_runs rep
    /\ pareto_count rep <= total_runs rep
    /\ (0 < total_runs rep -> 1 <= pareto_count rep)
    /\ param_count rep = length ["inpPeriod"]
    /\ length (param_ranges rep) = length ["inpPeriod"].
Proof.
  destruct (fst (generate_report sum_left quantile_lower 0 ["inpPeriod"] [scenario_abc]))
    as [rep|e] eqn:E; [|vm_compute in E; discriminate].
  exists rep.
  assert (H0 : nth_error [scenario_abc] 0 = Some scenario_abc) by reflexivity.
  assert (H1 : wf_frame scenario_abc = true) by reflexivity.
  split; [split; [exact H0|split; [exact H1|reflexivity]]|].
  exact (report_counters_consistent sum_left quantile_lower [scenario_abc] 0 scenario_abc
           ["inpPeriod"] rep H0 H1 E).
Defined.

Lemma no_bool_has_bool (b : bool) (s : Series) :
  no_bool_cell s = true -> has_bool b s = false.
Proof.
  induction s as [|c s IH]; simpl; [reflexivity|]. intros H.
  apply andb_true_iff in H. destruct H as [Hc Hs]. rewrite (IH Hs).
  destruct c; simpl in *; try discriminate; reflexivity.
Qed.

Lemma param_range_ok (d : DataFrame) (p : string) (s : Series) :
  lookup p (df_cols d) = Some s ->
  has_bool false s && has_bool true s = false ->
  exists r, param_range d p = Ok r.
Proof.
  intros Hs Hb. unfold param_range, df_col. rewrite Hs. cbn [rbind].
  destruct (boolean_column s); [|eauto]. unfold sorted_bools.
  destruct (has_bool false s), (has_bool true s); try discriminate; cbn; eauto.
Qed.

Lemma no_bool_map_nth (s : Series) (positions : list nat) :
  no_bool_cell s = true ->
  no_bool_cell (map (fun i => nth i s CNone) positions) = true.
Proof.
  intros H. unfold no_bool_cell in *. rewrite forallb_forall in *.
  intros c Hc. apply in_map_iff in Hc. destruct Hc as (i & <- & _).
  destruct (nth_in_or_default i s CNone) as [Hin| ->]; [apply H, Hin|reflexivity].
Qed.

Lemma no_bool_numbers (xs : list float) : no_bool_cell (map CNum xs) = true.
Proof. induction xs as [|x xs IH]; simpl; [reflexivity|exact IH]. Qed.

Lemma no_bool_zvalues (fsum : list float -> float) (s : Series) :
  no_bool_cell (zvalues fsum s) = true.
Proof.
  unfold zvalues. destruct (zscore fsum s); [apply no_bool_numbers|reflexivity].
Qed.

Lemma bool_free_clean (d : DataFrame) (names : list string) :
  bool_free d = true -> clean d names.
Proof.
  unfold bool_free. rewrite forallb_forall. intros H p s _ Hs.
  apply (H (p, s)), lookup_In, Hs.
Qed.

Lemma filtered_clean (d d1 : DataFrame) (names : list string) :
  wf_frame d = true -> filtered d = Ok d1 -> clean d names -> clean d1 names.
Proof.
  intros Hwf. unfold filtered. destruct (has_col "Trades" d) eqn:Ht.
  - apply has_col_lookup in Ht. destruct Ht as [st Hst].
    unfold df_col. rewrite Hst. cbn [rbind]. intros E. injection E as <-.
    rewrite (df_mask_take d _ Hwf). intros Hc p s Hp. rewrite lookup_take.
    destruct (lookup p (df_cols d)) as [s0|] eqn:E0; [|discriminate].
    intros E. injection E as <-. apply no_bool_map_nth. exact (Hc p s0 Hp E0).
  - intros E. injection E as <-. auto.
Qed.

Lemma z_columns_clean (fsum : list float -> float) (d dz : DataFrame)
    (names : list string) :
  wf_frame d = true -> z_columns fsum METRIC_DEF d = Ok dz ->
  clean d names -> clean dz names.
Proof.
  intros Hwf E Hc.
  destruct (z_columns_metrics fsum d Hwf) as (dz' & E' & _ & _ & Hz & Hother).
  assert (dz' = dz) by congruence. subst dz'.
  intros p s Hp. destruct (is_z_name p) eqn:Hzn.
  - unfold is_z_name in Hzn. apply existsb_exists in Hzn.
    destruct Hzn as ([key [col zcol]] & Hin & Heq). cbn [fst snd] in Heq.
    apply String.eqb_eq in Heq. subst p. rewrite (Hz key col zcol Hin).
    destruct (lookup col (df_cols d)) as [s0|].
    + intros E0. injection E0 as <-. apply no_bool_zvalues.
    + apply Hc, Hp.
  - rewrite (Hother p Hzn). apply Hc, Hp.
Qed.

Lemma set_clean (d : DataFrame) (names : list string) (c : string) (s : Series) :
  clean d names -> no_bool_cell s = true \/ ~ In c names ->
  clean (df_set d c s) names.
Proof.
  intros Hc Hs p s' Hp. rewrite lookup_df_set.
  destruct (String.eqb_spec p c) as [->|_]; [|apply Hc, Hp].
  intros E. injection E as <-. destruct Hs as [Hs|Hs]; [exact Hs|contradiction].
Qed.

Lemma has_col_set_keeps (d : DataFrame) (c c' : string) (s : Series) :
  has_col c d = true -> has_col c (df_set d c' s) = true.
Proof. intros H. rewrite has_col_df_set, H. reflexivity. Qed.

Section CompleteTable.

Variable fsum : list float -> float.
Variable quantile : list float -> float -> float.

(** A table with the three objectives, [Trades] and the parameter columns,
    none of them [Is_Pareto] or a column with booleans. *)
Let complete (d : DataFrame) (param_cols : list string) : Prop :=
  wf_frame d = true /\ objectives_present d = true /\ has_col "Trades" d = true
  /\ (forall p, In p param_cols -> has_col p d = true)
  /\ ~ In "Is_Pareto" param_cols /\ clean d param_cols.

Lemma report_of_scored_ok (d : DataFrame) (param_cols : list string) :
  complete d param_cols -> has_col "Score_Weighted" d = true ->
  exists rep,
    report_of_scored quantile d param_cols = Ok rep
    /\ length (suggestion_cards rep) = if df_len d =? 0 then 1 else 4.
Proof.
  intros (Hwf & Hobj & Ht & Hpar & Hip & Hclean) Hsc. unfold report_of_scored.
  rewrite (compute_pareto_char d (or_intror Hobj)). cbn [rbind].
  set (flags := map (fun i => negb (dominated d i)) (seq 0 (df_len d))).
  set (d' := df_set d "Is_Pareto" (map CBool flags)).
  assert (Hwf' : wf_frame d' = true).
  { apply wf_df_set; [exact Hwf|].
    unfold flags. rewrite !length_map, length_seq. reflexivity. }
  assert (Hobj' : objectives_present d' = true).
  { revert Hobj. unfold objectives_present. rewrite !andb_true_iff.
    intros [[H1 H2] H3]. unfold d'. rewrite !has_col_set_keeps by assumption. auto. }
  assert (Hpar' : forall p, In p param_cols -> has_col p d' = true).
  { intros p Hp. apply has_col_set_keeps, Hpar, Hp. }
  assert (Hclean' : clean d' param_cols).
  { apply set_clean; [exact Hclean|right; exact Hip]. }
  assert (Hprofit : has_col "Profit" d' = true).
  { revert Hobj'. unfold objectives_present. rewrite !andb_true_iff. tauto. }
  destruct (fillna_present d' "Profit" Hprofit) as [profit ->]. cbn [rbind].
  destruct (rmap_ok (param_range d') param_cols) as [ranges ->].
  { intros p Hp. pose proof (Hpar' p Hp) as Hhas.
    apply has_col_lookup in Hhas. destruct Hhas as [s Hs].
    apply (param_range_ok d' p s Hs).
    rewrite (no_bool_has_bool false s (Hclean' p s Hp Hs)). reflexivity. }
  cbn [rbind].
  destruct (Nat.eqb_spec (df_len d) 0) as [E0|Hne].
  - unfold build_suggestion_cards. unfold d' at 1. cbn [df_set df_len].
    rewrite E0. cbn [Nat.eqb rbind]. eexists. split; reflexivity.
  - assert (Hready : cards_ready d' param_cols = true).
    { unfold cards_ready. rewrite Hwf', Hobj'. unfold d'.
      rewrite !has_col_set_keeps by assumption. cbn [andb].
      apply forallb_forall. intros p Hp. apply has_col_set_keeps, Hpar, Hp. }
    destruct (build_suggestion_cards_rows quantile d' param_cols Hready)
      as (i1 & i2 & i3 & c4 & -> & _).
    { unfold d'. cbn [df_set df_len]. lia. }
    cbn [rbind]. eexists. split; reflexivity.
Qed.

(** X11. On a table without booleans that has the three objective
    columns, the [Trades] column and the parameter columns, and no z column
    without its source column, with [Is_Pareto] not taken as a parameter,
    [generate_report] does not raise: it returns a report with four
    suggestion cards, or with the single placeholder card when the row
    filter leaves no row. *)
Theorem generate_report_succeeds (h : heap) (l : ref) (d : DataFrame)
    (param_cols : list string) :
  nth_error h l = Some d ->
  wf_frame d = true ->
  bool_free d = true ->
  objectives_present d = true ->
  has_col "Trades" d = true ->
  z_columns_derived d = true ->
  (forall p, In p param_cols -> has_col p d = true) ->
  ~ In "Is_Pareto" param_cols ->
  exists rep,
    fst (generate_report fsum quantile l param_cols h) = Ok rep
    /\ length (suggestion_cards rep) = if total_runs rep =? 0 then 1 else 4.
Proof.
  intros Hl Hwf Hfree Hobj Ht Hder Hpar Hip.
  rewrite (generate_report_value fsum quantile h l d param_cols Hl).
  unfold report_value.
  destruct (filtered_frame d Hwf) as (d1 & E1 & Hwf1 & _ & Hcols1).
  pose proof (filtered_clean d d1 param_cols Hwf E1 (bool_free_clean d _ Hfree))
    as Hclean1.
  rewrite E1. cbn [rbind].
  assert (Hder1 : z_columns_derived d1 = true).
  { revert Hder. unfold z_columns_derived. rewrite !forallb_forall.
    intros H m Hm. rewrite !Hcols1. apply H, Hm. }
  unfold report_of_filtered.
  destruct (normalized_scored fsum d1 Hwf1 Hder1)
    as (dz & scores & Ez & Hwfz & Hlenz & _ & _ & _ & Es & Hls).
  rewrite Ez. cbn [rbind]. rewrite Es. cbn [rbind].
  assert (Hkeep : forall c, has_col c d = true ->
            has_col c (df_set dz "Score_Weighted" (map CNum scores)) = true).
  { intros c Hc. apply has_col_set_keeps.
    apply (z_columns_keeps_columns fsum d1 dz c Hwf1 Ez). rewrite Hcols1. exact Hc. }
  destruct (report_of_scored_ok (df_set dz "Score_Weighted" (map CNum scores)) param_cols)
    as (rep & E & Hcards).
  - split; [apply wf_df_set; [exact Hwfz|rewrite length_map; congruence]|].
    split; [|split; [apply Hkeep, Ht|split; [intros p Hp; apply Hkeep, Hpar, Hp|]]].
    + revert Hobj. unfold objectives_present. rewrite !andb_true_iff.
      intros [[H1 H2] H3]. rewrite !Hkeep by assumption. auto.
    + split; [exact Hip|]. apply set_clean; [|left; apply no_bool_numbers].
      exact (z_columns_clean fsum d1 dz param_cols Hwf1 Ez Hclean1).
  - rewrite has_col_df_set, String.eqb_refl. apply orb_true_r.
  - exists rep. split; [exact E|].
    assert (Htotal : total_runs rep = df_len dz).
    { pose proof E as E'. apply report_of_scored_counters in E'.
      - destruct E' as [-> _]. reflexivity.
      - intros s. rewrite lookup_df_set. cbn. intros Hs.
        rewrite (wf_frame_lookup dz _ s Hwfz Hs). reflexivity. }
    rewrite Htotal. exact Hcards.
Qed.

End CompleteTable.

Lemma generate_report_succeeds_witness :
  (nth_error [scenario_abc] 0 = Some scenario_abc
   /\ wf_frame scenario_abc = true
   /\ bool_free scenario_abc = true
   /\ objectives_present scenario_abc = true
   /\ has_col "Trades" scenario_abc = true
   /\ z_columns_derived scenario_abc = true
   /\ (forall p, In p ["inpPeriod"] -> has_col p scenario_abc = true)
   /\ ~ In "Is_Pareto" ["inpPeriod"])
  /\ exists rep,
       fst (generate_report sum_left quantile_lower 0 ["inpPeriod"] [scenario_abc])
       = Ok rep
       /\ length (suggestion_cards rep) = if total_runs rep =? 0 then 1 else 4.
Proof.
  assert (Hpar : forall p, In p ["inpPeriod"] -> has_col p scenario_abc = true).
  { intros p [<-|[]]. reflexivity. }
  assert (Hip : ~ In "Is_Pareto" ["inpPeriod"]).
  { intros [H|[]]. discriminate. }
  split; [repeat (split; [reflexivity|]); split; [exact Hpar|exact Hip]|].
  apply (generate_report_succeeds sum_left quantile_lower [scenario_abc] 0
           scenario_abc ["inpPeriod"]); try reflexivity; assumption.
Defined.

(** ** Parameter ranges *)

Lemma feqb_refl (x : float) : isnan x = false -> (x =? x)%float = true.
Proof.
  intros Hx. destruct (notnan_place x Hx) as [a Ha].
  pose proof (float_compare_place x x) as H. rewrite Ha in H. apply H. reflexivity.
Qed.

Lemma feqb_trans_sym (x y z : float) :
  (x =? y)%float = true -> (z =? y)%float = true -> (x =? z)%float = true.
Proof.
  intros H1 H2.
  pose proof (float_compare_place x y) as Hxy.
  pose proof (float_compare_place z y) as Hzy.
  pose proof (float_compare_place x z) as Hxz.
  destruct (F.fplace x) as [a|], (F.fplace y) as [b|], (F.fplace z) as [c|];
    try (destruct Hxy as (_ & _ & Hxy); congruence);
    try (destruct Hzy as (_ & _ & Hzy); congruence).
  destruct Hxy as (_ & _ & Hxy), Hzy as (_ & _ & Hzy), Hxz as (_ & _ & Hxz).
  apply Hxz. apply Hxy in H1. apply Hzy in H2. congruence.
Qed.

Lemma feqb_sym (x y : float) : (x =? y)%float = true -> (y =? x)%float = true.
Proof.
  intros H. apply (feqb_trans_sym y y x); [|exact H].
  destruct (feqb_leb _ _ H) as [Hle _]. apply feqb_refl, (fleb_notnan _ _ Hle).
Qed.

Lemma unique_incl (xs : list float) (x : float) : In x (unique xs) -> In x xs.
Proof.
  induction xs as [|a rest IH]; cbn [unique]; [auto|].
  intros [<-|H]; [left; reflexivity|right].
  apply filter_In in H. apply IH, H.
Qed.

Lemma unique_covers (xs : list float) (x : float) :
  isnan x = false -> In x xs ->
  exists x', In x' (unique xs) /\ (x' =? x)%float = true.
Proof.
  intros Hx. induction xs as [|a rest IH]; [intros []|].
  cbn [unique]. intros [->|H].
  - exists x. split; [left; reflexivity|apply feqb_refl, Hx].
  - destruct (IH H) as (x' & Hin & Heq).
    destruct (x' =? a)%float eqn:E.
    + exists a. split; [left; reflexivity|].
      apply (feqb_trans_sym a x' x); apply feqb_sym; assumption.
    + exists x'. split; [|exact Heq].
      right. apply filter_In. split; [exact Hin|rewrite E; reflexivity].
Qed.

Lemma insert_asc_perm (x : float) (l : list float) :
  Permutation (insert_asc x l) (x :: l).
Proof.
  induction l as [|y l IH]; cbn [insert_asc]; [reflexivity|].
  destruct (y <? x)%float; [|reflexivity].
  rewrite IH. apply perm_swap.
Qed.

Lemma sorted_perm (xs : list float) : Permutation (sorted xs) xs.
Proof.
  unfold sorted. induction xs as [|x xs IH]; cbn [fold_right]; [reflexivity|].
  rewrite insert_asc_perm. apply perm_skip, IH.
Qed.

Lemma insert_asc_sorted (x : float) (l : list float) :
  isnan x = false -> Forall (fun y => isnan y = false) l ->
  StronglySorted (fun a b => (a <=? b)%float = true) l ->
  StronglySorted (fun a b => (a <=? b)%float = true) (insert_asc x l).
Proof.
  intros Hx Hl Hs. induction Hs as [|y l Hs IH Hall]; cbn [insert_asc].
  - constructor; constructor.
  - inversion Hl as [|? ? Hy Hl']; subst.
    destruct (y <? x)%float eqn:E.
    + constructor; [apply IH, Hl'|].
      apply Forall_forall. intros z Hz.
      apply (Permutation_in _ (insert_asc_perm x l)) in Hz. destruct Hz as [<-|Hz].
      * apply fltb_leb, E.
      * rewrite Forall_forall in Hall. apply Hall, Hz.
    + assert (Hxy : (x <=? y)%float = true).
      { destruct (fleb_total x y Hx Hy) as [H|H]; [exact H|congruence]. }
      constructor; [constructor; assumption|].
      constructor; [exact Hxy|].
      rewrite Forall_forall in *. intros z Hz.
      apply (fleb_trans x y z Hxy), Hall, Hz.
Qed.

Lemma sorted_ascending (xs : list float) :
  Forall (fun y => isnan y = false) xs ->
  StronglySorted (fun a b => (a <=? b)%float = true) (sorted xs).
Proof.
  unfold sorted. induction 1 as [|x xs Hx Hxs IH]; cbn [fold_right]; [constructor|].
  apply insert_asc_sorted; [exact Hx| |exact IH].
  rewrite Forall_forall in *. intros y Hy. apply Hxs.
  apply (Permutation_in _ (sorted_perm xs)), Hy.
Qed.

Lemma sorted_first {A : Type} (R : A -> A -> Prop) (l : list A) (lo : A) :
  StronglySorted R l -> hd_error l = Some lo ->
  forall x, In x l -> x = lo \/ R lo x.
Proof.
  intros Hs. destruct Hs as [|a l Hs Hall]; [discriminate|].
  cbn [hd_error]. intros E. injection E as <-.
  intros x [<-|Hx]; [left; reflexivity|right].
  rewrite Forall_forall in Hall. apply Hall, Hx.
Qed.

Lemma sorted_last {A : Type} (R : A -> A -> Prop) (l : list A) (hi : A) :
  StronglySorted R l -> hd_error (rev l) = Some hi ->
  In hi l /\ forall x, In x l -> x = hi \/ R x hi.
Proof.
  intros Hs. revert hi. induction Hs as [|a l Hs IH Hall]; intros hi; [discriminate|].
  cbn [rev]. destruct (rev l) as [|b tl] eqn:E.
  - assert (l = []) by (destruct l; [reflexivity|]; apply (f_equal (@length A)) in E;
                        rewrite length_rev in E; discriminate).
    subst l. cbn. intros H. injection H as <-.
    split; [left; reflexivity|]. intros x [<-|[]]. left. reflexivity.
  - cbn [app hd_error]. intros H. injection H as <-.
    destruct (IH b eq_refl) as [Hin Hle]. split; [right; exact Hin|].
    intros x [<-|Hx]; [right|apply Hle, Hx].
    rewrite Forall_forall in Hall. apply Hall, Hin.
Qed.

Lemma dropna_notnan (xs : list float) : Forall (fun y => isnan y = false) (dropna xs).
Proof.
  apply Forall_forall. intros y Hy. apply filter_In in Hy.
  destruct Hy as [_ Hy]. apply negb_true_iff, Hy.
Qed.

Lemma filter_none {A : Type} (f : A -> bool) (l : list A) :
  (forall x, In x l -> f x = false) -> filter f l = [].
Proof.
  induction l as [|a l IH]; intros H; simpl; [reflexivity|].
  rewrite (H a (or_introl eq_refl)). apply IH. intros x Hx. apply H. right. exact Hx.
Qed.

Lemma unique_single (xs : list float) :
  (forall x y, In x xs -> In y xs -> (x =? y)%float = true) ->
  length (unique xs) <= 1.
Proof.
  destruct xs as [|a rest]; [simpl; lia|]. intros H. cbn [unique].
  assert (E : filter (fun y => negb (y =? a)%float) (unique rest) = []).
  { apply filter_none. intros y Hy. apply negb_false_iff.
    apply H; [right; apply unique_incl, Hy|left; reflexivity]. }
  rewrite E. simpl. lia.
Qed.

(** X12. The range of a parameter column that is in the table. For a
    column that is not made of booleans, the minimum and the maximum are
    numeric values of the column and bound all its numeric values, a column
    without numeric value has neither, and the step is 0 when the column
    has fewer than two distinct numeric values. For a column of booleans
    with both values the subtraction of the step raises [TypeError]; with
    one value, that value is the minimum and the maximum and the step is
    0. *)
Theorem param_range_bounds (d : DataFrame) (p : string) (s : Series) :
  lookup p (df_cols d) = Some s ->
  (boolean_column s = false ->
   exists r,
     param_range d p = Ok r
     /\ pr_name r = strip_inp p
     /\ (dropna (to_numeric_series s) = [] -> pr_min r = None /\ pr_max r = None)
     /\ (forall x, In x (dropna (to_numeric_series s)) ->
           exists lo hi,
             pr_min r = Some (CNum lo) /\ pr_max r = Some (CNum hi)
             /\ In lo (dropna (to_numeric_series s))
             /\ In hi (dropna (to_numeric_series s))
             /\ (lo <=? x)%float = true /\ (x <=? hi)%float = true)
     /\ ((forall x y, In x (dropna (to_numeric_series s)) ->
                      In y (dropna (to_numeric_series s)) -> (x =? y)%float = true) ->
         pr_step r = Some 0%float))
  /\ (boolean_column s = true ->
      (In (CBool false) s -> In (CBool true) s -> param_range d p = Raise TypeError)
      /\ (forall b, In (CBool b) s -> ~ In (CBool (negb b)) s ->
            param_range d p
            = Ok (mkParamRange (strip_inp p) (Some (CBool b)) (Some (CBool b))
                    (Some 0%float)))).
Proof.
  intros Hs. split.
  - intros Hb. unfold param_range, df_col. rewrite Hs. cbn [rbind]. rewrite Hb.
    set (vals := dropna (to_numeric_series s)).
    eexists. split; [reflexivity|]. cbn [pr_name pr_min pr_max pr_step].
    split; [reflexivity|].
    assert (Hnan : Forall (fun y => isnan y = false) (unique vals)).
    { apply Forall_forall. intros y Hy. apply unique_incl in Hy.
      pose proof (dropna_notnan (to_numeric_series s)) as H.
      rewrite Forall_forall in H. apply H, Hy. }
    pose proof (sorted_ascending (unique vals) Hnan) as Hsorted.
    pose proof (sorted_perm (unique vals)) as Hperm.
    assert (Hback : forall y, In y (sorted (unique vals)) -> In y vals /\ isnan y = false).
    { intros y Hy. apply (Permutation_in _ Hperm) in Hy. split.
      - apply unique_incl, Hy.
      - rewrite Forall_forall in Hnan. apply Hnan, Hy. }
    split; [|split].
    + intros E. rewrite E. split; reflexivity.
    + intros x Hx.
      assert (Hxn : isnan x = false).
      { pose proof (dropna_notnan (to_numeric_series s)) as H.
        rewrite Forall_forall in H. apply H, Hx. }
      destruct (unique_covers vals x Hxn Hx) as (x' & Hx' & Heq).
      apply (Permutation_in _ (Permutation_sym Hperm)) in Hx'.
      destruct (feqb_leb _ _ Heq) as [Hle1 Hle2].
      destruct (hd_error (sorted (unique vals))) as [lo|] eqn:Elo.
      2:{ destruct (sorted (unique vals)); [destruct Hx'|discriminate]. }
      destruct (hd_error (rev (sorted (unique vals)))) as [hi|] eqn:Ehi.
      2:{ destruct (sorted (unique vals)) as [|a l]; [destruct Hx'|].
          cbn [rev] in Ehi. destruct (rev l); discriminate. }
      exists lo, hi. split; [reflexivity|]. split; [reflexivity|].
      destruct (sorted_last _ _ hi Hsorted Ehi) as [Hhi Hmax].
      assert (Hlo : In lo (sorted (unique vals))).
      { destruct (sorted (unique vals)); [discriminate|].
        injection Elo as <-. left. reflexivity. }
      split; [apply Hback, Hlo|]. split; [apply Hback, Hhi|]. split.
      * destruct (sorted_first _ _ lo Hsorted Elo x' Hx') as [->|H].
        -- exact Hle1.
        -- eapply fleb_trans; eauto.
      * destruct (Hmax x' Hx') as [->|H].
        -- exact Hle2.
        -- eapply fleb_trans; eauto.
    + intros Hall. pose proof (unique_single vals Hall) as Hlen.
      rewrite <- (Permutation_length Hperm) in Hlen.
      destruct (sorted (unique vals)) as [|v0 [|v1 rest]]; try reflexivity.
      simpl in Hlen. lia.
  - intros Hb.
    assert (Hhas : forall b, has_bool b s = true <-> In (CBool b) s).
    { intros b. unfold has_bool. rewrite existsb_exists. split.
      - intros (c & Hc & E). destruct c as [| |b'|]; try discriminate.
        apply Bool.eqb_prop in E. subst b'. exact Hc.
      - intros H. exists (CBool b). split; [exact H|apply Bool.eqb_reflx]. }
    unfold param_range, df_col. rewrite Hs. cbn [rbind]. rewrite Hb.
    unfold sorted_bools. split.
    + intros Hf Ht. apply Hhas in Hf, Ht. rewrite Hf, Ht. reflexivity.
    + intros b Hin Hnot. apply Hhas in Hin.
      assert (Hn : has_bool (negb b) s = false).
      { destruct (has_bool (negb b) s) eqn:E; [|reflexivity].
        apply Hhas in E. contradiction. }
      destruct b; cbn [negb] in Hn; rewrite Hin, Hn; reflexivity.
Qed.

Lemma param_range_bounds_witness :
  (lookup "inpPeriod" (df_cols flagged_table) = Some [CNum 10; CNum 20; CNum 30]
   /\ boolean_column [CNum 10; CNum 20; CNum 30] = false
   /\ exists r,
        param_range flagged_table "inpPeriod" = Ok r
        /\ pr_min r = Some (CNum 10) /\ pr_max r = Some (CNum 30))
  /\ (lookup "Is_Pareto" (df_cols flagged_table)
      = Some [CBool true; CBool true; CBool false]
      /\ boolean_column [CBool true; CBool true; CBool false] = true
      /\ param_range flagged_table "Is_Pareto" = Raise TypeError)
  /\ (lookup "Use" (df_cols flagged_table) = Some [CBool true; CBool true; CBool true]
      /\ boolean_column [CBool true; CBool true; CBool true] = true
      /\ param_range flagged_table "Use"
         = Ok (mkParamRange "Use" (Some (CBool true)) (Some (CBool true)) (Some 0%float))).
Proof.
  split; [|split].
  - split; [reflexivity|]. split; [reflexivity|].
    destruct (proj1 (param_range_bounds flagged_table "inpPeriod"
                       [CNum 10; CNum 20; CNum 30] eq_refl) eq_refl)
      as (r & E & _ & _ & Hbounds & _).
    exists r. split; [exact E|].
    destruct (Hbounds 20%float) as (lo & hi & Hlo & Hhi & _); [simpl; auto|].
    vm_compute in E. injection E as <-. split; reflexivity.
  - split; [reflexivity|]. split; [reflexivity|].
    apply (proj2 (param_range_bounds flagged_table "Is_Pareto"
                    [CBool true; CBool true; CBool false] eq_refl) eq_refl);
      simpl; auto.
  - split; [reflexivity|]. split; [reflexivity|].
    apply (proj2 (proj2 (param_range_bounds flagged_table "Use"
                           [CBool true; CBool true; CBool true] eq_refl) eq_refl)
             true); [simpl; auto|].
    simpl. intros [H|[H|[H|[]]]]; discriminate.
Defined.

(** ** The metrics offered by the page *)

Lemma filter_ext_in_eq {A : Type} (f g : A -> bool) (l : list A) :
  (forall x, In x l -> f x = g x) -> filter f l = filter g l.
Proof.
  induction l as [|a l IH]; intros H; simpl; [reflexivity|].
  rewrite (H a (or_introl eq_refl)), IH; [reflexivity|].
  intros x Hx. apply H. right. exact Hx.
Qed.

Lemma METRIC_DEF_not_added (key col zcol : string) :
  In (key, (col, zcol)) METRIC_DEF ->
  String.eqb col "Score_Weighted" = false /\ String.eqb col "Is_Pareto" = false
  /\ String.eqb zcol "Score_Weighted" = false /\ String.eqb zcol "Is_Pareto" = false.
Proof.
  intros H. repeat (destruct H as [H|H]; [injection H as <- <- <-; auto|]). destruct H.
Qed.

Section MetricsOffered.

Variable fsum : list float -> float.
Variable quantile : list float -> float -> float.

Lemma report_of_scored_config (d : DataFrame) (param_cols : list string) (rep : Report) :
  report_of_scored quantile d param_cols = Ok rep ->
  exists flags,
    metrics_config rep = metrics_config_of (df_set d "Is_Pareto" (map CBool flags))
    /\ raw_records rep = to_records (df_set d "Is_Pareto" (map CBool flags)).
Proof.
  unfold report_of_scored.
  destruct (compute_pareto d) as [flags|]; [|discriminate]. cbn [rbind].
  destruct (fillna _ 0) as [profit|]; [|discriminate]. cbn [rbind].
  destruct (rmap _ param_cols) as [ranges|]; [|discriminate]. cbn [rbind].
  destruct (build_suggestion_cards quantile _ param_cols) as [cards|]; [|discriminate].
  cbn [rbind]. intros E. injection E as <-. exists flags. split; reflexivity.
Qed.

(** X13. The page offers exactly the metrics whose source column is in
    the table given to [generate_report], when the table has no z column
    without its source column. *)
Theorem metrics_offered_by_source (h : heap) (l : ref) (d : DataFrame)
    (param_cols : list string) (rep : Report) :
  nth_error h l = Some d ->
  wf_frame d = true ->
  z_columns_derived d = true ->
  fst (generate_report fsum quantile l param_cols h) = Ok rep ->
  metrics_config rep = filter (fun m => has_col (fst (snd m)) d) METRIC_DEF.
Proof.
  intros Hl Hwf Hder. rewrite (generate_report_value fsum quantile h l d param_cols Hl).
  unfold report_value.
  destruct (filtered_frame d Hwf) as (d1 & -> & Hwf1 & _ & Hcols1). cbn [rbind].
  assert (Hder1 : z_columns_derived d1 = true).
  { revert Hder. unfold z_columns_derived. rewrite !forallb_forall.
    intros H m Hm. rewrite !Hcols1. apply H, Hm. }
  unfold report_of_filtered.
  destruct (z_columns_metrics fsum d1 Hwf1) as (dz & Ez & Hwfz & _ & Hz & Hother).
  rewrite Ez. cbn [rbind]. unfold scored.
  destruct (weighted_sum DEFAULT_WEIGHTS dz (repeat 0%float (df_len dz))) as [score|];
    [|discriminate].
  cbn [rbind]. intros E. apply report_of_scored_config in E.
  destruct E as (flags & -> & _). unfold metrics_config_of.
  apply filter_ext_in_eq. intros [key [col zcol]] Hin. cbn [fst snd].
  destruct (METRIC_DEF_not_added key col zcol Hin) as (E1 & E2 & E3 & E4).
  rewrite !has_col_df_set, E1, E2, E3, E4, !orb_false_r.
  rewrite <- Hcols1, !has_col_match.
  rewrite (Hz key col zcol Hin), (Hother col (source_not_z_name key col zcol Hin)).
  destruct (lookup col (df_cols d1)) eqn:Ec; [reflexivity|].
  rewrite (derived_absent d1 key col zcol Hder1 Hin Ec). reflexivity.
Qed.

End MetricsOffered.

Lemma metrics_offered_by_source_witness :
  exists rep,
    (nth_error [gap_table] 0 = Some gap_table
     /\ wf_frame gap_table = true
     /\ z_columns_derived gap_table = true
     /\ fst (generate_report sum_left quantile_lower 0 [] [gap_table]) = Ok rep)
    /\ metrics_config rep = filter (fun m => has_col (fst (snd m)) gap_table) METRIC_DEF.
Proof.
  destruct (fst (generate_report sum_left quantile_lower 0 [] [gap_table]))
    as [rep|e] eqn:E; [|vm_compute in E; discriminate].
  exists rep.
  assert (H0 : nth_error [gap_table] 0 = Some gap_table) by reflexivity.
  assert (H1 : wf_frame gap_table = true) by reflexivity.
  assert (H2 : z_columns_derived gap_table = true) by reflexivity.
  split; [split; [exact H0|split; [exact H1|split; [exact H2|reflexivity]]]|].
  exact (metrics_offered_by_source sum_left quantile_lower [gap_table] 0 gap_table []
           rep H0 H1 H2 E).
Defined.

(** ** The script: which weights a score depends on *)

Section ScriptWeights.

Variable StringToNumber : string -> float.

Lemma row_score_ext (weights weights' : list (string * float))
    (cfg : list (string * (string * string))) (row : Row) :
  (forall key, In key (map fst cfg) -> lookup key weights = lookup key weights') ->
  row_score StringToNumber weights cfg row = row_score StringToNumber weights' cfg row.
Proof.
  intros H.
  assert (Hw : forall kc, In kc cfg ->
            weight_or_zero weights (fst kc) = weight_or_zero weights' (fst kc)).
  { intros kc Hkc. unfold weight_or_zero. rewrite (H (fst kc)); [reflexivity|].
    apply in_map, Hkc. }
  clear H. unfold row_score. generalize 0%float.
  induction cfg as [|kc cfg IH]; intros s; [reflexivity|].
  cbn [fold_left]. rewrite (Hw kc (or_introl eq_refl)).
  apply IH. intros kc' Hk. apply Hw. right. exact Hk.
Qed.

(** X14. [recomputeScores] reads the weights of the configured metrics
    only: two states of the page that agree on the inputs and weights of
    the metrics in [metricsConfig] give every row the same score. *)
Theorem scores_ignore_unoffered_weights
    (inputs inputs' weights weights' : list (string * float))
    (metricsConfig : list (string * (string * string))) (rawData : list Row) :
  (forall key, In key (map fst metricsConfig) ->
     lookup key inputs = lookup key inputs' /\ lookup key weights = lookup key weights') ->
  snd (recomputeScores StringToNumber inputs weights metricsConfig rawData)
  = snd (recomputeScores StringToNumber inputs' weights' metricsConfig rawData).
Proof.
  intros H. unfold recomputeScores. cbn [snd]. apply map_ext. intros row.
  apply row_score_ext. intros key Hk. destruct (H key Hk) as [Hi Hw].
  rewrite !lookup_read_weights, Hi, Hw. reflexivity.
Qed.

(** X15. Running [recomputeScores] again without touching the inputs
    changes nothing: the weights it stored and the scores are the same. *)
Theorem recomputeScores_again (inputs weights : list (string * float))
    (metricsConfig : list (string * (string * string))) (rawData : list Row) :
  recomputeScores StringToNumber inputs
    (fst (recomputeScores StringToNumber inputs weights metricsConfig rawData))
    metricsConfig rawData
  = recomputeScores StringToNumber inputs weights metricsConfig rawData.
Proof.
  unfold recomputeScores. cbn [fst].
  assert (E : read_weights inputs (read_weights inputs weights)
              = read_weights inputs weights).
  { unfold read_weights. rewrite map_map. apply map_ext. intros [k w]. cbn [fst].
    destruct (lookup k inputs) as [v|] eqn:Ev; cbn [fst]; rewrite Ev; reflexivity. }
  rewrite E. reflexivity.
Qed.

End ScriptWeights.

Lemma scores_ignore_unoffered_weights_witness :
  (forall key, In key (map fst [("profit", ("Profit", "z_profit"))]) ->
     lookup key [("profit", 1%float); ("drawdown", 2%float)]
     = lookup key [("profit", 1%float)]
     /\ lookup key DEFAULT_WEIGHTS = lookup key DEFAULT_WEIGHTS)
  /\ snd (recomputeScores (fun _ => nan) [("profit", 1%float); ("drawdown", 2%float)]
            DEFAULT_WEIGHTS [("profit", ("Profit", "z_profit"))]
            (to_records scenario_abc_z))
     = snd (recomputeScores (fun _ => nan) [("profit", 1%float)]
              DEFAULT_WEIGHTS [("profit", ("Profit", "z_profit"))]
              (to_records scenario_abc_z)).
Proof.
  assert (H : forall key, In key (map fst [("profit", ("Profit", "z_profit"))]) ->
     lookup key [("profit", 1%float); ("drawdown", 2%float)]
     = lookup key [("profit", 1%float)]
     /\ lookup key DEFAULT_WEIGHTS = lookup key DEFAULT_WEIGHTS).
  { intros key [<-|[]]. split; reflexivity. }
  split; [exact H|].
  apply (scores_ignore_unoffered_weights (fun _ => nan)
           [("profit", 1%float); ("drawdown", 2%float)] [("profit", 1%float)]
           DEFAULT_WEIGHTS DEFAULT_WEIGHTS [("profit", ("Profit", "z_profit"))]
           (to_records scenario_abc_z) H).
Defined.

(** * The reader *)

Lemma label_eqb_eq (a b : label) : label_eqb a b = true <-> a = b.
Proof.
  destruct a as [x|], b as [y|]; simpl; try (split; [discriminate|discriminate]);
    [|tauto].
  rewrite String.eqb_eq. split; congruence.
Qed.

Lemma label_eqb_refl (a : label) : label_eqb a a = true.
Proof. apply label_eqb_eq. reflexivity. Qed.

Lemma label_eqb_neq (a b : label) : label_eqb a b = false <-> a <> b.
Proof.
  rewrite <- label_eqb_eq. destruct (label_eqb a b); split; congruence.
Qed.

Lemma existsb_label_In (c : label) (l : list label) :
  existsb (label_eqb c) l = true <-> In c l.
Proof.
  rewrite existsb_exists. split.
  - intros (x & Hx & E). apply label_eqb_eq in E. subst. exact Hx.
  - intros H. exists c. split; [exact H|apply label_eqb_refl].
Qed.

(** The keys of a dict after an assignment. *)
Lemma dict_set_keys (k : label) (v : pyval) (d : dict) :
  map fst (dict_set k v d)
  = if existsb (label_eqb k) (map fst d) then map fst d else map fst d ++ [k].
Proof.
  induction d as [|[k' v'] rest IH]; cbn [dict_set map fst existsb]; [reflexivity|].
  destruct (label_eqb k k'); cbn [orb map fst]; [reflexivity|].
  rewrite IH. destruct (existsb (label_eqb k) (map fst rest)); reflexivity.
Qed.

Lemma dict_get_set (k k' : label) (v : pyval) (d : dict) :
  dict_get k (dict_set k' v d) = if label_eqb k k' then Some v else dict_get k d.
Proof.
  induction d as [|[k0 v0] rest IH]; cbn [dict_set dict_get]; [reflexivity|].
  destruct (label_eqb k' k0) eqn:E; cbn [dict_get].
  - apply label_eqb_eq in E. subst k0. destruct (label_eqb k k'); reflexivity.
  - rewrite IH. destruct (label_eqb k k0) eqn:E0; [|reflexivity].
    apply label_eqb_eq in E0. subst k0.
    destruct (label_eqb k k') eqn:E1; [|reflexivity].
    apply label_eqb_eq in E1. subst k'. rewrite label_eqb_refl in E. discriminate.
Qed.

Lemma dict_fold_keys (items : list (label * pyval)) :
  forall d,
    map fst (fold_left (fun d kv => dict_set (fst kv) (snd kv) d) items d)
    = fold_left (fun ks k => if existsb (label_eqb k) ks then ks else ks ++ [k])
        (map fst items) (map fst d).
Proof.
  induction items as [|[k v] rest IH]; intros d; cbn [fold_left map fst snd];
    [reflexivity|].
  rewrite IH, dict_set_keys. reflexivity.
Qed.

Lemma fold_keys_NoDup (hs : list label) :
  forall ks, NoDup ks ->
    NoDup (fold_left (fun ks k => if existsb (label_eqb k) ks then ks else ks ++ [k]) hs ks).
Proof.
  induction hs as [|h hs IH]; intros ks Hks; cbn [fold_left]; [exact Hks|].
  apply IH. destruct (existsb (label_eqb h) ks) eqn:E; [exact Hks|].
  apply NoDup_app; [exact Hks|repeat constructor; intros []|].
  intros x Hx [Ex|[]]. subst x.
  assert (existsb (label_eqb h) ks = true) by (apply existsb_label_In, Hx). congruence.
Qed.

Lemma fold_keys_In (hs : list label) (h : label) :
  forall ks,
    In h (fold_left (fun ks k => if existsb (label_eqb k) ks then ks else ks ++ [k]) hs ks)
    <-> In h ks \/ In h hs.
Proof.
  induction hs as [|a hs IH]; intros ks; cbn [fold_left].
  - simpl. tauto.
  - rewrite IH. destruct (existsb (label_eqb a) ks) eqn:E.
    + apply existsb_label_In in E. simpl. split; [tauto|].
      intros [H|[<-|H]]; auto.
    + rewrite in_app_iff. simpl. tauto.
Qed.

Lemma dict_fold_get_other (items : list (label * pyval)) (k : label) :
  ~ In k (map fst items) ->
  forall d,
    dict_get k (fold_left (fun d kv => dict_set (fst kv) (snd kv) d) items d)
    = dict_get k d.
Proof.
  induction items as [|[k' v'] rest IH]; intros Hk d; cbn [fold_left fst snd];
    [reflexivity|].
  rewrite IH by (intros H; apply Hk; right; exact H).
  rewrite dict_get_set.
  destruct (label_eqb k k') eqn:E; [|reflexivity].
  apply label_eqb_eq in E. subst. exfalso. apply Hk. left. reflexivity.
Qed.

Lemma dict_fold_get (items : list (label * pyval)) (k : label) (v : pyval) :
  NoDup (map fst items) -> In (k, v) items ->
  forall d,
    dict_get k (fold_left (fun d kv => dict_set (fst kv) (snd kv) d) items d) = Some v.
Proof.
  induction items as [|[k' v'] rest IH]; intros Hnd Hin d; [destruct Hin|].
  cbn [fold_left fst snd]. cbn [map fst] in Hnd. inversion Hnd as [|? ? Hk' Hnd']; subst.
  destruct Hin as [E|Hin].
  - injection E as -> ->. rewrite (dict_fold_get_other rest k Hk').
    rewrite dict_get_set, label_eqb_refl. reflexivity.
  - apply IH; assumption.
Qed.

Section ReaderRecords.

Variable strip : string -> string.
Variable float_of_string : string -> option float.

Lemma row_values_length (headers : list label) (cells : list (option string)) :
  length headers <= length (row_values strip float_of_string headers cells).
Proof.
  unfold row_values. rewrite length_map.
  destruct (Nat.ltb_spec (length cells) (length headers)).
  - rewrite length_app, length_map, repeat_length. lia.
  - rewrite length_map. exact H.
Qed.

Lemma row_values_nth (headers : list label) (cells : list (option string)) (i : nat) :
  i < length headers ->
  nth i (row_values strip float_of_string headers cells) PyNone
  = match nth_error cells i with
    | Some text => try_number strip float_of_string text
    | None => PyNone
    end.
Proof.
  intros Hi. unfold row_values. rewrite length_map.
  assert (Hmap : forall j, nth j (map (try_number strip float_of_string) cells) PyNone
                 = match nth_error cells j with
                   | Some text => try_number strip float_of_string text
                   | None => PyNone
                   end).
  { clear. induction cells as [|c cells IH]; intros [|j]; simpl; auto. }
  destruct (Nat.ltb_spec (length cells) (length headers)); [|apply Hmap].
  destruct (Nat.lt_ge_cases i (length cells)) as [Hlt|Hge].
  - rewrite app_nth1 by (rewrite length_map; exact Hlt). apply Hmap.
  - rewrite app_nth2 by (rewrite length_map; exact Hge).
    rewrite nth_repeat.
    assert (E : nth_error cells i = None) by (apply nth_error_None; exact Hge).
    rewrite E. reflexivity.
Qed.

Lemma combine_fst {A B : Type} (l : list A) (l' : list B) :
  length l <= length l' -> map fst (combine l l') = l.
Proof.
  revert l'. induction l as [|a l IH]; intros [|b l'] H; simpl in *;
    try reflexivity; try lia.
  rewrite IH by lia. reflexivity.
Qed.

Lemma combine_nth_In {A B : Type} (l : list A) (l' : list B) (i : nat) (a : A) (b : B) :
  length l <= length l' -> nth_error l i = Some a -> In (a, nth i l' b) (combine l l').
Proof.
  revert l' i. induction l as [|x l IH]; intros [|y l'] [|i] H E; simpl in *;
    try discriminate; try lia.
  - injection E as <-. left. reflexivity.
  - right. apply IH; [lia|exact E].
Qed.

(** X16. Every record has one entry per distinct header and no other,
    in the same order whatever the cells of the row are: a short row, a
    long row and a full row give records with the same keys. *)
Theorem records_share_keys (headers : list label) (cells cells' : list (option string)) :
  NoDup (map fst (record_of_row strip float_of_string headers cells))
  /\ (forall h, In h (map fst (record_of_row strip float_of_string headers cells))
                <-> In h headers)
  /\ map fst (record_of_row strip float_of_string headers cells)
     = map fst (record_of_row strip float_of_string headers cells').
Proof.
  unfold record_of_row, dict_of.
  rewrite !dict_fold_keys, !combine_fst by apply row_values_length.
  cbn [map]. split; [apply fold_keys_NoDup; constructor|]. split; [|reflexivity].
  intros h. rewrite fold_keys_In. simpl. tauto.
Qed.

(** X17. With distinct headers, the record of a row gives the header at
    position [i] the value of the cell at position [i], [None] when the
    row has fewer cells; the cells beyond the last header are dropped. *)
Theorem record_entry_by_position (headers : list label) (cells : list (option string))
    (i : nat) (h : label) :
  NoDup headers -> nth_error headers i = Some h ->
  dict_get h (record_of_row strip float_of_string headers cells)
  = Some (match nth_error cells i with
          | Some text => try_number strip float_of_string text
          | None => PyNone
          end)
  /\ length (record_of_row strip float_of_string headers cells) = length headers.
Proof.
  intros Hnd Hi. split.
  - unfold record_of_row, dict_of.
    rewrite <- (row_values_nth headers cells i)
      by (apply nth_error_Some; congruence).
    apply dict_fold_get.
    + rewrite combine_fst by apply row_values_length. exact Hnd.
    + apply combine_nth_In; [apply row_values_length|exact Hi].
  - rewrite <- (length_map fst). unfold record_of_row, dict_of.
    rewrite dict_fold_keys, combine_fst by apply row_values_length. cbn [map].
    clear Hi. 
    assert (H : forall ks, NoDup (ks ++ headers) ->
              length (fold_left (fun ks k => if existsb (label_eqb k) ks then ks
                                             else ks ++ [k]) headers ks)
              = length ks + length headers).
    { clear. induction headers as [|a hs IH]; intros ks Hnd; cbn [fold_left].
      - simpl. lia.
      - destruct (existsb (label_eqb a) ks) eqn:E.
        + apply existsb_label_In in E. exfalso.
          apply NoDup_remove_2 in Hnd. apply Hnd, in_or_app. left. exact E.
        + rewrite IH; [rewrite length_app; simpl; lia|].
          rewrite <- app_assoc. exact Hnd. }
    apply (H []). exact Hnd.
Qed.

End ReaderRecords.

Lemma record_entry_by_position_witness :
  (NoDup [Some "Pass"; Some "Profit"; Some "inpPeriod"]
   /\ nth_error [Some "Pass"; Some "Profit"; Some "inpPeriod"] 2 = Some (Some "inpPeriod"))
  /\ dict_get (Some "inpPeriod")
       (record_of_row (fun s => s) (fun _ => None)
          [Some "Pass"; Some "Profit"; Some "inpPeriod"] [Some "1"; Some "2.5"])
     = Some (match nth_error [Some "1"; Some "2.5"] 2 with
             | Some text => try_number (fun s => s) (fun _ => None) text
             | None => PyNone
             end)
  /\ length (record_of_row (fun s => s) (fun _ => None)
               [Some "Pass"; Some "Profit"; Some "inpPeriod"] [Some "1"; Some "2.5"])
     = length [Some "Pass"; Some "Profit"; Some "inpPeriod"].
Proof.
  assert (Hnd : NoDup [Some "Pass"; Some "Profit"; Some "inpPeriod"]).
  { repeat constructor; simpl; intuition discriminate. }
  split; [split; [exact Hnd|reflexivity]|].
  apply (record_entry_by_position (fun s => s) (fun _ => None)
           [Some "Pass"; Some "Profit"; Some "inpPeriod"] [Some "1"; Some "2.5"] 2
           (Some "inpPeriod") Hnd).
  reflexivity.
Defined.

(** X18. The reader puts every column in exactly one class: a parameter
    (its name starts with [inp]), the column [Custom], or a metric. *)
Theorem columns_classified (columns : list label) (c : label) :
  In c columns ->
  (In c (param_cols_of columns) /\ ~ In c (metric_cols_of columns)
   /\ c <> Some "Custom" /\ exists s, c = Some s /\ String.prefix "inp" s = true)
  \/ (~ In c (param_cols_of columns) /\ In c (metric_cols_of columns)
      /\ c <> Some "Custom")
  \/ (c = Some "Custom" /\ ~ In c (param_cols_of columns)
      /\ ~ In c (metric_cols_of columns)).
Proof.
  intros Hc. unfold metric_cols_of.
  set (is_param := fun c : label =>
                     match c with Some s => String.prefix "inp" s | None => false end).
  assert (Hparam : In c (param_cols_of columns) <-> is_param c = true).
  { unfold param_cols_of. rewrite filter_In. fold is_param. tauto. }
  destruct (is_param c) eqn:Ep.
  - left. split; [apply Hparam; reflexivity|]. split; [|split].
    + rewrite filter_In. intros [_ H]. apply andb_true_iff in H. destruct H as [H _].
      apply negb_true_iff in H.
      assert (existsb (label_eqb c) (param_cols_of columns) = true)
        by (apply existsb_label_In, Hparam; reflexivity).
      congruence.
    + intros ->. discriminate.
    + destruct c as [s|]; [|discriminate]. exists s. split; [reflexivity|exact Ep].
  - assert (Hnot : ~ In c (param_cols_of columns)).
    { intros H. apply Hparam in H. discriminate. }
    destruct (label_eqb c (Some "Custom")) eqn:Ec.
    + right. right. split; [apply label_eqb_eq, Ec|]. split; [exact Hnot|].
      rewrite filter_In, Ec, andb_false_r. intros [_ H]. discriminate.
    + right. left. split; [exact Hnot|]. split; [|apply label_eqb_neq, Ec].
      rewrite filter_In, Ec. split; [exact Hc|].
      destruct (existsb (label_eqb c) (param_cols_of columns)) eqn:E; [|reflexivity].
      apply existsb_label_In in E. contradiction.
Qed.

Lemma columns_classified_witness :
  In (Some "Custom") [Some "inpPeriod"; Some "Profit"; Some "Custom"; None]
  /\ ((In (Some "Custom")
         (param_cols_of [Some "inpPeriod"; Some "Profit"; Some "Custom"; None])
       /\ ~ In (Some "Custom")
            (metric_cols_of [Some "inpPeriod"; Some "Profit"; Some "Custom"; None])
       /\ Some "Custom" <> Some "Custom"
       /\ exists s, Some "Custom" = Some s /\ String.prefix "inp" s = true)
      \/ (~ In (Some "Custom")
            (param_cols_of [Some "inpPeriod"; Some "Profit"; Some "Custom"; None])
          /\ In (Some "Custom")
               (metric_cols_of [Some "inpPeriod"; Some "Profit"; Some "Custom"; None])
          /\ Some "Custom" <> Some "Custom")
      \/ (Some "Custom" = Some "Custom"
          /\ ~ In (Some "Custom")
               (param_cols_of [Some "inpPeriod"; Some "Profit"; Some "Custom"; None])
          /\ ~ In (Some "Custom")
               (metric_cols_of [Some "inpPeriod"; Some "Profit"; Some "Custom"; None]))).
Proof.
  assert (H : In (Some "Custom") [Some "inpPeriod"; Some "Profit"; Some "Custom"; None]).
  { simpl. auto. }
  split; [exact H|].
  apply (columns_classified [Some "inpPeriod"; Some "Profit"; Some "Custom"; None]
           (Some "Custom") H).
Defined.

(** * The driver *)

Lemma lookup_written (p q : string) (text : string) (fs : files) :
  lookup q (written p text fs) = if String.eqb q p then Some (File text) else lookup q fs.
Proof.
  induction fs as [|[p' n] rest IH]; cbn [written lookup]; [reflexivity|].
  destruct (String.eqb_spec p p') as [E|Hne]; cbn [lookup].
  - subst p'. destruct (String.eqb q p); reflexivity.
  - rewrite IH. destruct (String.eqb_spec q p') as [E1|_]; [|reflexivity].
    subst p'. destruct (String.eqb_spec q p); [congruence|reflexivity].
Qed.

Section DriverRuns.

Variable fsum : list float -> float.
Variable quantile : list float -> float -> float.
Variable stem : string -> string.
Variable name : string -> string.
Variable joinpath : string -> string -> string.
Variable parse_xml : files -> string -> option (DataFrame * list string).
Variable render : string -> Report -> string.
Variable writable : files -> string -> bool.

Let run_one := process_one fsum quantile stem name joinpath parse_xml render writable.
Let run_all := process_all fsum quantile stem name joinpath parse_xml render writable.
Let out := out_html stem joinpath.

(** A run either leaves the file system as it is or creates the report. *)
Lemma process_one_cases (xml_path reports_dir : string) (fs fs' : files) :
  run_one xml_path reports_dir fs = Done fs' ->
  fs' = fs
  \/ (path_exists fs xml_path = true
      /\ path_exists fs (out xml_path reports_dir) = false
      /\ exists text, fs' = written (out xml_path reports_dir) text fs).
Proof.
  unfold run_one, process_one. fold (out xml_path reports_dir).
  destruct (path_exists fs xml_path) eqn:Ex; cbn [negb];
    [|intros E; injection E as <-; left; reflexivity].
  destruct (path_exists fs (out xml_path reports_dir)) eqn:Eo;
    [intros E; injection E as <-; left; reflexivity|].
  destruct (parse_xml fs xml_path) as [[df param_cols]|]; [|discriminate].
  destruct (value_of _ df) as [report|]; [|discriminate].
  destruct (writable fs (out xml_path reports_dir)); [|discriminate].
  intros E. injection E as <-. right. eauto.
Qed.

Lemma process_one_frame (xml_path reports_dir : string) (fs fs' : files) :
  run_one xml_path reports_dir fs = Done fs' ->
  (forall p, path_exists fs p = true -> lookup p fs' = lookup p fs)
  /\ (forall p, p <> out xml_path reports_dir -> lookup p fs' = lookup p fs)
  /\ (path_exists fs xml_path = true -> path_exists fs' (out xml_path reports_dir) = true).
Proof.
  intros H. destruct (process_one_cases _ _ _ _ H) as [->|(Hx & Ho & text & ->)].
  - split; [reflexivity|]. split; [reflexivity|].
    intros Hx. revert H. unfold run_one, process_one. fold (out xml_path reports_dir).
    rewrite Hx. cbn [negb].
    destruct (path_exists fs (out xml_path reports_dir)) eqn:Eo; [reflexivity|].
    destruct (parse_xml fs xml_path) as [[df param_cols]|]; [|discriminate].
    destruct (value_of _ df) as [report|]; [|discriminate].
    destruct (writable fs (out xml_path reports_dir)); [|discriminate].
    intros E. injection E as E.
    apply (f_equal (lookup (out xml_path reports_dir))) in E.
    rewrite lookup_written, String.eqb_refl in E.
    unfold path_exists in Eo. rewrite <- E in Eo. discriminate.
  - split; [|split].
    + intros p Hp. rewrite lookup_written.
      destruct (String.eqb_spec p (out xml_path reports_dir)) as [->|_]; [|reflexivity].
      congruence.
    + intros p Hp. rewrite lookup_written.
      destruct (String.eqb_spec p (out xml_path reports_dir)); [contradiction|reflexivity].
    + intros _. unfold path_exists. rewrite lookup_written, String.eqb_refl. reflexivity.
Qed.

(** X19. A run of [process_one] that returns changes no path that
    existed and no path other than the report of its XML file; when the
    XML file exists, its report exists afterwards. *)
Theorem process_one_keeps_files (xml_path reports_dir : string) (fs fs' : files) :
  run_one xml_path reports_dir fs = Done fs' ->
  (forall p, path_exists fs p = true -> lookup p fs' = lookup p fs)
  /\ (forall p, p <> out xml_path reports_dir -> lookup p fs' = lookup p fs)
  /\ (path_exists fs xml_path = true -> path_exists fs' (out xml_path reports_dir) = true).
Proof. apply process_one_frame. Qed.

(** X20. After a run of [process_one] that returned, a second run on the
    same XML file does nothing. *)
Theorem process_one_again (xml_path reports_dir : string) (fs fs' : files) :
  run_one xml_path reports_dir fs = Done fs' ->
  run_one xml_path reports_dir fs' = Done fs'.
Proof.
  intros H. destruct (process_one_frame _ _ _ _ H) as (Hkeep & _ & Hout).
  unfold run_one, process_one. fold (out xml_path reports_dir).
  destruct (path_exists fs' xml_path) eqn:Ex'; [|reflexivity]. cbn [negb].
  destruct (path_exists fs' (out xml_path reports_dir)) eqn:Eo'; [reflexivity|].
  exfalso.
  destruct (process_one_cases _ _ _ _ H) as [->|(Hx & _ & _)].
  - revert H. unfold run_one, process_one. fold (out xml_path reports_dir).
    rewrite Ex', Eo'. cbn [negb].
    destruct (parse_xml fs xml_path) as [[df param_cols]|]; [|discriminate].
    destruct (value_of _ df) as [report|]; [|discriminate].
    destruct (writable fs (out xml_path reports_dir)); [|discriminate].
    intros E. injection E as E.
    apply (f_equal (lookup (out xml_path reports_dir))) in E.
    rewrite lookup_written, String.eqb_refl in E.
    unfold path_exists in Eo'. rewrite <- E in Eo'. discriminate.
  - discriminate (Hout Hx).
Qed.

(** X21. After a batch that returned, every listed XML file that existed
    has its report, and no path that existed before has changed. *)
Theorem process_all_reports (xml_files : list string) (reports_dir : string)
    (fs fs' : files) :
  run_all xml_files reports_dir fs = Done fs' ->
  (forall p, path_exists fs p = true -> lookup p fs' = lookup p fs)
  /\ (forall x, In x xml_files -> path_exists fs x = true ->
        path_exists fs' (out x reports_dir) = true).
Proof.
  revert fs. induction xml_files as [|x rest IH]; intros fs; cbn [run_all process_all].
  - intros E. injection E as <-. split; [reflexivity|intros x []].
  - unfold run_all. cbn [process_all].
    destruct (process_one fsum quantile stem name joinpath parse_xml render writable
                x reports_dir fs) as [fs1|] eqn:E1; [|discriminate].
    intros E. destruct (IH fs1 E) as [Hkeep Hrep].
    destruct (process_one_frame _ _ _ _ E1) as (Hkeep1 & _ & Hout1).
    assert (Hex : forall p, path_exists fs p = true -> path_exists fs1 p = true).
    { intros p Hp. unfold path_exists. rewrite (Hkeep1 p Hp). exact Hp. }
    split.
    + intros p Hp. rewrite (Hkeep p (Hex p Hp)). apply Hkeep1, Hp.
    + intros y [<-|Hy] Hp.
      * pose proof (Hout1 Hp) as Ho. unfold path_exists. rewrite (Hkeep _ Ho). exact Ho.
      * apply Hrep; [exact Hy|apply Hex, Hp].
Qed.

End DriverRuns.

Lemma process_one_keeps_files_witness :
  process_one sum_left quantile_lower sample_stem sample_name sample_join sample_reader
    sample_template (fun _ _ => true) "mt5_xml/run.xml" "reports" sample_files
  = Done sample_files_after
  /\ (forall p, path_exists sample_files p = true ->
        lookup p sample_files_after = lookup p sample_files)
  /\ (forall p, p <> out_html sample_stem sample_join "mt5_xml/run.xml" "reports" ->
        lookup p sample_files_after = lookup p sample_files)
  /\ (path_exists sample_files "mt5_xml/run.xml" = true ->
      path_exists sample_files_after
        (out_html sample_stem sample_join "mt5_xml/run.xml" "reports") = true).
Proof.
  split; [vm_compute; reflexivity|].
  apply (process_one_keeps_files sum_left quantile_lower sample_stem sample_name
           sample_join sample_reader sample_template (fun _ _ => true)
           "mt5_xml/run.xml" "reports" sample_files sample_files_after).
  vm_compute. reflexivity.
Defined.

Lemma process_one_again_witness :
  process_one sum_left quantile_lower sample_stem sample_name sample_join sample_reader
    sample_template (fun _ _ => true) "mt5_xml/run.xml" "reports" sample_files
  = Done sample_files_after
  /\ process_one sum_left quantile_lower sample_stem sample_name sample_join sample_reader
       sample_template (fun _ _ => true) "mt5_xml/run.xml" "reports" sample_files_after
     = Done sample_files_after.
Proof.
  split; [vm_compute; reflexivity|].
  apply (process_one_again sum_left quantile_lower sample_stem sample_name
           sample_join sample_reader sample_template (fun _ _ => true)
           "mt5_xml/run.xml" "reports" sample_files sample_files_after).
  vm_compute. reflexivity.
Defined.

Lemma process_all_reports_witness :
  process_all sum_left quantile_lower sample_stem sample_name sample_join sample_reader
    sample_template (fun _ _ => true) ["mt5_xml/run.xml"; "mt5_xml/gone.xml"] "reports"
    sample_files
  = Done sample_files_after
  /\ (forall p, path_exists sample_files p = true ->
        lookup p sample_files_after = lookup p sample_files)
  /\ (forall x, In x ["mt5_xml/run.xml"; "mt5_xml/gone.xml"] ->
        path_exists sample_files x = true ->
        path_exists sample_files_after (out_html sample_stem sample_join x "reports")
        = true).
Proof.
  split; [vm_compute; reflexivity|].
  apply (process_all_reports sum_left quantile_lower sample_stem sample_name
           sample_join sample_reader sample_template (fun _ _ => true)
           ["mt5_xml/run.xml"; "mt5_xml/gone.xml"] "reports" sample_files
           sample_files_after).
  vm_compute. reflexivity.
Defined.

(** ** The columns of the ranking table *)

Section TableColumns.

Variable present : string -> bool.

Let add (acc : list string) (c : string) : list string :=
  if present c && negb (existsb (String.eqb c) acc) then acc ++ [c] else acc.

Lemma existsb_eqb_In (c : string) (l : list string) :
  existsb (String.eqb c) l = true <-> In c l.
Proof.
  rewrite existsb_exists. split.
  - intros (x & Hx & E). apply String.eqb_eq in E. subst. exact Hx.
  - intros H. exists c. split; [exact H|apply String.eqb_refl].
Qed.

Lemma table_fold_NoDup (cs : list string) :
  forall acc, NoDup acc -> NoDup (fold_left add cs acc).
Proof.
  induction cs as [|c cs IH]; intros acc Hacc; cbn [fold_left]; [exact Hacc|].
  apply IH. unfold add.
  destruct (present c); cbn [andb]; [|exact Hacc].
  destruct (existsb (String.eqb c) acc) eqn:E; cbn [negb]; [exact Hacc|].
  apply NoDup_app; [exact Hacc|repeat constructor; intros []|].
  intros x Hx [Ex|[]]. subst x.
  assert (existsb (String.eqb c) acc = true) by (apply existsb_eqb_In, Hx). congruence.
Qed.

Lemma table_fold_In (cs : list string) (x : string) :
  forall acc, In x (fold_left add cs acc) <-> In x acc \/ (In x cs /\ present x = true).
Proof.
  induction cs as [|c cs IH]; intros acc; cbn [fold_left].
  - simpl. tauto.
  - rewrite IH. unfold add. destruct (present c) eqn:Ep; cbn [andb].
    + destruct (existsb (String.eqb c) acc) eqn:E; cbn [negb].
      * apply existsb_eqb_In in E. simpl. split; [tauto|].
        intros [H|[[Hc|H] Hp]]; [auto|subst; auto|auto].
      * rewrite in_app_iff. simpl. split.
        -- intros [[H|[Hc|[]]]|[H Hp]]; [auto|subst; auto|auto].
        -- intros [H|[[Hc|H] Hp]]; [auto|subst; auto|auto].
    + simpl. split; [tauto|].
      intros [H|[[Hc|H] Hp]]; [auto|subst; congruence|auto].
Qed.

End TableColumns.

Section RankingTable.

Variable fsum : list float -> float.
Variable quantile : list float -> float -> float.

Lemma report_of_scored_table (d : DataFrame) (param_cols : list string) (rep : Report) :
  report_of_scored quantile d param_cols = Ok rep ->
  table_cols rep
  = fold_left (fun acc c =>
                 if (has_col c d || String.eqb c "Is_Pareto")
                    && negb (existsb (String.eqb c) acc)
                 then acc ++ [c] else acc)
      ["Profit"; "Equity DD %"; "Sharpe Ratio"; "Profit Factor";
       "Recovery Factor"; "Expected Payoff"; "Trades"] param_cols
    ++ ["Score_Weighted"].
Proof.
  unfold report_of_scored.
  destruct (compute_pareto d) as [flags|]; [|discriminate]. cbn [rbind].
  destruct (fillna _ 0) as [profit|]; [|discriminate]. cbn [rbind].
  destruct (rmap _ param_cols) as [ranges|]; [|discriminate]. cbn [rbind].
  destruct (build_suggestion_cards quantile _ param_cols) as [cards|]; [|discriminate].
  cbn [rbind]. intros E. injection E as <-. cbn [table_cols].
  cbn [fold_left]. rewrite !has_col_df_set. reflexivity.
Qed.

(** X22. The columns of the ranking table: the parameter columns first,
    then those of the seven listed metrics that are columns of the table
    and not parameters, then [Score_Weighted]; with distinct parameter
    columns other than [Score_Weighted], no column is listed twice. *)
Theorem table_cols_distinct (h : heap) (l : ref) (d : DataFrame)
    (param_cols : list string) (rep : Report) :
  nth_error h l = Some d ->
  wf_frame d = true ->
  NoDup param_cols -> ~ In "Score_Weighted" param_cols ->
  fst (generate_report fsum quantile l param_cols h) = Ok rep ->
  NoDup (table_cols rep)
  /\ (exists metrics, table_cols rep = param_cols ++ metrics ++ ["Score_Weighted"])
  /\ (forall c, In c (table_cols rep) <->
        In c param_cols \/ c = "Score_Weighted"
        \/ (In c ["Profit"; "Equity DD %"; "Sharpe Ratio"; "Profit Factor";
                  "Recovery Factor"; "Expected Payoff"; "Trades"]
            /\ has_col c d = true)).
Proof.
  intros Hl Hwf Hnd Hsw.
  rewrite (generate_report_value fsum quantile h l d param_cols Hl).
  unfold report_value.
  destruct (filtered_frame d Hwf) as (d1 & -> & Hwf1 & _ & Hcols1). cbn [rbind].
  unfold report_of_filtered.
  destruct (z_columns_metrics fsum d1 Hwf1) as (dz & -> & Hwfz & _ & _ & Hother).
  cbn [rbind]. unfold scored.
  destruct (weighted_sum DEFAULT_WEIGHTS dz (repeat 0%float (df_len dz))) as [score|];
    [|discriminate].
  cbn [rbind]. intros E. apply report_of_scored_table in E.
  set (present := fun c => has_col c (df_set dz "Score_Weighted" (map CNum score))
                           || String.eqb c "Is_Pareto").
  change (table_cols rep
          = fold_left (fun acc c =>
                         if present c && negb (existsb (String.eqb c) acc)
                         then acc ++ [c] else acc)
              ["Profit"; "Equity DD %"; "Sharpe Ratio"; "Profit Factor";
               "Recovery Factor"; "Expected Payoff"; "Trades"] param_cols
            ++ ["Score_Weighted"]) in E.
  assert (Hpresent : forall c,
            In c ["Profit"; "Equity DD %"; "Sharpe Ratio"; "Profit Factor";
                  "Recovery Factor"; "Expected Payoff"; "Trades"] ->
            present c = has_col c d).
  { intros c Hc. unfold present. rewrite has_col_df_set, <- Hcols1, !has_col_match.
    rewrite (Hother c).
    - repeat (destruct Hc as [<-|Hc]; [cbn; rewrite !orb_false_r; reflexivity|]).
      destruct Hc.
    - repeat (destruct Hc as [<-|Hc]; [reflexivity|]). destruct Hc. }
  assert (Hin : forall c, In c (table_cols rep) <->
            In c param_cols \/
            (In c ["Profit"; "Equity DD %"; "Sharpe Ratio"; "Profit Factor";
                   "Recovery Factor"; "Expected Payoff"; "Trades"]
             /\ present c = true) \/ c = "Score_Weighted").
  { intros c. rewrite E, in_app_iff, (table_fold_In present).
    split.
    - intros [[H|H]|[H|[]]]; auto.
    - intros [H|[H|H]]; auto. right. left. symmetry. exact H. }
  split; [|split].
  - rewrite E. apply NoDup_app.
    + apply (table_fold_NoDup present), Hnd.
    + repeat constructor. intros [].
    + intros c Hc [Ec|[]]. subst c.
      apply (table_fold_In present) in Hc. destruct Hc as [Hc|[Hc _]]; [auto|].
      repeat (destruct Hc as [Hc|Hc]; [discriminate|]). destruct Hc.
  - rewrite E.
    assert (Hpre : forall cs acc, exists more,
              fold_left (fun acc c =>
                           if present c && negb (existsb (String.eqb c) acc)
                           then acc ++ [c] else acc) cs acc = acc ++ more).
    { induction cs as [|c cs IH]; intros acc; cbn [fold_left].
      - exists []. rewrite app_nil_r. reflexivity.
      - destruct (present c && negb (existsb (String.eqb c) acc)).
        + destruct (IH (acc ++ [c])) as [more ->]. exists (c :: more).
          rewrite <- app_assoc. reflexivity.
        + apply IH. }
    destruct (Hpre ["Profit"; "Equity DD %"; "Sharpe Ratio"; "Profit Factor";
                    "Recovery Factor"; "Expected Payoff"; "Trades"] param_cols)
      as [more ->].
    exists more. rewrite <- app_assoc. reflexivity.
  - intros c. rewrite Hin. split.
    + intros [H|[[H1 H2]|H]]; auto. right. right. split; [exact H1|].
      rewrite <- (Hpresent c H1). exact H2.
    + intros [H|[H|[H1 H2]]]; auto. right. left. split; [exact H1|].
      rewrite (Hpresent c H1). exact H2.
Qed.

End RankingTable.

Lemma table_cols_distinct_witness :
  exists rep,
    (nth_error [scenario_abc] 0 = Some scenario_abc
     /\ wf_frame scenario_abc = true
     /\ NoDup ["inpPeriod"] /\ ~ In "Score_Weighted" ["inpPeriod"]
     /\ fst (generate_report sum_left quantile_lower 0 ["inpPeriod"] [scenario_abc])
        = Ok rep)
    /\ NoDup (table_cols rep)
    /\ (exists metrics, table_cols rep = ["inpPeriod"] ++ metrics ++ ["Score_Weighted"])
    /\ (forall c, In c (table_cols rep) <->
          In c ["inpPeriod"] \/ c = "Score_Weighted"
          \/ (In c ["Profit"; "Equity DD %"; "Sharpe Ratio"; "Profit Factor";
                    "Recovery Factor"; "Expected Payoff"; "Trades"]
              /\ has_col c scenario_abc = true)).
Proof.
  destruct (fst (generate_report sum_left quantile_lower 0 ["inpPeriod"] [scenario_abc]))
    as [rep|e] eqn:E; [|vm_compute in E; discriminate].
  exists rep.
  assert (H0 : nth_error [scenario_abc] 0 = Some scenario_abc) by reflexivity.
  assert (H1 : wf_frame scenario_abc = true) by reflexivity.
  assert (H2 : NoDup ["inpPeriod"]) by (repeat constructor; intros []).
  assert (H3 : ~ In "Score_Weighted" ["inpPeriod"]) by (intros [H|[]]; discriminate).
  split; [split; [exact H0|split; [exact H1|split; [exact H2|split;
          [exact H3|reflexivity]]]]|].
  exact (table_cols_distinct sum_left quantile_lower [scenario_abc] 0 scenario_abc
           ["inpPeriod"] rep H0 H1 H2 H3 E).
Defined.

(** ** A parameter column that is not in the table *)

Lemma rmap_raises {A B : Type} (f : A -> result B) (xs : list A) (e : error) :
  (forall x, In x xs -> (exists y, f x = Ok y) \/ f x = Raise e) ->
  (exists x, In x xs /\ f x = Raise e) ->
  rmap f xs = Raise e.
Proof.
  induction xs as [|x xs IH]; intros Hall (x0 & Hin & Hx0); [destruct Hin|].
  cbn [rmap]. destruct (Hall x (or_introl eq_refl)) as [[y Hy]|Hr].
  - rewrite Hy. cbn [rbind].
    rewrite IH; [reflexivity| |].
    + intros x' Hx'. apply Hall. right. exact Hx'.
    + destruct Hin as [<-|Hin]; [congruence|eauto].
  - rewrite Hr. reflexivity.
Qed.

Lemma param_range_absent (d : DataFrame) (p : string) :
  has_col p d = false -> param_range d p = Raise KeyError.
Proof.
  intros H. rewrite has_col_match in H. unfold param_range, df_col.
  destruct (lookup p (df_cols d)); [discriminate|reflexivity].
Qed.

Section MissingParameter.

Variable fsum : list float -> float.
Variable quantile : list float -> float -> float.

(** X23. When a parameter column is not in the table (and is not one of
    the columns the analysis adds), [generate_report] on a table without
    booleans that has the three objective columns, with [Is_Pareto] not
    taken as a parameter, raises [KeyError]. *)
Theorem missing_parameter_raises (h : heap) (l : ref) (d : DataFrame)
    (param_cols : list string) (p : string) :
  nth_error h l = Some d ->
  wf_frame d = true ->
  bool_free d = true ->
  objectives_present d = true ->
  z_columns_derived d = true ->
  ~ In "Is_Pareto" param_cols ->
  In p param_cols -> has_col p d = false ->
  is_z_name p = false -> p <> "Score_Weighted" ->
  fst (generate_report fsum quantile l param_cols h) = Raise KeyError.
Proof.
  intros Hl Hwf Hfree Hobj Hder Hip Hp Habs Hz Hsw.
  rewrite (generate_report_value fsum quantile h l d param_cols Hl).
  unfold report_value.
  destruct (filtered_frame d Hwf) as (d1 & E1 & Hwf1 & _ & Hcols1).
  pose proof (filtered_clean d d1 param_cols Hwf E1 (bool_free_clean d _ Hfree))
    as Hclean1.
  rewrite E1. cbn [rbind].
  assert (Hder1 : z_columns_derived d1 = true).
  { revert Hder. unfold z_columns_derived. rewrite !forallb_forall.
    intros H m Hm. rewrite !Hcols1. apply H, Hm. }
  unfold report_of_filtered.
  destruct (normalized_scored fsum d1 Hwf1 Hder1)
    as (dz & scores & Ez & Hwfz & Hlenz & Hother & _ & _ & Es & Hls).
  rewrite Ez. cbn [rbind]. rewrite Es. cbn [rbind].
  set (ds := df_set dz "Score_Weighted" (map CNum scores)).
  assert (Hkeep : forall c, has_col c d = true -> has_col c ds = true).
  { intros c Hc. apply has_col_set_keeps.
    apply (z_columns_keeps_columns fsum d1 dz c Hwf1 Ez). rewrite Hcols1. exact Hc. }
  assert (Hobj' : objectives_present ds = true).
  { revert Hobj. unfold objectives_present. rewrite !andb_true_iff.
    intros [[H1 H2] H3]. rewrite !Hkeep by assumption. auto. }
  unfold report_of_scored.
  rewrite (compute_pareto_char ds (or_intror Hobj')). cbn [rbind].
  set (flags := map (fun i => negb (dominated ds i)) (seq 0 (df_len ds))).
  set (d' := df_set ds "Is_Pareto" (map CBool flags)).
  assert (Hclean' : clean d' param_cols).
  { apply set_clean; [|right; exact Hip].
    apply set_clean; [|left; apply no_bool_numbers].
    exact (z_columns_clean fsum d1 dz param_cols Hwf1 Ez Hclean1). }
  assert (Hprofit : has_col "Profit" d' = true).
  { apply has_col_set_keeps. revert Hobj'. unfold objectives_present.
    rewrite !andb_true_iff. tauto. }
  destruct (fillna_present d' "Profit" Hprofit) as [profit ->]. cbn [rbind].
  rewrite (rmap_raises (param_range d') param_cols KeyError); [reflexivity| |].
  - intros x Hx. destruct (has_col x d') eqn:E.
    + left. apply has_col_lookup in E. destruct E as [s Hs].
      apply (param_range_ok d' x s Hs).
      rewrite (no_bool_has_bool false s (Hclean' x s Hx Hs)). reflexivity.
    + right. apply param_range_absent, E.
  - exists p. split; [exact Hp|]. apply param_range_absent.
    assert (Hpip : p <> "Is_Pareto") by (intros ->; contradiction).
    unfold d', ds. rewrite !has_col_df_set.
    apply String.eqb_neq in Hsw, Hpip. rewrite Hsw, Hpip, !orb_false_r.
    rewrite has_col_match, (Hother p Hz), <- has_col_match, Hcols1. exact Habs.
Qed.

End MissingParameter.

Lemma missing_parameter_raises_witness :
  (nth_error [scenario_abc] 0 = Some scenario_abc
   /\ wf_frame scenario_abc = true
   /\ bool_free scenario_abc = true
   /\ objectives_present scenario_abc = true
   /\ z_columns_derived scenario_abc = true
   /\ ~ In "Is_Pareto" ["inpPeriod"; "inpStep"]
   /\ In "inpStep" ["inpPeriod"; "inpStep"]
   /\ has_col "inpStep" scenario_abc = false
   /\ is_z_name "inpStep" = false
   /\ "inpStep" <> "Score_Weighted")
  /\ fst (generate_report sum_left quantile_lower 0 ["inpPeriod"; "inpStep"]
            [scenario_abc])
     = Raise KeyError.
Proof.
  assert (H6 : ~ In "Is_Pareto" ["inpPeriod"; "inpStep"]).
  { intros [H|[H|[]]]; discriminate. }
  assert (H7 : In "inpStep" ["inpPeriod"; "inpStep"]) by (simpl; auto).
  assert (H10 : "inpStep" <> "Score_Weighted") by discriminate.
  split; [repeat (split; [first [reflexivity|assumption]|]); assumption|].
  apply (missing_parameter_raises sum_left quantile_lower [scenario_abc] 0 scenario_abc
           ["inpPeriod"; "inpStep"] "inpStep"); try reflexivity; assumption.
Defined.
